(** * CCheckpoints: the SQLite checkpoint manager

    A shallow embedding of [src/core/checkpoint-manager-sqlite.ts]
    (class [CheckpointManager]): the three tables of the store, the session
    handlers for the [UserPromptSubmit] and [Stop] events, checkpoint
    creation, the positional diff, restore and deletion.

    Conventions of the embedding.
    - JavaScript strings are [string]s, one [ascii] per code unit; the
      white space removed by [String.prototype.trim] is the part of the
      ECMAScript [WhiteSpace] and [LineTerminator] sets below code unit 256.
    - A SQL table is the list of its rows in rowid order.
    - A method is a computation in the monad [M], which threads the manager
      (database connection, [currentSession] field, file system) and carries
      thrown exceptions; what the clock, the random generator and
      [FileUtils] answer during one call is the [Env] of that call.
    - Logging is not observable by any operation of the manager and is left
      out. *)

From Stdlib Require Import ZArith NArith Ascii String List DecimalString.
From Stdlib Require OrderedTypeEx Permutation.
From stdpp Require Import base option list gmap strings.

Set Default Proof Using "Type".

(* ===================================================================== *)
(** ** JavaScript strings *)
(* ===================================================================== *)

Module JS.

Definition LF : ascii := "010"%char.

(** The string made of one line feed. *)
Definition nl : string := String LF "".

(** [WhiteSpace] and [LineTerminator] code units below 256:
    TAB, LF, VT, FF, CR, SP and NBSP. *)
Definition isWhiteSpace (c : ascii) : bool :=
  match N_of_ascii c with
  | 9 | 10 | 11 | 12 | 13 | 32 | 160 => true
  | _ => false
  end%N.

Fixpoint trimStart (s : string) : string :=
  match s with
  | EmptyString => EmptyString
  | String c s' => if isWhiteSpace c then trimStart s' else s
  end.

Fixpoint trimEnd (s : string) : string :=
  match s with
  | EmptyString => EmptyString
  | String c s' =>
      match trimEnd s' with
      | EmptyString => if isWhiteSpace c then EmptyString else String c EmptyString
      | t => String c t
      end
  end.

(** [s.trim()] *)
Definition trim (s : string) : string := trimEnd (trimStart s).

(** [s.split(sep)] for a separator of one code unit: never empty, [""]
    splits into [[""]]. *)
Fixpoint split (sep : ascii) (s : string) : list string :=
  match s with
  | EmptyString => [EmptyString]
  | String c s' =>
      if Ascii.eqb c sep then EmptyString :: split sep s'
      else match split sep s' with
           | l :: ls => String c l :: ls
           | [] => [String c EmptyString]
           end
  end.

(** Decimal rendering of a non-negative integer inside a template literal. *)
Definition toString (n : nat) : string :=
  NilEmpty.string_of_uint (Nat.to_uint n).

(** [s.substring(0, n)] *)
Definition substring0 (n : nat) (s : string) : string := String.substring 0 n s.

(** Truthiness of a string: only the empty string is falsy. *)
Definition truthy (s : string) : bool :=
  match s with EmptyString => false | _ => true end.

(** [a || b] on strings. *)
Definition or_else (a b : string) : string := if truthy a then a else b.

(** [a || b] where [a] may be [null] or [undefined]. *)
Definition opt_or_else (a : option string) (b : string) : string :=
  match a with
  | Some s => or_else s b
  | None => b
  end.

(** A value interpolated in a template literal; [undefined] prints as
    its name. *)
Definition interpolate (a : option string) : string :=
  match a with Some s => s | None => "undefined" end.

End JS.

(* ===================================================================== *)
(** ** The positional diff ([generateSimpleDiff]) *)
(* ===================================================================== *)

(** The body of the [for] loop of [generateSimpleDiff], at index [i]. *)
Definition diff_loop_body (oldLines newLines : list string)
    (result : string) (i : nat) : string :=
  let oldLine := oldLines !! i in
  let newLine := newLines !! i in
  match oldLine, newLine with
  | None, _ =>
      result +:+ "+" +:+ JS.interpolate newLine +:+ JS.nl
  | Some o, None =>
      result +:+ "-" +:+ o +:+ JS.nl
  | Some o, Some n =>
      if negb (String.eqb o n)
      then (result +:+ "-" +:+ o +:+ JS.nl) +:+ "+" +:+ n +:+ JS.nl
      else result +:+ " " +:+ o +:+ JS.nl
  end.

(** The hunk header of the template literal. *)
Definition hunk_header (oldCount newCount : nat) : string :=
  "@@ -1," +:+ JS.toString oldCount +:+ " +1," +:+ JS.toString newCount
    +:+ " @@" +:+ JS.nl.

Definition generateSimpleDiff (oldContent newContent : string) : string :=
  let oldLines := JS.split JS.LF oldContent in
  let newLines := JS.split JS.LF newContent in
  let result := EmptyString in
  let maxLength := Nat.max (length oldLines) (length newLines) in
  let result := result +:+ hunk_header (length oldLines) (length newLines) in
  let result := fold_left (diff_loop_body oldLines newLines) (seq 0 maxLength) result in
  JS.or_else (JS.trim result) "No content changes detected".

(** *** The walk as the specification words it *)

(** One emitted line of the walk. *)
Inductive diff_line :=
| Added (line : string)
| Removed (line : string)
| Context (line : string).

Definition render_line (d : diff_line) : string :=
  match d with
  | Added l => "+" +:+ l +:+ JS.nl
  | Removed l => "-" +:+ l +:+ JS.nl
  | Context l => " " +:+ l +:+ JS.nl
  end.

(** Position by position: a position only in the new sequence is added, a
    position only in the old one is removed, differing lines give the old
    line removed then the new line added, equal lines give context. *)
Fixpoint positional_walk (old new : list string) : list diff_line :=
  match old, new with
  | [], _ => map Added new
  | _, [] => map Removed old
  | o :: old', n :: new' =>
      if String.eqb o n
      then Context o :: positional_walk old' new'
      else Removed o :: Added n :: positional_walk old' new'
  end.

Definition render_walk (ds : list diff_line) : string :=
  fold_right (fun d acc => render_line d +:+ acc) EmptyString ds.

(** Header followed by the whole walk, every line terminated by a line
    feed: the text the specification describes. *)
Definition untrimmed_diff (oldContent newContent : string) : string :=
  let oldLines := JS.split JS.LF oldContent in
  let newLines := JS.split JS.LF newContent in
  hunk_header (length oldLines) (length newLines)
    +:+ render_walk (positional_walk oldLines newLines).

(* ===================================================================== *)
(** ** Rows of the three tables *)
(* ===================================================================== *)

(** Rows of [sessions]; [sessionEndTime IS NULL] marks an active session. *)
Module Session.
Record t := mk {
  id : string;
  projectPath : string;
  projectName : string;
  totalCheckpoints : N;
  totalFileChanges : N;
  sessionStartTime : string;
  sessionEndTime : option string;
  lastPrompt : option string;
  lastPromptTime : option string;
  createdAt : string;
  updatedAt : string
}.
End Session.

(** Rows of [checkpoints]. *)
Module Checkpoint.
Record t := mk {
  id : string;
  sessionId : string;
  projectPath : string;
  projectName : string;
  prompt : string;
  message : string;
  fileCount : N;
  totalSize : N;
  userPrompt : option string;
  timestamp : string;
  metadata : string;
  createdAt : string
}.
End Checkpoint.

(** Rows of [file_snapshots]; [id] is the AUTOINCREMENT rowid and [content]
    is a nullable column. *)
Module FileSnapshot.
Record t := mk {
  id : nat;
  checkpointId : string;
  filePath : string;
  relativePath : string;
  content : option string;
  size : N;
  modifiedTime : string;
  extension : string;
  isDirectory : N
}.
End FileSnapshot.

(** What [FileUtils.getProjectFiles] yields for one file: the interface
    [FileInfo] of [FileUtils] (its text follows [parseArgs] in
    [src/utils/args.ts]), with the fields [createCheckpoint] reads,
    [lastModified] standing for [file.lastModified.toISOString()]; the
    field [hash] is read by nothing in the manager. *)
Module FileInfo.
Record t := mk {
  absolutePath : string;
  relativePath : string;
  content : string;
  size : N;
  lastModified : string;
  extension : string
}.
End FileInfo.

(* ===================================================================== *)
(** ** The database *)
(* ===================================================================== *)

(** The connection opened by [new Database(dbPath)] after
    [initializeDatabase]: three tables, and the AUTOINCREMENT counter of
    [file_snapshots]. better-sqlite3 opens its connections with foreign key
    enforcement switched on and the manager never issues a PRAGMA, so the
    [FOREIGN KEY] clauses of the schema are part of what a statement does. *)
Record Database := mkDatabase {
  sessions : list Session.t;
  checkpoints : list Checkpoint.t;
  file_snapshots : list FileSnapshot.t;
  file_snapshots_seq : nat
}.

(** [CREATE TABLE IF NOT EXISTS ...] on a new file. *)
Definition initializeDatabase : Database :=
  {| sessions := []; checkpoints := []; file_snapshots := [];
     file_snapshots_seq := 0 |}.

Inductive FsError := ENOENT | ENOTDIR | EEXIST | EISDIR.

Inductive Error :=
| SqliteError (code : string)
| FsFailure (code : FsError)
| JsError (message : string).

(** A write statement either yields the new database or raises. *)
Definition Statement := Database -> Database + Error.

Definition has_session (i : string) (d : Database) : bool :=
  existsb (fun s => String.eqb (Session.id s) i) (sessions d).

Definition has_checkpoint (i : string) (d : Database) : bool :=
  existsb (fun c => String.eqb (Checkpoint.id c) i) (checkpoints d).

(** [INSERT INTO sessions (...) VALUES (?, ?, ?, 0, ?, ?, ?, ?, ?)]:
    [id] is the primary key; the columns left out take their defaults. *)
Definition insert_session (sessionId projectPath projectName now promptText : string)
  : Statement := fun d =>
  if has_session sessionId d then inr (SqliteError "SQLITE_CONSTRAINT_PRIMARYKEY")
  else
    let row := {| Session.id := sessionId;
                  Session.projectPath := projectPath;
                  Session.projectName := projectName;
                  Session.totalCheckpoints := 0;
                  Session.totalFileChanges := 0;
                  Session.sessionStartTime := now;
                  Session.sessionEndTime := None;
                  Session.lastPrompt := Some promptText;
                  Session.lastPromptTime := Some now;
                  Session.createdAt := now;
                  Session.updatedAt := now |} in
    inl {| sessions := sessions d ++ [row]; checkpoints := checkpoints d;
           file_snapshots := file_snapshots d;
           file_snapshots_seq := file_snapshots_seq d |}.

(** [UPDATE sessions SET ... WHERE id = ?], given what SET does to a row. *)
Definition update_sessions_where_id (set : Session.t -> Session.t) (i : string)
  : Statement := fun d =>
  inl {| sessions := map (fun s => if String.eqb (Session.id s) i then set s else s)
                         (sessions d);
         checkpoints := checkpoints d;
         file_snapshots := file_snapshots d;
         file_snapshots_seq := file_snapshots_seq d |}.

(** [SET lastPrompt = ?, lastPromptTime = ?, updatedAt = ?] *)
Definition set_prompt (promptText now : string) (s : Session.t) : Session.t :=
  {| Session.id := Session.id s;
     Session.projectPath := Session.projectPath s;
     Session.projectName := Session.projectName s;
     Session.totalCheckpoints := Session.totalCheckpoints s;
     Session.totalFileChanges := Session.totalFileChanges s;
     Session.sessionStartTime := Session.sessionStartTime s;
     Session.sessionEndTime := Session.sessionEndTime s;
     Session.lastPrompt := Some promptText;
     Session.lastPromptTime := Some now;
     Session.createdAt := Session.createdAt s;
     Session.updatedAt := now |}.

(** [SET sessionEndTime = ?, updatedAt = ?] *)
Definition set_end (now : string) (s : Session.t) : Session.t :=
  {| Session.id := Session.id s;
     Session.projectPath := Session.projectPath s;
     Session.projectName := Session.projectName s;
     Session.totalCheckpoints := Session.totalCheckpoints s;
     Session.totalFileChanges := Session.totalFileChanges s;
     Session.sessionStartTime := Session.sessionStartTime s;
     Session.sessionEndTime := Some now;
     Session.lastPrompt := Session.lastPrompt s;
     Session.lastPromptTime := Session.lastPromptTime s;
     Session.createdAt := Session.createdAt s;
     Session.updatedAt := now |}.

(** [SET totalFileChanges = totalFileChanges + ?, updatedAt = ?] *)
Definition set_stats (n : N) (now : string) (s : Session.t) : Session.t :=
  {| Session.id := Session.id s;
     Session.projectPath := Session.projectPath s;
     Session.projectName := Session.projectName s;
     Session.totalCheckpoints := Session.totalCheckpoints s;
     Session.totalFileChanges := (Session.totalFileChanges s + n)%N;
     Session.sessionStartTime := Session.sessionStartTime s;
     Session.sessionEndTime := Session.sessionEndTime s;
     Session.lastPrompt := Session.lastPrompt s;
     Session.lastPromptTime := Session.lastPromptTime s;
     Session.createdAt := Session.createdAt s;
     Session.updatedAt := now |}.

(** [INSERT INTO checkpoints ...]: [id] is the primary key and [sessionId]
    references [sessions(id)]. *)
Definition insert_checkpoint (row : Checkpoint.t) : Statement := fun d =>
  if has_checkpoint (Checkpoint.id row) d
  then inr (SqliteError "SQLITE_CONSTRAINT_PRIMARYKEY")
  else if negb (has_session (Checkpoint.sessionId row) d)
  then inr (SqliteError "SQLITE_CONSTRAINT_FOREIGNKEY")
  else inl {| sessions := sessions d; checkpoints := checkpoints d ++ [row];
              file_snapshots := file_snapshots d;
              file_snapshots_seq := file_snapshots_seq d |}.

(** [INSERT INTO file_snapshots (checkpointId, ..., isDirectory) VALUES ...]:
    the rowid comes from the AUTOINCREMENT counter and [checkpointId]
    references [checkpoints(id)]. *)
Definition insert_file_snapshot (checkpointId : string) (file : FileInfo.t)
    (isDirectory : N) : Statement := fun d =>
  if negb (has_checkpoint checkpointId d)
  then inr (SqliteError "SQLITE_CONSTRAINT_FOREIGNKEY")
  else
    let rowid := S (file_snapshots_seq d) in
    let row := {| FileSnapshot.id := rowid;
                  FileSnapshot.checkpointId := checkpointId;
                  FileSnapshot.filePath := FileInfo.absolutePath file;
                  FileSnapshot.relativePath := FileInfo.relativePath file;
                  FileSnapshot.content := Some (FileInfo.content file);
                  FileSnapshot.size := FileInfo.size file;
                  FileSnapshot.modifiedTime := FileInfo.lastModified file;
                  FileSnapshot.extension := FileInfo.extension file;
                  FileSnapshot.isDirectory := isDirectory |} in
    inl {| sessions := sessions d; checkpoints := checkpoints d;
           file_snapshots := file_snapshots d ++ [row];
           file_snapshots_seq := rowid |}.

(** [DELETE FROM checkpoints WHERE id = ?]. The schema declares
    [FOREIGN KEY (checkpointId) REFERENCES checkpoints(id) ON DELETE CASCADE]
    on [file_snapshots]: the snapshots of every checkpoint row that is
    deleted go with it. *)
Definition delete_checkpoint_where_id (i : string) : Statement := fun d =>
  let deleted := List.filter (fun c => String.eqb (Checkpoint.id c) i) (checkpoints d) in
  let kept := List.filter (fun c => negb (String.eqb (Checkpoint.id c) i)) (checkpoints d) in
  let cascaded f :=
    existsb (fun c => String.eqb (Checkpoint.id c) (FileSnapshot.checkpointId f)) deleted in
  inl {| sessions := sessions d; checkpoints := kept;
         file_snapshots := List.filter (fun f => negb (cascaded f)) (file_snapshots d);
         file_snapshots_seq := file_snapshots_seq d |}.

(* ===================================================================== *)
(** ** The file system seen by restore *)
(* ===================================================================== *)

(** The file system is a finite map from paths to what they name, a path
    being the list of its components below the root. Permissions, links and
    other writers are outside the model: a call fails only for the shape of
    the tree. *)
Inductive node := File (content : string) | Dir.

Abbreviation FS := (gmap (list string) node).

(** Components of a path string; empty and [.] segments name nothing.
    The paths a checkpoint records are the scanner's absolute, normalised
    ones. *)
Definition resolve (p : string) : list string :=
  List.filter (fun seg => negb (String.eqb seg "" || String.eqb seg "."))
              (JS.split "/"%char p).

(** The directory of a resolved path ([dirname]). *)
Definition dirname (p : list string) : list string := removelast p.

(** The directories on the way to [d], [d] included, the root left out. *)
Definition ancestors_and_self (d : list string) : list (list string) :=
  map (fun n => take n d) (seq 1 (length d)).

(** The root is a directory whatever the map holds. *)
Definition is_file (fs : FS) (p : list string) : bool :=
  match p with
  | [] => false
  | _ => match fs !! p with Some (File _) => true | _ => false end
  end.

Definition is_dir (fs : FS) (p : list string) : bool :=
  match p with
  | [] => true
  | _ => match fs !! p with Some Dir => true | _ => false end
  end.

(** [mkdir(dir, { recursive: true })]: fails when a component on the way is
    a regular file, otherwise every missing directory is created. *)
Definition mkdir_recursive (d : list string) (fs : FS) : FS + FsError :=
  if is_file fs d then inr EEXIST
  else if existsb (is_file fs) (ancestors_and_self d) then inr ENOTDIR
  else inl (foldr (fun p m => <[p := Dir]> m) fs (ancestors_and_self d)).

(** [writeFile(path, content, 'utf-8')]: the parent must be a directory and
    the target must not be one; the file is created or overwritten. *)
Definition writeFile (p : list string) (content : string) (fs : FS) : FS + FsError :=
  if is_dir fs p then inr EISDIR
  else if is_file fs (dirname p) then inr ENOTDIR
  else if negb (is_dir fs (dirname p)) then inr ENOENT
  else inl (<[p := File content]> fs).

Definition FsError_code (e : FsError) : string :=
  match e with
  | ENOENT => "ENOENT"
  | ENOTDIR => "ENOTDIR"
  | EEXIST => "EEXIST"
  | EISDIR => "EISDIR"
  end.

(** [`${error}`] *)
Definition Error_toString (e : Error) : string :=
  match e with
  | SqliteError code => "SqliteError: " +:+ code
  | FsFailure code => "Error: " +:+ FsError_code code
  | JsError message => "Error: " +:+ message
  end.

(* ===================================================================== *)
(** ** The manager and its monad *)
(* ===================================================================== *)

(** The state a method runs in: the connection [this.db], the field
    [this.currentSession], the file system, and [io_errors], the schedule of
    the storage layer: the n-th write statement to come raises (disk full,
    I/O error, lock) when the n-th entry is [true], and an exhausted schedule
    lets every statement through. *)
Record World := mkWorld {
  db : Database;
  currentSession : option Session.t;
  files : FS;
  io_errors : list bool
}.

Inductive Outcome (A : Type) :=
| Return (a : A)
| Throw (e : Error).
Arguments Return {A} a.
Arguments Throw {A} e.

Definition M (A : Type) : Type := World -> Outcome A * World.

Definition ret {A} (a : A) : M A := fun w => (Return a, w).

Definition bind {A B} (m : M A) (k : A -> M B) : M B := fun w =>
  match m w with
  | (Return a, w') => k a w'
  | (Throw e, w') => (Throw e, w')
  end.

Definition throw {A} (e : Error) : M A := fun w => (Throw e, w).

(** [try { m } catch (error) { handler(error) }]: what [m] did to the state
    before it raised stays done. *)
Definition try_catch {A} (m : M A) (handler : Error -> M A) : M A := fun w =>
  match m w with
  | (Return a, w') => (Return a, w')
  | (Throw e, w') => handler e w'
  end.

Declare Scope js_scope.
Delimit Scope js_scope with js.
Notation "'let*' x := m 'in' k" := (bind m (fun x => k))
  (at level 10, x pattern, m at level 100, k at level 200) : js_scope.
Notation "m ;;; k" := (bind m (fun _ => k))
  (at level 100, k at level 200, right associativity) : js_scope.
Open Scope js_scope.

(** [for (const x of xs) { body }] *)
Fixpoint for_of {A} (xs : list A) (body : A -> M unit) : M unit :=
  match xs with
  | [] => ret tt
  | x :: xs' => body x ;;; for_of xs' body
  end.

(** A [for ... of] loop whose body updates local variables [S]. *)
Fixpoint for_of_with {A S} (xs : list A) (body : S -> A -> M S) (s : S) : M S :=
  match xs with
  | [] => ret s
  | x :: xs' => let* s' := body s x in for_of_with xs' body s'
  end.

Definition get_currentSession : M (option Session.t) := fun w =>
  (Return (currentSession w), w).

Definition set_currentSession (s : option Session.t) : M unit := fun w =>
  (Return tt, {| db := db w; currentSession := s; files := files w;
                 io_errors := io_errors w |}).

(** A query: reads the tables, changes nothing. *)
Definition query {A} (q : Database -> A) : M A := fun w => (Return (q (db w)), w).

(** [statement.run(...)] for a write statement. *)
Definition run (stmt : Statement) : M unit := fun w =>
  let later := tail (io_errors w) in
  match io_errors w with
  | true :: _ =>
      (Throw (SqliteError "SQLITE_IOERR"),
       {| db := db w; currentSession := currentSession w; files := files w;
          io_errors := later |})
  | _ =>
      match stmt (db w) with
      | inl d' =>
          (Return tt,
           {| db := d'; currentSession := currentSession w; files := files w;
              io_errors := later |})
      | inr e =>
          (Throw e,
           {| db := db w; currentSession := currentSession w; files := files w;
              io_errors := later |})
      end
  end.

(** A file system call. *)
Definition fs_call (op : FS -> FS + FsError) : M unit := fun w =>
  match op (files w) with
  | inl fs' =>
      (Return tt,
       {| db := db w; currentSession := currentSession w; files := fs';
          io_errors := io_errors w |})
  | inr e => (Throw (FsFailure e), w)
  end.

(* ===================================================================== *)
(** ** Events and their environment *)
(* ===================================================================== *)

(** [data.promptSources] *)
Record PromptSources := mkPromptSources {
  actual_prompt : option string;
  env_claude_prompt : option string;
  env_user_input : option string
}.

(** The fields of the event payload the handlers read. *)
Record EventData := mkEventData {
  cwd : option string;
  promptSources : option PromptSources;
  possiblePrompt : option string
}.

(** What the world outside the manager answers during one call:
    [process.cwd()], the clock read by the handler ([now]) and the one read
    inside [createCheckpoint] ([checkpoint_now]), both as
    [new Date().toISOString()], the suffix
    [`${Date.now()}_${Math.random().toString(36).substr(2, 9)}`] of a fresh
    id ([stamp]), and the two functions of [FileUtils] the manager calls
    (their text follows [parseArgs] in [src/utils/args.ts]; the manager is
    verified for whatever they answer): the scan, which yields the files of
    a project or raises ([None]), and the size formatter. *)
Record Env := mkEnv {
  process_cwd : string;
  now : string;
  checkpoint_now : string;
  stamp : string;
  getProjectFiles : string -> option (list FileInfo.t);
  formatFileSize : N -> string
}.

(** [basename(projectPath)]: the last component. *)
Definition basename (p : string) : string :=
  List.last (List.filter (fun seg => negb (String.eqb seg "")) (JS.split "/"%char p))
            EmptyString.

(** [data.cwd || process.cwd()] *)
Definition projectPath_of (env : Env) (data : EventData) : string :=
  JS.opt_or_else (cwd data) (process_cwd env).

(** [a && a.length > n] *)
Definition longer_than (n : nat) (a : option string) : bool :=
  match a with
  | Some s => JS.truthy s && (n <? String.length s)
  | None => false
  end.

(** The prompt text [handleUserPromptSubmit] extracts, by priority. *)
Definition extract_promptText (data : EventData) : string :=
  let source (field : PromptSources -> option string) : option string :=
    match promptSources data with Some ps => field ps | None => None end in
  let promptText := "User prompt submitted" in
  if longer_than 0 (source actual_prompt)
  then JS.interpolate (source actual_prompt)
  else if longer_than 10 (possiblePrompt data)
          && negb (String.eqb (JS.interpolate (possiblePrompt data)) "User prompt submitted")
          && negb (String.eqb (JS.interpolate (possiblePrompt data)) "UserPromptSubmit")
  then JS.substring0 300 (JS.interpolate (possiblePrompt data))
  else if longer_than 10 (source env_claude_prompt)
  then JS.substring0 300 (JS.interpolate (source env_claude_prompt))
  else if longer_than 10 (source env_user_input)
  then JS.substring0 300 (JS.interpolate (source env_user_input))
  else promptText.

(* ===================================================================== *)
(** ** Sessions *)
(* ===================================================================== *)

Definition is_active_for (projectPath : string) (s : Session.t) : bool :=
  String.eqb (Session.projectPath s) projectPath
  && match Session.sessionEndTime s with None => true | Some _ => false end.

(** [ORDER BY sessionStartTime DESC LIMIT 1]: the row with the greatest start
    time, the earliest such row when several share it. *)
Definition latest_started (rows : list Session.t) : option Session.t :=
  fold_left (fun best s =>
               match best with
               | None => Some s
               | Some b =>
                   if String.ltb (Session.sessionStartTime b) (Session.sessionStartTime s)
                   then Some s else Some b
               end) rows None.

(** [SELECT * FROM sessions WHERE projectPath = ? AND sessionEndTime IS NULL
     ORDER BY sessionStartTime DESC LIMIT 1] *)
Definition select_active_session (projectPath : string) (d : Database)
  : option Session.t :=
  latest_started (List.filter (is_active_for projectPath) (sessions d)).

Definition getActiveSession (projectPath : string) : M (option Session.t) :=
  let* session := query (select_active_session projectPath) in
  match session with
  | Some s => set_currentSession (Some s) ;;; ret (Some s)
  | None => ret None
  end.

Definition handleUserPromptSubmit (env : Env) (data : EventData) : M Session.t :=
  let projectPath := projectPath_of env data in
  let projectName := basename projectPath in
  let now := now env in
  let promptText := extract_promptText data in
  let* session := getActiveSession projectPath in
  match session with
  | None =>
      let sessionId := "session_" +:+ stamp env in
      run (insert_session sessionId projectPath projectName now promptText) ;;;
      let session :=
        {| Session.id := sessionId;
           Session.projectPath := projectPath;
           Session.projectName := projectName;
           Session.totalCheckpoints := 0;
           Session.totalFileChanges := 0;
           Session.sessionStartTime := now;
           Session.sessionEndTime := None;
           Session.lastPrompt := Some promptText;
           Session.lastPromptTime := Some now;
           Session.createdAt := now;
           Session.updatedAt := now |} in
      set_currentSession (Some session) ;;;
      ret session
  | Some session =>
      run (update_sessions_where_id (set_prompt promptText now) (Session.id session)) ;;;
      let session :=
        {| Session.id := Session.id session;
           Session.projectPath := Session.projectPath session;
           Session.projectName := Session.projectName session;
           Session.totalCheckpoints := Session.totalCheckpoints session;
           Session.totalFileChanges := Session.totalFileChanges session;
           Session.sessionStartTime := Session.sessionStartTime session;
           Session.sessionEndTime := Session.sessionEndTime session;
           Session.lastPrompt := Some promptText;
           Session.lastPromptTime := Some now;
           Session.createdAt := Session.createdAt session;
           Session.updatedAt := Session.updatedAt session |} in
      set_currentSession (Some session) ;;;
      ret session
  end.

(* ===================================================================== *)
(** ** Checkpoint creation and the Stop event *)
(* ===================================================================== *)

(** The object [createCheckpoint] returns. *)
Record CheckpointInfo := mkCheckpointInfo {
  ci_id : string;
  ci_sessionId : string;
  ci_projectPath : string;
  ci_projectName : string;
  ci_message : string;
  ci_fileCount : nat;
  ci_totalSize : N;
  ci_userPrompt : option string;
  ci_timestamp : string
}.

Definition generateCheckpointMessage (env : Env) (session : Session.t)
    (fileCount : nat) (totalSize : N) : string :=
  let size := formatFileSize env totalSize in
  let suffix := " (" +:+ JS.toString fileCount +:+ " files, " +:+ size +:+ ")" in
  match Session.lastPrompt session with
  | Some lastPrompt =>
      if JS.truthy lastPrompt && negb (String.eqb lastPrompt "User prompt submitted")
      then lastPrompt +:+ suffix
      else "User prompt submitted" +:+ suffix
  | None => "User prompt submitted" +:+ suffix
  end.

(** [await FileUtils.getProjectFiles(projectPath, true)] *)
Definition scan (env : Env) (projectPath : string) : M (list FileInfo.t) :=
  match getProjectFiles env projectPath with
  | Some files => ret files
  | None => throw (JsError "getProjectFiles")
  end.

Definition createCheckpoint (env : Env) (session : Session.t)
  : M (option CheckpointInfo) :=
  try_catch
    (let projectPath := Session.projectPath session in
     let* files := scan env projectPath in
     if length files =? 0 then ret None
     else
       let totalSize := fold_left (fun sum file => (sum + FileInfo.size file)%N) files 0%N in
       let message := generateCheckpointMessage env session (length files) totalSize in
       let checkpointId := "checkpoint_" +:+ stamp env in
       let now := checkpoint_now env in
       let prompt := JS.opt_or_else (Session.lastPrompt session) "User prompt submitted" in
       run (insert_checkpoint
              {| Checkpoint.id := checkpointId;
                 Checkpoint.sessionId := Session.id session;
                 Checkpoint.projectPath := Session.projectPath session;
                 Checkpoint.projectName := Session.projectName session;
                 Checkpoint.prompt := prompt;
                 Checkpoint.message := message;
                 Checkpoint.fileCount := N.of_nat (length files);
                 Checkpoint.totalSize := totalSize;
                 Checkpoint.userPrompt := Some prompt;
                 Checkpoint.timestamp := now;
                 Checkpoint.metadata := "{}";
                 Checkpoint.createdAt := now |}) ;;;
       for_of files (fun file => run (insert_file_snapshot checkpointId file 0)) ;;;
       run (update_sessions_where_id (set_stats (N.of_nat (length files)) now)
                                     (Session.id session)) ;;;
       ret (Some {| ci_id := checkpointId;
                    ci_sessionId := Session.id session;
                    ci_projectPath := Session.projectPath session;
                    ci_projectName := Session.projectName session;
                    ci_message := message;
                    ci_fileCount := length files;
                    ci_totalSize := totalSize;
                    ci_userPrompt := Session.lastPrompt session;
                    ci_timestamp := now |}))
    (fun error => ret None).

Definition handleStop (env : Env) (data : EventData) : M (option CheckpointInfo) :=
  (let* cached := get_currentSession in
   match cached with
   | None =>
       let projectPath := projectPath_of env data in
       let* session := getActiveSession projectPath in
       match session with
       | Some s => set_currentSession (Some s)
       | None => ret tt
       end
   | Some _ => ret tt
   end) ;;;
  let* current := get_currentSession in
  match current with
  | None => ret None
  | Some currentSession =>
      let* checkpoint := createCheckpoint env currentSession in
      let now := now env in
      run (update_sessions_where_id (set_end now) (Session.id currentSession)) ;;;
      set_currentSession None ;;;
      ret checkpoint
  end.

Inductive Event :=
| UserPromptSubmit (data : EventData)
| Stop (data : EventData)
| Notification (data : EventData)
| OtherEvent (eventType : string).

Inductive EventResult :=
| SessionResult (session : Session.t)
| CheckpointResult (checkpoint : option CheckpointInfo)
| NoResult.

Definition handleNotification (data : EventData) : M unit := ret tt.

Definition handleClaudeEvent (env : Env) (ev : Event) : M EventResult :=
  match ev with
  | UserPromptSubmit data =>
      let* session := handleUserPromptSubmit env data in ret (SessionResult session)
  | Stop data =>
      let* checkpoint := handleStop env data in ret (CheckpointResult checkpoint)
  | Notification data => handleNotification data ;;; ret NoResult
  | OtherEvent _ => ret NoResult
  end.

(** The manager as the server constructs it: an initialised database, no
    cached session. *)
Definition new_CheckpointManager (fs : FS) (schedule : list bool) : World :=
  {| db := initializeDatabase; currentSession := None; files := fs;
     io_errors := schedule |}.

(** The server handles the events one after the other; an event whose
    handler raises is answered with an error and the server goes on. *)
Definition after_events (evs : list (Env * Event)) (w : World) : World :=
  fold_left (fun w ev => snd (handleClaudeEvent (fst ev) (snd ev) w)) evs w.

(* ===================================================================== *)
(** ** Queries on checkpoints, deletion *)
(* ===================================================================== *)

(** Insertion sort for [ORDER BY relativePath ASC]. *)
Fixpoint insert_by_relativePath (f : FileSnapshot.t) (l : list FileSnapshot.t)
  : list FileSnapshot.t :=
  match l with
  | [] => [f]
  | g :: l' =>
      if String.ltb (FileSnapshot.relativePath f) (FileSnapshot.relativePath g)
      then f :: l
      else g :: insert_by_relativePath f l'
  end.

Definition order_by_relativePath (l : list FileSnapshot.t) : list FileSnapshot.t :=
  fold_left (fun sorted f => insert_by_relativePath f sorted) l [].

(** [SELECT * FROM checkpoints WHERE id = ?] *)
Definition select_checkpoint (checkpointId : string) (d : Database)
  : option Checkpoint.t :=
  List.find (fun c => String.eqb (Checkpoint.id c) checkpointId) (checkpoints d).

(** [SELECT * FROM file_snapshots WHERE checkpointId = ?] *)
Definition select_snapshots (checkpointId : string) (d : Database)
  : list FileSnapshot.t :=
  List.filter (fun f => String.eqb (FileSnapshot.checkpointId f) checkpointId)
              (file_snapshots d).

(** [... WHERE checkpointId = ? AND isDirectory = 0] *)
Definition select_files (checkpointId : string) (d : Database)
  : list FileSnapshot.t :=
  List.filter (fun f => String.eqb (FileSnapshot.checkpointId f) checkpointId
                        && (FileSnapshot.isDirectory f =? 0)%N)
              (file_snapshots d).

Definition getCheckpointById (checkpointId : string)
  : M (option (Checkpoint.t * list FileSnapshot.t)) :=
  let* checkpoint := query (select_checkpoint checkpointId) in
  match checkpoint with
  | None => ret None
  | Some c =>
      let* files := query (fun d => order_by_relativePath (select_snapshots checkpointId d)) in
      ret (Some (c, files))
  end.

Definition deleteCheckpoint (checkpointId : string) : M unit :=
  run (delete_checkpoint_where_id checkpointId).

(* ===================================================================== *)
(** ** Restore *)
(* ===================================================================== *)

(** [{ id, message: checkpoint.message || checkpoint.prompt, timestamp }] *)
Record CheckpointRef := mkCheckpointRef {
  ref_id : string;
  ref_message : string;
  ref_timestamp : string
}.

Definition checkpoint_ref (c : Checkpoint.t) : CheckpointRef :=
  {| ref_id := Checkpoint.id c;
     ref_message := JS.or_else (Checkpoint.message c) (Checkpoint.prompt c);
     ref_timestamp := Checkpoint.timestamp c |}.

Record RestoreResult := mkRestoreResult {
  filesRestored : nat;
  totalFiles : nat;
  errors : list string;
  restored_checkpoint : CheckpointRef
}.

(** The body of the restore loop; the local variables are [filesRestored]
    and [errors]. *)
Definition restore_file (locals : nat * list string) (file : FileSnapshot.t)
  : M (nat * list string) :=
  let '(filesRestored, errors) := locals in
  try_catch
    (let path := resolve (FileSnapshot.filePath file) in
     let dir := dirname path in
     fs_call (mkdir_recursive dir) ;;;
     match FileSnapshot.content file with
     | Some content =>
         fs_call (writeFile path content) ;;;
         ret (S filesRestored, errors)
     | None => ret (filesRestored, errors)
     end)
    (fun error =>
       ret (filesRestored,
            errors ++ [FileSnapshot.filePath file +:+ ": " +:+ Error_toString error])).

Definition restoreCheckpoint (checkpointId : string) : M RestoreResult :=
  let* checkpoint := getCheckpointById checkpointId in
  match checkpoint with
  | None => throw (JsError "Checkpoint not found")
  | Some (c, _) =>
      let* files := query (select_files checkpointId) in
      let* locals := for_of_with files restore_file (0, []) in
      ret {| filesRestored := fst locals;
             totalFiles := length files;
             errors := snd locals;
             restored_checkpoint := checkpoint_ref c |}
  end.

(* ===================================================================== *)
(** ** Diff of two checkpoints *)
(* ===================================================================== *)

(** A JavaScript [Map] with string keys: the entries in insertion order. *)
Definition JSMap (V : Type) : Type := list (string * V).

(** [map.set(k, v)]: an existing key keeps its place and takes the new
    value, a new key goes last. *)
Fixpoint Map_set {V} (k : string) (v : V) (m : JSMap V) : JSMap V :=
  match m with
  | [] => [(k, v)]
  | (k', v') :: m' =>
      if String.eqb k' k then (k', v) :: m' else (k', v') :: Map_set k v m'
  end.

(** [new Map(entries)] *)
Definition Map_new {V} (entries : list (string * V)) : JSMap V :=
  fold_left (fun m kv => Map_set (fst kv) (snd kv) m) entries [].

(** [map.get(k)] *)
Fixpoint Map_get {V} (k : string) (m : JSMap V) : option V :=
  match m with
  | [] => None
  | (k', v) :: m' => if String.eqb k' k then Some v else Map_get k m'
  end.

(** [map.keys()] *)
Definition Map_keys {V} (m : JSMap V) : list string := map fst m.

(** [set.add(k)] on a [Set] kept as its elements in insertion order. *)
Fixpoint Set_add (k : string) (s : list string) : list string :=
  match s with
  | [] => [k]
  | k' :: s' => if String.eqb k' k then s else k' :: Set_add k s'
  end.

(** [new Set(elements)] *)
Definition Set_new (elements : list string) : list string :=
  fold_left (fun s k => Set_add k s) elements [].

Inductive ChangeType := added | modified | deleted.

Record Change := mkChange {
  type : ChangeType;
  file : string;
  diff : option string;
  sizeBefore : option N;
  sizeAfter : option N
}.

Record Summary := mkSummary {
  sum_added : nat;
  sum_modified : nat;
  sum_deleted : nat
}.

Record DiffResult := mkDiffResult {
  current : CheckpointRef;
  previous : CheckpointRef;
  changes : list Change;
  summary : Summary
}.

Definition ChangeType_eqb (a b : ChangeType) : bool :=
  match a, b with
  | added, added | modified, modified | deleted, deleted => true
  | _, _ => false
  end.

(** [a !== b] on nullable strings. *)
Definition content_differs (a b : option string) : bool :=
  match a, b with
  | Some x, Some y => negb (String.eqb x y)
  | None, None => false
  | _, _ => true
  end.

(** The body of the loop over [allPaths]; [changes.push] appends. *)
Definition diff_path (currentFileMap previousFileMap : JSMap FileSnapshot.t)
    (changes : list Change) (path : string) : list Change :=
  let currentFile := Map_get path currentFileMap in
  let previousFile := Map_get path previousFileMap in
  match currentFile, previousFile with
  | Some currentFile, None =>
      changes ++ [{| type := added;
                     file := JS.or_else (FileSnapshot.relativePath currentFile) path;
                     diff := None;
                     sizeBefore := None;
                     sizeAfter := Some (FileSnapshot.size currentFile) |}]
  | None, Some previousFile =>
      changes ++ [{| type := deleted;
                     file := JS.or_else (FileSnapshot.relativePath previousFile) path;
                     diff := None;
                     sizeBefore := Some (FileSnapshot.size previousFile);
                     sizeAfter := None |}]
  | Some currentFile, Some previousFile =>
      if content_differs (FileSnapshot.content currentFile)
                         (FileSnapshot.content previousFile)
      then
        let diff := generateSimpleDiff
                      (JS.opt_or_else (FileSnapshot.content previousFile) "")
                      (JS.opt_or_else (FileSnapshot.content currentFile) "") in
        changes ++ [{| type := modified;
                       file := JS.or_else (FileSnapshot.relativePath currentFile) path;
                       diff := Some diff;
                       sizeBefore := Some (FileSnapshot.size previousFile);
                       sizeAfter := Some (FileSnapshot.size currentFile) |}]
      else changes
  | None, None => changes
  end.

Definition count_type (t : ChangeType) (changes : list Change) : nat :=
  length (List.filter (fun c => ChangeType_eqb (type c) t) changes).

Definition diffCheckpoints (currentId previousId : string) : M DiffResult :=
  let* current := getCheckpointById currentId in
  let* previous := getCheckpointById previousId in
  match current, previous with
  | Some (current, _), Some (previous, _) =>
      let* currentFiles := query (select_files currentId) in
      let* previousFiles := query (select_files previousId) in
      let currentFileMap :=
        Map_new (map (fun f => (FileSnapshot.filePath f, f)) currentFiles) in
      let previousFileMap :=
        Map_new (map (fun f => (FileSnapshot.filePath f, f)) previousFiles) in
      let allPaths := Set_new (Map_keys currentFileMap ++ Map_keys previousFileMap) in
      let changes := fold_left (diff_path currentFileMap previousFileMap) allPaths [] in
      ret {| current := checkpoint_ref current;
             previous := checkpoint_ref previous;
             changes := changes;
             summary := {| sum_added := count_type added changes;
                           sum_modified := count_type modified changes;
                           sum_deleted := count_type deleted changes |} |}
  | _, _ => throw (JsError "One or both checkpoints not found")
  end.

(* ===================================================================== *)
(** ** Properties of stores and results *)
(* ===================================================================== *)

(** The active sessions of a project. *)
Definition active_sessions (projectPath : string) (d : Database) : list Session.t :=
  List.filter (is_active_for projectPath) (sessions d).

(** At most one session of each project has no end time. *)
Definition at_most_one_active (d : Database) : Prop :=
  forall projectPath, length (active_sessions projectPath d) <= 1.

(** Every snapshot row belongs to a checkpoint row, as the foreign key of
    [file_snapshots] requires. *)
Definition referential_integrity (d : Database) : Prop :=
  forall f, In f (file_snapshots d) ->
            has_checkpoint (FileSnapshot.checkpointId f) d = true.

(** The rows [createCheckpoint] inserts for the scanned files, the first one
    taking rowid [S seq]. *)
Fixpoint snapshot_rows (checkpointId : string) (files : list FileInfo.t) (seq : nat)
  : list FileSnapshot.t :=
  match files with
  | [] => []
  | file :: files' =>
      {| FileSnapshot.id := S seq;
         FileSnapshot.checkpointId := checkpointId;
         FileSnapshot.filePath := FileInfo.absolutePath file;
         FileSnapshot.relativePath := FileInfo.relativePath file;
         FileSnapshot.content := Some (FileInfo.content file);
         FileSnapshot.size := FileInfo.size file;
         FileSnapshot.modifiedTime := FileInfo.lastModified file;
         FileSnapshot.extension := FileInfo.extension file;
         FileSnapshot.isDirectory := 0 |} :: snapshot_rows checkpointId files' (S seq)
  end.

(** No scheduled storage error among the next [n] write statements. *)
Definition no_io_error (n : nat) (w : World) : Prop :=
  existsb id (firstn n (io_errors w)) = false.

(** All-or-nothing creation: whatever [createCheckpoint] does, a checkpoint
    row that it made visible has one snapshot row per scanned file. *)
Definition creation_is_atomic : Prop :=
  forall (env : Env) (session : Session.t) (w : World) (scanned : list FileInfo.t),
    getProjectFiles env (Session.projectPath session) = Some scanned ->
    let w' := snd (createCheckpoint env session w) in
    forall c, In c (checkpoints (db w')) -> ~ In c (checkpoints (db w)) ->
              length (select_snapshots (Checkpoint.id c) (db w')) = length scanned.

(** The last row of [rows] recorded for [path]. *)
Fixpoint last_with_path (path : string) (rows : list FileSnapshot.t)
  : option FileSnapshot.t :=
  match rows with
  | [] => None
  | f :: rows' =>
      match last_with_path path rows' with
      | Some g => Some g
      | None => if String.eqb (FileSnapshot.filePath f) path then Some f else None
      end
  end.

(** The classification of one path between the files of the current and of
    the previous checkpoint, as the specification words it. *)
Definition classify (currentFiles previousFiles : list FileSnapshot.t) (path : string)
  : option Change :=
  match last_with_path path currentFiles, last_with_path path previousFiles with
  | Some c, None =>
      Some {| type := added;
              file := JS.or_else (FileSnapshot.relativePath c) path;
              diff := None; sizeBefore := None;
              sizeAfter := Some (FileSnapshot.size c) |}
  | None, Some p =>
      Some {| type := deleted;
              file := JS.or_else (FileSnapshot.relativePath p) path;
              diff := None; sizeBefore := Some (FileSnapshot.size p);
              sizeAfter := None |}
  | Some c, Some p =>
      if decide (FileSnapshot.content c = FileSnapshot.content p) then None
      else
        Some {| type := modified;
                file := JS.or_else (FileSnapshot.relativePath c) path;
                diff := Some (generateSimpleDiff
                                (JS.opt_or_else (FileSnapshot.content p) "")
                                (JS.opt_or_else (FileSnapshot.content c) ""));
                sizeBefore := Some (FileSnapshot.size p);
                sizeAfter := Some (FileSnapshot.size c) |}
  | None, None => None
  end.

(** The lines the specification announces for a modified file: the header,
    then the walk. *)
Definition announced_lines (oldContent newContent : string) : list string :=
  let oldLines := JS.split JS.LF oldContent in
  let newLines := JS.split JS.LF newContent in
  ("@@ -1," +:+ JS.toString (length oldLines) +:+ " +1,"
     +:+ JS.toString (length newLines) +:+ " @@")
    :: map (fun d => match d with
                     | Added l => "+" +:+ l
                     | Removed l => "-" +:+ l
                     | Context l => " " +:+ l
                     end)
           (positional_walk oldLines newLines).

(** The kind of what a path names, its content left aside. *)
Inductive kind := Absent | IsFile | IsDir.

Definition kind_of (o : option node) : kind :=
  match o with
  | None => Absent
  | Some (File _) => IsFile
  | Some Dir => IsDir
  end.


(* ===================================================================== *)
(** ** The scenario of the specification *)
(* ===================================================================== *)

(** A project [/p]: checkpoint A is taken when [x.txt] holds ["hello\n"],
    checkpoint B later, when [x.txt] holds ["hello world\n"] and [y.txt]
    holds ["new\n"]. Both are created by the manager itself, from a
    [UserPromptSubmit] and a [Stop] event each. *)
Module Scenario.

Definition x_txt (content : string) (size : N) : FileInfo.t :=
  {| FileInfo.absolutePath := "/p/x.txt"; FileInfo.relativePath := "x.txt";
     FileInfo.content := content; FileInfo.size := size;
     FileInfo.lastModified := "2024-05-01T10:00:00.000Z";
     FileInfo.extension := ".txt" |}.

Definition y_txt : FileInfo.t :=
  {| FileInfo.absolutePath := "/p/y.txt"; FileInfo.relativePath := "y.txt";
     FileInfo.content := "new" +:+ JS.nl; FileInfo.size := 4;
     FileInfo.lastModified := "2024-05-01T11:00:00.000Z";
     FileInfo.extension := ".txt" |}.

Definition bytes (n : N) : string := JS.toString (N.to_nat n) +:+ " B".

Definition env (time tag : string) (project : list FileInfo.t) : Env :=
  {| process_cwd := "/srv";
     now := time;
     checkpoint_now := time;
     stamp := tag;
     getProjectFiles := fun path => if String.eqb path "/p" then Some project else Some [];
     formatFileSize := bytes |}.

Definition data : EventData :=
  {| cwd := Some "/p"; promptSources := None; possiblePrompt := None |}.

Definition files_A : list FileInfo.t := [x_txt ("hello" +:+ JS.nl) 6].
Definition files_B : list FileInfo.t := [x_txt ("hello world" +:+ JS.nl) 12; y_txt].

Definition world : World :=
  after_events
    [ (env "2024-05-01T10:00:00.000Z" "1000_a" files_A, UserPromptSubmit data);
      (env "2024-05-01T10:05:00.000Z" "1001_a" files_A, Stop data);
      (env "2024-05-01T11:00:00.000Z" "2000_b" files_B, UserPromptSubmit data);
      (env "2024-05-01T11:05:00.000Z" "2001_b" files_B, Stop data) ]
    (new_CheckpointManager ∅ []).

Definition A : string := "checkpoint_1001_a".
Definition B : string := "checkpoint_2001_b".

End Scenario.

(* ===================================================================== *)
(** ** Worlds used in the statements *)
(* ===================================================================== *)

(** The world [w] with another file system. *)
Definition with_files (w : World) (fs : FS) : World :=
  {| db := db w; currentSession := currentSession w; files := fs;
     io_errors := io_errors w |}.


(** A store holding one closed session and its checkpoint, whose only
    snapshot row has a NULL [content] (the column is nullable). *)
Definition null_content_world : World :=
  {| db := {| sessions :=
                [ {| Session.id := "session_1"; Session.projectPath := "/p";
                     Session.projectName := "p"; Session.totalCheckpoints := 0;
                     Session.totalFileChanges := 1;
                     Session.sessionStartTime := "2024-05-01T10:00:00.000Z";
                     Session.sessionEndTime := Some "2024-05-01T10:05:00.000Z";
                     Session.lastPrompt := Some "User prompt submitted";
                     Session.lastPromptTime := Some "2024-05-01T10:00:00.000Z";
                     Session.createdAt := "2024-05-01T10:00:00.000Z";
                     Session.updatedAt := "2024-05-01T10:05:00.000Z" |} ];
              checkpoints :=
                [ {| Checkpoint.id := "checkpoint_1"; Checkpoint.sessionId := "session_1";
                     Checkpoint.projectPath := "/p"; Checkpoint.projectName := "p";
                     Checkpoint.prompt := "User prompt submitted";
                     Checkpoint.message := "User prompt submitted (1 files, 0 B)";
                     Checkpoint.fileCount := 1; Checkpoint.totalSize := 0;
                     Checkpoint.userPrompt := None;
                     Checkpoint.timestamp := "2024-05-01T10:05:00.000Z";
                     Checkpoint.metadata := "{}";
                     Checkpoint.createdAt := "2024-05-01T10:05:00.000Z" |} ];
              file_snapshots :=
                [ {| FileSnapshot.id := 1; FileSnapshot.checkpointId := "checkpoint_1";
                     FileSnapshot.filePath := "/p/sub/empty.txt";
                     FileSnapshot.relativePath := "sub/empty.txt";
                     FileSnapshot.content := None; FileSnapshot.size := 0;
                     FileSnapshot.modifiedTime := "2024-05-01T10:00:00.000Z";
                     FileSnapshot.extension := ".txt";
                     FileSnapshot.isDirectory := 0 |} ];
              file_snapshots_seq := 1 |};
     currentSession := None;
     files := ∅;
     io_errors := [] |}.


(** What one turn of the restore loop does to the file system. *)
Definition restore_effect (file : FileSnapshot.t) (fs : FS) : FS :=
  let path := resolve (FileSnapshot.filePath file) in
  match mkdir_recursive (dirname path) fs with
  | inr _ => fs
  | inl fs1 =>
      match FileSnapshot.content file with
      | None => fs1
      | Some content =>
          match writeFile path content fs1 with
          | inl fs2 => fs2
          | inr _ => fs1
          end
      end
  end.

(** What the whole loop does to it. *)
Definition restore_all (rows : list FileSnapshot.t) (fs : FS) : FS :=
  fold_left (fun fs file => restore_effect file fs) rows fs.

(** Two file systems with the same directories and the same files, whatever
    the files hold. *)
Definition same_shape (a b : FS) : Prop :=
  forall q, kind_of (a !! q) = kind_of (b !! q).

(** The session a [Stop] event closes: the cached one if there is one,
    otherwise the active session of the event's project. *)
Definition session_to_stop (env : Env) (data : EventData) (w : World)
  : option Session.t :=
  match currentSession w with
  | Some s => Some s
  | None => select_active_session (projectPath_of env data) (db w)
  end.

(** The world after a statement went through, and after one was refused. *)
Definition advance (w : World) (d' : Database) : World :=
  {| db := d'; currentSession := currentSession w; files := files w;
     io_errors := tail (io_errors w) |}.

Definition with_session (w : World) (s : option Session.t) : World :=
  {| db := db w; currentSession := s; files := files w; io_errors := io_errors w |}.

(** Two projects on one server: a prompt is submitted in [/p], then a [Stop]
    event arrives from [/q], where no session was ever opened. *)
Module CrossProject.

Definition started : World :=
  after_events
    [ (Scenario.env "2024-05-01T10:00:00.000Z" "1000_a" Scenario.files_A,
       UserPromptSubmit Scenario.data) ]
    (new_CheckpointManager ∅ []).

Definition stop_env : Env :=
  Scenario.env "2024-05-01T10:05:00.000Z" "1001_a" Scenario.files_A.

Definition stop_data : EventData :=
  {| cwd := Some "/q"; promptSources := None; possiblePrompt := None |}.

End CrossProject.

(** A storage failure in the middle of a checkpoint: the session of [/p] is
    open, the scan finds two files, and the third write statement of
    [createCheckpoint] (the second snapshot) fails. *)
Module Interrupted.

Definition session : Session.t :=
  {| Session.id := "session_1000_a";
     Session.projectPath := "/p";
     Session.projectName := "p";
     Session.totalCheckpoints := 0;
     Session.totalFileChanges := 0;
     Session.sessionStartTime := "2024-05-01T10:00:00.000Z";
     Session.sessionEndTime := None;
     Session.lastPrompt := Some "User prompt submitted";
     Session.lastPromptTime := Some "2024-05-01T10:00:00.000Z";
     Session.createdAt := "2024-05-01T10:00:00.000Z";
     Session.updatedAt := "2024-05-01T10:00:00.000Z" |}.

Definition env : Env :=
  Scenario.env "2024-05-01T10:05:00.000Z" "1001_a" Scenario.files_B.

Definition before (schedule : list bool) : World :=
  {| db := db CrossProject.started; currentSession := Some session; files := ∅;
     io_errors := schedule |}.

End Interrupted.

(** The row [createCheckpoint] inserts into [checkpoints], and the object it
    returns, for a session and the files of its scan. *)
Definition checkpoint_row (env : Env) (session : Session.t) (scanned : list FileInfo.t)
  : Checkpoint.t :=
  let totalSize := fold_left (fun sum file => (sum + FileInfo.size file)%N) scanned 0%N in
  let prompt := JS.opt_or_else (Session.lastPrompt session) "User prompt submitted" in
  {| Checkpoint.id := "checkpoint_" +:+ stamp env;
     Checkpoint.sessionId := Session.id session;
     Checkpoint.projectPath := Session.projectPath session;
     Checkpoint.projectName := Session.projectName session;
     Checkpoint.prompt := prompt;
     Checkpoint.message := generateCheckpointMessage env session (length scanned) totalSize;
     Checkpoint.fileCount := N.of_nat (length scanned);
     Checkpoint.totalSize := totalSize;
     Checkpoint.userPrompt := Some prompt;
     Checkpoint.timestamp := checkpoint_now env;
     Checkpoint.metadata := "{}";
     Checkpoint.createdAt := checkpoint_now env |}.

Definition checkpoint_info (env : Env) (session : Session.t) (scanned : list FileInfo.t)
  : CheckpointInfo :=
  let totalSize := fold_left (fun sum file => (sum + FileInfo.size file)%N) scanned 0%N in
  {| ci_id := "checkpoint_" +:+ stamp env;
     ci_sessionId := Session.id session;
     ci_projectPath := Session.projectPath session;
     ci_projectName := Session.projectName session;
     ci_message := generateCheckpointMessage env session (length scanned) totalSize;
     ci_fileCount := length scanned;
     ci_totalSize := totalSize;
     ci_userPrompt := Session.lastPrompt session;
     ci_timestamp := checkpoint_now env |}.

(** The database with the snapshot rows of [scanned] added. *)
Definition add_snapshots (d : Database) (checkpointId : string)
    (scanned : list FileInfo.t) : Database :=
  {| sessions := sessions d; checkpoints := checkpoints d;
     file_snapshots := file_snapshots d
                       ++ snapshot_rows checkpointId scanned (file_snapshots_seq d);
     file_snapshots_seq := file_snapshots_seq d + length scanned |}.

(** The database with one more checkpoint row. *)
Definition add_checkpoint (d : Database) (row : Checkpoint.t) : Database :=
  {| sessions := sessions d; checkpoints := checkpoints d ++ [row];
     file_snapshots := file_snapshots d;
     file_snapshots_seq := file_snapshots_seq d |}.

(** The database after a complete [createCheckpoint]. *)
Definition checkpointed (env : Env) (session : Session.t) (scanned : list FileInfo.t)
    (d : Database) : Database :=
  let d1 := add_checkpoint d (checkpoint_row env session scanned) in
  let d2 := add_snapshots d1 ("checkpoint_" +:+ stamp env) scanned in
  {| sessions := map (fun s => if String.eqb (Session.id s) (Session.id session)
                               then set_stats (N.of_nat (length scanned))
                                              (checkpoint_now env) s
                               else s) (sessions d2);
     checkpoints := checkpoints d2;
     file_snapshots := file_snapshots d2;
     file_snapshots_seq := file_snapshots_seq d2 |}.

(** What [createCheckpoint] needs to go through: a fresh checkpoint id, the
    session row in the table, and no storage error scheduled for its
    [length scanned + 2] write statements. *)
Definition can_checkpoint (env : Env) (session : Session.t) (scanned : list FileInfo.t)
    (w : World) : bool :=
  negb (has_checkpoint ("checkpoint_" +:+ stamp env) (db w))
  && has_session (Session.id session) (db w)
  && negb (existsb id (firstn (length scanned + 2) (io_errors w))).

(* ===================================================================== *)
(** ** Triples for handlers *)
(* ===================================================================== *)

Section Triples.

(** What must hold of the state whenever a computation raises. *)
Variable Raised : World -> Prop.

(** From a state satisfying [P], the computation either returns [a] in a
    state satisfying [Q a], or raises in a state satisfying [Raised]. *)
Definition triple {A} (P : World -> Prop) (m : M A) (Q : A -> World -> Prop) : Prop :=
  forall w, P w ->
            match m w with
            | (Return a, w') => Q a w'
            | (Throw _, w') => Raised w'
            end.

End Triples.

(** A statement that keeps a property of the database. *)
Definition stable (K : Database -> Prop) (stmt : Statement) : Prop :=
  forall d d', K d -> stmt d = inl d' -> K d'.

(** A property of the database, as a property of the manager. *)
Definition on_db (K : Database -> Prop) (w : World) : Prop := K (db w).

(** The invariant of the session table, as a property of the manager. *)
Definition Inv : World -> Prop := on_db at_most_one_active.

(** A SET clause that never turns a closed session into an active one, nor
    moves a session to another project. *)
Definition keeps_closed (set : Session.t -> Session.t) : Prop :=
  forall projectPath s,
    is_active_for projectPath (set s) = true -> is_active_for projectPath s = true.

(** The session object [handleUserPromptSubmit] returns for an active
    session: the row it read, with [lastPrompt] and [lastPromptTime]
    assigned. *)
Definition refresh_cached (promptText time : string) (s : Session.t) : Session.t :=
  {| Session.id := Session.id s;
     Session.projectPath := Session.projectPath s;
     Session.projectName := Session.projectName s;
     Session.totalCheckpoints := Session.totalCheckpoints s;
     Session.totalFileChanges := Session.totalFileChanges s;
     Session.sessionStartTime := Session.sessionStartTime s;
     Session.sessionEndTime := Session.sessionEndTime s;
     Session.lastPrompt := Some promptText;
     Session.lastPromptTime := Some time;
     Session.createdAt := Session.createdAt s;
     Session.updatedAt := Session.updatedAt s |}.

(** The table [sessions] after [UPDATE sessions SET lastPrompt = ?,
    lastPromptTime = ?, updatedAt = ? WHERE id = ?]. *)
Definition refresh_rows (promptText time i : string) (rows : list Session.t)
  : list Session.t :=
  map (fun r => if String.eqb (Session.id r) i then set_prompt promptText time r else r) rows.

(** A path recorded by one of the rows. *)
Definition present (path : string) (rows : list FileSnapshot.t) : bool :=
  existsb (fun f => String.eqb (FileSnapshot.filePath f) path) rows.

(** The summary of a list of changes, as the specification words it: every
    record adds one to the count of its type. *)
Fixpoint tally (changes : list Change) : Summary :=
  match changes with
  | [] => {| sum_added := 0; sum_modified := 0; sum_deleted := 0 |}
  | c :: rest =>
      let s := tally rest in
      match type c with
      | added =>
          {| sum_added := S (sum_added s); sum_modified := sum_modified s;
             sum_deleted := sum_deleted s |}
      | modified =>
          {| sum_added := sum_added s; sum_modified := S (sum_modified s);
             sum_deleted := sum_deleted s |}
      | deleted =>
          {| sum_added := sum_added s; sum_modified := sum_modified s;
             sum_deleted := S (sum_deleted s) |}
      end
  end.

(** A scan that fails: [FileUtils.getProjectFiles] rejects, whatever the
    project. *)
Module FailedScan.

Definition env (time tag : string) : Env :=
  {| process_cwd := "/srv";
     now := time;
     checkpoint_now := time;
     stamp := tag;
     getProjectFiles := fun _ => None;
     formatFileSize := Scenario.bytes |}.

End FailedScan.

(** The answer null tells the caller that there was nothing to checkpoint:
    when [handleStop] answers null for a session, the scan of the project of
    that session found no file. *)
Definition null_means_nothing_to_checkpoint : Prop :=
  forall (env : Env) (data : EventData) (w : World) (s : Session.t),
    session_to_stop env data w = Some s ->
    fst (handleStop env data w) = Return None ->
    getProjectFiles env (Session.projectPath s) = Some [].

(* ===================================================================== *)
(** ** Listing and bulk deletion *)
(* ===================================================================== *)

(** A write statement together with [info.changes], the number of rows the
    statement itself inserted, updated or deleted (rows removed by a
    cascading foreign key are not counted). *)
Definition CountingStatement := Database -> (Database * nat) + Error.

(** [statement.run(...)] where the caller reads [.changes]. *)
Definition run_changes (stmt : CountingStatement) : M nat := fun w =>
  let later := tail (io_errors w) in
  match io_errors w with
  | true :: _ =>
      (Throw (SqliteError "SQLITE_IOERR"),
       {| db := db w; currentSession := currentSession w; files := files w;
          io_errors := later |})
  | _ =>
      match stmt (db w) with
      | inl (d', changes) =>
          (Return changes,
           {| db := d'; currentSession := currentSession w; files := files w;
              io_errors := later |})
      | inr e =>
          (Throw e,
           {| db := db w; currentSession := currentSession w; files := files w;
              io_errors := later |})
      end
  end.

Definition of_project (projectPath : string) (s : Session.t) : bool :=
  String.eqb (Session.projectPath s) projectPath.

(** [sessionId IN (SELECT id FROM sessions WHERE projectPath = ?)] *)
Definition session_in_project (projectPath : string) (d : Database) (c : Checkpoint.t)
  : bool :=
  existsb (fun s => of_project projectPath s
                    && String.eqb (Session.id s) (Checkpoint.sessionId c))
          (sessions d).

(** The snapshots that go with the deleted checkpoint rows
    ([ON DELETE CASCADE]). *)
Definition cascaded_with (deleted : list Checkpoint.t) (f : FileSnapshot.t) : bool :=
  existsb (fun c => String.eqb (Checkpoint.id c) (FileSnapshot.checkpointId f)) deleted.

(** [DELETE FROM checkpoints
     WHERE sessionId IN (SELECT id FROM sessions WHERE projectPath = ?)] *)
Definition delete_checkpoints_of_project (projectPath : string) : CountingStatement :=
  fun d =>
  let deleted := List.filter (session_in_project projectPath d) (checkpoints d) in
  let kept := List.filter (fun c => negb (session_in_project projectPath d c))
                          (checkpoints d) in
  inl ({| sessions := sessions d; checkpoints := kept;
          file_snapshots := List.filter (fun f => negb (cascaded_with deleted f))
                                        (file_snapshots d);
          file_snapshots_seq := file_snapshots_seq d |},
       length deleted).

(** A checkpoint row that references one of the session rows [deleted]
    ([FOREIGN KEY (sessionId) REFERENCES sessions(id)], with no action on
    deletion: the DELETE is refused). *)
Definition references_one_of (deleted : list Session.t) (c : Checkpoint.t) : bool :=
  existsb (fun s => String.eqb (Session.id s) (Checkpoint.sessionId c)) deleted.

(** [DELETE FROM sessions WHERE projectPath = ?] *)
Definition delete_sessions_of_project (projectPath : string) : CountingStatement :=
  fun d =>
  let deleted := List.filter (of_project projectPath) (sessions d) in
  if existsb (references_one_of deleted) (checkpoints d)
  then inr (SqliteError "SQLITE_CONSTRAINT_FOREIGNKEY")
  else inl ({| sessions := List.filter (fun s => negb (of_project projectPath s))
                                       (sessions d);
               checkpoints := checkpoints d;
               file_snapshots := file_snapshots d;
               file_snapshots_seq := file_snapshots_seq d |},
            length deleted).

Record DeleteProjectResult := mkDeleteProjectResult {
  dp_deletedCheckpoints : nat;
  dp_deletedSessions : nat
}.

Definition deleteProjectCheckpoints (projectPath : string) : M DeleteProjectResult :=
  let* checkpointChanges := run_changes (delete_checkpoints_of_project projectPath) in
  let* sessionChanges := run_changes (delete_sessions_of_project projectPath) in
  ret {| dp_deletedCheckpoints := checkpointChanges;
         dp_deletedSessions := sessionChanges |}.

(** [DELETE FROM file_snapshots] *)
Definition delete_all_file_snapshots : CountingStatement := fun d =>
  inl ({| sessions := sessions d; checkpoints := checkpoints d;
          file_snapshots := [];
          file_snapshots_seq := file_snapshots_seq d |},
       length (file_snapshots d)).

(** [DELETE FROM checkpoints] *)
Definition delete_all_checkpoints : CountingStatement := fun d =>
  inl ({| sessions := sessions d; checkpoints := [];
          file_snapshots := List.filter (fun f => negb (cascaded_with (checkpoints d) f))
                                        (file_snapshots d);
          file_snapshots_seq := file_snapshots_seq d |},
       length (checkpoints d)).

(** [DELETE FROM sessions] *)
Definition delete_all_sessions : CountingStatement := fun d =>
  if existsb (references_one_of (sessions d)) (checkpoints d)
  then inr (SqliteError "SQLITE_CONSTRAINT_FOREIGNKEY")
  else inl ({| sessions := []; checkpoints := checkpoints d;
               file_snapshots := file_snapshots d;
               file_snapshots_seq := file_snapshots_seq d |},
            length (sessions d)).

(** [SELECT COUNT(DISTINCT projectPath) as count FROM sessions] *)
Definition count_distinct_projectPath (d : Database) : nat :=
  length (Set_new (map Session.projectPath (sessions d))).

Record ClearAllResult := mkClearAllResult {
  ca_deletedCheckpoints : nat;
  ca_deletedSessions : nat;
  ca_deletedFileSnapshots : nat;
  ca_projectCount : nat
}.

Definition clearAllCheckpoints : M ClearAllResult :=
  let* projectCount := query count_distinct_projectPath in
  let* fileSnapshotsChanges := run_changes delete_all_file_snapshots in
  let* checkpointChanges := run_changes delete_all_checkpoints in
  let* sessionChanges := run_changes delete_all_sessions in
  ret {| ca_deletedCheckpoints := checkpointChanges;
         ca_deletedSessions := sessionChanges;
         ca_deletedFileSnapshots := fileSnapshotsChanges;
         ca_projectCount := projectCount |}.

(** Insertion sort for [ORDER BY c.timestamp DESC]: a row goes after the
    rows that are not older than it. *)
Fixpoint insert_by_timestamp_desc (c : Checkpoint.t) (l : list Checkpoint.t)
  : list Checkpoint.t :=
  match l with
  | [] => [c]
  | b :: l' =>
      if String.ltb (Checkpoint.timestamp b) (Checkpoint.timestamp c)
      then c :: l
      else b :: insert_by_timestamp_desc c l'
  end.

Definition order_by_timestamp_desc (l : list Checkpoint.t) : list Checkpoint.t :=
  fold_left (fun sorted c => insert_by_timestamp_desc c sorted) l [].

(** [SELECT ... FROM checkpoints c WHERE c.projectPath = ?
     ORDER BY c.timestamp DESC] *)
Definition select_checkpoints_of (projectPath : string) (d : Database)
  : list Checkpoint.t :=
  order_by_timestamp_desc
    (List.filter (fun c => String.eqb (Checkpoint.projectPath c) projectPath)
                 (checkpoints d)).

(** [getCheckpoints]: the rows are returned as they are; an exception of the
    query is logged and thrown again. *)
Definition getCheckpoints (projectPath : string) : M (list Checkpoint.t) :=
  try_catch (query (select_checkpoints_of projectPath)) (fun error => throw error).

Definition getCurrentSession : M (option Session.t) := get_currentSession.

(** ** Operations as a whole *)

(** What a client of the manager can ask for. *)
Inductive Operation :=
| Handle (env : Env) (ev : Event)
| DeleteCheckpoint (checkpointId : string)
| DeleteProjectCheckpoints (projectPath : string)
| ClearAllCheckpoints
| RestoreCheckpoint (checkpointId : string)
| DiffCheckpoints (currentId previousId : string)
| GetCheckpoints (projectPath : string).

(** The state after an operation, whatever it answered. *)
Definition perform (op : Operation) (w : World) : World :=
  match op with
  | Handle env ev => snd (handleClaudeEvent env ev w)
  | DeleteCheckpoint i => snd (deleteCheckpoint i w)
  | DeleteProjectCheckpoints p => snd (deleteProjectCheckpoints p w)
  | ClearAllCheckpoints => snd (clearAllCheckpoints w)
  | RestoreCheckpoint i => snd (restoreCheckpoint i w)
  | DiffCheckpoints a b => snd (diffCheckpoints a b w)
  | GetCheckpoints p => snd (getCheckpoints p w)
  end.

Definition after_operations (ops : list Operation) (w : World) : World :=
  fold_left (fun w op => perform op w) ops w.

(** One write statement of the manager, under the guard the code puts in
    front of it. *)
Inductive step : Database -> Database -> Prop :=
| step_insert_session sessionId projectPath projectName time promptText d d' :
    select_active_session projectPath d = None ->
    insert_session sessionId projectPath projectName time promptText d = inl d' ->
    step d d'
| step_set_prompt promptText time i d d' :
    update_sessions_where_id (set_prompt promptText time) i d = inl d' -> step d d'
| step_set_stats n time i d d' :
    update_sessions_where_id (set_stats n time) i d = inl d' -> step d d'
| step_set_end time i d d' :
    update_sessions_where_id (set_end time) i d = inl d' -> step d d'
| step_insert_checkpoint row d d' :
    insert_checkpoint row d = inl d' -> step d d'
| step_insert_file_snapshot checkpointId file d d' :
    insert_file_snapshot checkpointId file 0 d = inl d' -> step d d'
| step_delete_checkpoint i d d' :
    delete_checkpoint_where_id i d = inl d' -> step d d'
| step_delete_checkpoints_of_project projectPath d d' n :
    delete_checkpoints_of_project projectPath d = inl (d', n) -> step d d'
| step_delete_sessions_of_project projectPath d d' n :
    delete_sessions_of_project projectPath d = inl (d', n) -> step d d'
| step_delete_all_file_snapshots d d' n :
    delete_all_file_snapshots d = inl (d', n) -> step d d'
| step_delete_all_checkpoints d d' n :
    delete_all_checkpoints d = inl (d', n) -> step d d'
| step_delete_all_sessions d d' n :
    delete_all_sessions d = inl (d', n) -> step d d'.

(** Any number of statements, one after the other. *)
Inductive reaches (d : Database) : Database -> Prop :=
| reaches_here : reaches d d
| reaches_step d1 d2 : reaches d d1 -> step d1 d2 -> reaches d d2.

(** The constraints of the schema and the invariant of the session table. *)
Record store_ok (d : Database) : Prop := mk_store_ok {
  ok_session_ids : List.NoDup (map Session.id (sessions d));
  ok_checkpoint_ids : List.NoDup (map Checkpoint.id (checkpoints d));
  ok_checkpoint_session :
    forall c, In c (checkpoints d) -> has_session (Checkpoint.sessionId c) d = true;
  ok_snapshot_checkpoint : referential_integrity d;
  ok_snapshot_ids :
    List.NoDup (map FileSnapshot.id (file_snapshots d))
    /\ forall f, In f (file_snapshots d) -> FileSnapshot.id f <= file_snapshots_seq d;
  ok_active : at_most_one_active d
}.


(** No session row counts a checkpoint. *)
Definition counts_no_checkpoint (d : Database) : Prop :=
  forall s, In s (sessions d) -> Session.totalCheckpoints s = 0%N.

(** Only the session [i] may be active in the project. *)
Definition only_active (projectPath i : string) (d : Database) : Prop :=
  forall r, In r (sessions d) -> is_active_for projectPath r = true -> Session.id r = i.

(** The four events of the scenario, as operations. *)
Definition scenario_operations : list Operation :=
  [ Handle (Scenario.env "2024-05-01T10:00:00.000Z" "1000_a" Scenario.files_A)
           (UserPromptSubmit Scenario.data);
    Handle (Scenario.env "2024-05-01T10:05:00.000Z" "1001_a" Scenario.files_A)
           (Stop Scenario.data);
    Handle (Scenario.env "2024-05-01T11:00:00.000Z" "2000_b" Scenario.files_B)
           (UserPromptSubmit Scenario.data);
    Handle (Scenario.env "2024-05-01T11:05:00.000Z" "2001_b" Scenario.files_B)
           (Stop Scenario.data) ].

(* ===================================================================== *)
(** ** More of JavaScript strings *)
(* ===================================================================== *)

Module Str.

(** [s.startsWith(prefix)] *)
Fixpoint startsWith (s prefix : string) : bool :=
  match prefix with
  | EmptyString => true
  | String p prefix' =>
      match s with
      | EmptyString => false
      | String c s' => Ascii.eqb c p && startsWith s' prefix'
      end
  end.

(** [s.slice(n)] for [0 <= n] *)
Fixpoint slice_from (n : nat) (s : string) : string :=
  match n, s with
  | 0, _ => s
  | S n', String _ s' => slice_from n' s'
  | S _, EmptyString => EmptyString
  end.

(** [s.slice(0, -1)] *)
Fixpoint slice_but_last (s : string) : string :=
  match s with
  | EmptyString => EmptyString
  | String c EmptyString => EmptyString
  | String c s' => String c (slice_but_last s')
  end.

(** [s.endsWith(c)] for a string [c] of one code unit *)
Fixpoint endsWith (s : string) (c : ascii) : bool :=
  match s with
  | EmptyString => false
  | String x EmptyString => Ascii.eqb x c
  | String _ s' => endsWith s' c
  end.

(** [s.includes(c)] for a string [c] of one code unit *)
Fixpoint includes (s : string) (c : ascii) : bool :=
  match s with
  | EmptyString => false
  | String x s' => Ascii.eqb x c || includes s' c
  end.

(** [s.split('')]: the code units of [s], one string each. *)
Fixpoint chars (s : string) : list string :=
  match s with
  | EmptyString => []
  | String c s' => String c EmptyString :: chars s'
  end.

(** Decimal rendering of a non-negative integer. *)
Definition of_N (n : N) : string := NilEmpty.string_of_uint (N.to_uint n).

End Str.

(* ===================================================================== *)
(** ** The command line ([parseArgs] of [src/utils/args.ts]) *)
(* ===================================================================== *)

Module Args.

(** A value of [options]: a string, or [true]. *)
Inductive OptionValue :=
| Text (value : string)
| Enabled.

Record ParsedArgs := mkParsedArgs {
  command : string;
  options : gmap string OptionValue;
  flags : list string
}.

(** [options[key] = v] on an object literal. The key ["__proto__"] names the
    accessor inherited from [Object.prototype]; its setter ignores a string
    or a boolean, and no own property is created. *)
Definition set_option (key : string) (v : OptionValue) (options : gmap string OptionValue)
  : gmap string OptionValue :=
  if String.eqb key "__proto__" then options else <[key := v]> options.

(** [const [key, value] = arg.slice(2).split('=')] *)
Definition key_of (arg : string) : string :=
  hd EmptyString (JS.split "=" (Str.slice_from 2 arg)).

Definition value_of (arg : string) : option string :=
  nth_error (JS.split "=" (Str.slice_from 2 arg)) 1.

(** [nextArg && !nextArg.startsWith('-')] *)
Definition is_value (nextArg : string) : bool :=
  JS.truthy nextArg && negb (Str.startsWith nextArg "-").

(** The [for] loop over [args] from index [i]: [args] here is what is left
    from [i] on, and [i++] inside the body drops one more argument. *)
Fixpoint parse_loop (args : list string) (options : gmap string OptionValue)
    (flags : list string) : gmap string OptionValue * list string :=
  match args with
  | [] => (options, flags)
  | arg :: rest =>
      if Str.startsWith arg "--" then
        let key := key_of arg in
        match value_of arg with
        | Some value => parse_loop rest (set_option key (Text value) options) flags
        | None =>
            match rest with
            | nextArg :: rest' =>
                if is_value nextArg
                then parse_loop rest' (set_option key (Text nextArg) options) flags
                else parse_loop rest (set_option key Enabled options) flags
            | [] => parse_loop rest (set_option key Enabled options) flags
            end
        end
      else if Str.startsWith arg "-" then
        parse_loop rest options (flags ++ Str.chars (Str.slice_from 1 arg))
      else parse_loop rest options flags
  end.

(** [parseArgs()], given [process.argv]. *)
Definition parseArgs (argv : list string) : ParsedArgs :=
  let args := skipn 2 argv in
  if length args =? 0
  then {| command := "show"; options := ∅; flags := [] |}
  else
    let first := match args with
                 | a0 :: _ => if is_value a0 then Some a0 else None
                 | [] => None
                 end in
    let command := match first with Some a0 => a0 | None => "show" end in
    let startIndex := match first with Some _ => 1 | None => 0 end in
    let (options, flags) := parse_loop (skipn startIndex args) ∅ [] in
    {| command := command; options := options; flags := flags |}.

(** An argument that contributes flags. *)
Definition is_flags (arg : string) : bool :=
  Str.startsWith arg "-" && negb (Str.startsWith arg "--").

End Args.

(* ===================================================================== *)
(** ** Scanning a project ([FileUtils]) *)
(* ===================================================================== *)

(** The class [FileUtils] ([utils/file-utils]); in the sources at hand its
    text follows [parseArgs] in [src/utils/args.ts]. *)
Module FileUtils.

Definition DEFAULT_IGNORE_PATTERNS : list string :=
  [ ".git/**"; "node_modules/**"; ".DS_Store"; "*.log"; "dist/**"; "build/**";
    ".next/**"; "coverage/**"; ".nyc_output/**"; ".cache/**"; "tmp/**"; "temp/**" ].

(** What the conversion of one line yields: [string | string[]]; [null] is
    [None]. *)
Inductive Converted :=
| One (pattern : string)
| Many (patterns : list string).

(** The conversion of one line of a [.gitignore] kept in the directory
    [relativePath] of the project ([""] for the root). *)
Definition convert (relativePath pattern : string) : option Converted :=
  if Str.startsWith pattern "!" then None
  else
    let convertedPatterns :=
      if Str.endsWith pattern "/" then One (Str.slice_but_last pattern +:+ "/**")
      else if Str.includes pattern "/"
      then One (if Str.startsWith pattern "/" then Str.slice_from 1 pattern else pattern)
      else Many ["**/" +:+ pattern; "**/" +:+ pattern +:+ "/**"] in
    if negb (String.eqb relativePath "")
    then match convertedPatterns with
         | Many ps => Some (Many (map (fun p => relativePath +:+ "/" +:+ p) ps))
         | One p => Some (One (relativePath +:+ "/" +:+ p))
         end
    else Some convertedPatterns.

(** [Boolean(x)] for [x : string | string[] | null] *)
Definition Boolean (c : option Converted) : bool :=
  match c with
  | None => false
  | Some (One p) => JS.truthy p
  | Some (Many _) => true
  end.

(** [.flat()] *)
Definition flat (cs : list (option Converted)) : list string :=
  flat_map (fun c => match c with
                     | Some (One p) => [p]
                     | Some (Many ps) => ps
                     | None => []
                     end) cs.

(** The patterns of one [.gitignore] file. *)
Definition gitignorePatterns (relativePath gitignoreContent : string) : list string :=
  flat
    (List.filter Boolean
       (map (convert relativePath)
          (List.filter (fun line => JS.truthy line && negb (Str.startsWith line "#"))
             (map JS.trim (JS.split JS.LF gitignoreContent))))).

Record GitignoreFile := mkGitignoreFile {
  path : string;
  relativePath : string
}.

(** [file.replace(pattern, replacement)] for a string pattern: the first
    occurrence is replaced. *)
Fixpoint replace (pattern replacement s : string) : string :=
  if Str.startsWith s pattern
  then replacement +:+ Str.slice_from (String.length pattern) s
  else match s with
       | EmptyString => EmptyString
       | String c s' => String c (replace pattern replacement s')
       end.

Record Stats := mkStats {
  st_size : N;
  st_mtime : string
}.

(** What [getProjectFiles] yields for one file. *)
Record ScannedFile := mkScannedFile {
  absolutePath : string;
  relativePath_of : string;
  content : string;
  hash : string;
  size : N;
  lastModified : string;
  extension : string
}.

(** [FileUtils.formatFileSize(bytes)] for an integer number of bytes below
    [2^53]: dividing such a number by 1024 is exact in double precision, so
    that [size] is [bytes / 1024^unitIndex] throughout. *)
Definition units : list string := ["B"; "KB"; "MB"; "GB"].

(** The [while] loop; it stops by itself before [unitIndex] reaches
    [units.length - 1 = 3]. *)
Fixpoint scale (fuel : nat) (bytes : N) (unitIndex : nat) : nat :=
  match fuel with
  | 0 => unitIndex
  | S fuel' =>
      if (1024 * 1024 ^ N.of_nat unitIndex <=? bytes)%N && (unitIndex <? length units - 1)
      then scale fuel' bytes (S unitIndex)
      else unitIndex
  end.

(** [(num / den).toFixed(1)]: the integer [n] for which [n / 10] is closest
    to the number, the larger one of two; then its digits, with the point
    before the last one. *)
Definition tenths (num den : N) : N := ((20 * num + den) / (2 * den))%N.

Definition toFixed1 (num den : N) : string :=
  let n := tenths num den in
  Str.of_N (n / 10) +:+ "." +:+ Str.of_N (n mod 10).

Definition formatFileSize (bytes : N) : string :=
  let unitIndex := scale (length units - 1) bytes 0 in
  toFixed1 bytes (1024 ^ N.of_nat unitIndex) +:+ " " +:+ nth unitIndex units "undefined".

Section Scan.

(** The file system and the libraries as they answer during one scan:
    [fastGlob(pattern, {cwd, ignore, ...})] (the paths of the entries found,
    [None] when it rejects), [path.resolve], [path.relative], [path.extname],
    [access], [stat], [readFile] ([false] or [None] when they reject) and the
    SHA-256 digest in hexadecimal. *)
Variable fastGlob : string -> string -> list string -> option (list string).
Variable resolve : string -> string -> string.
Variable relative : string -> string -> string.
Variable extname : string -> string.
Variable access : string -> bool.
Variable stat : string -> option Stats.
Variable readFile : string -> option string.
Variable sha256_hex : string -> string.

Definition findGitignoreFiles (projectPath : string) : list GitignoreFile :=
  match fastGlob "**/.gitignore" projectPath [".git/**"] with
  | Some gitignoreFiles =>
      map (fun file =>
             {| path := resolve projectPath file;
                relativePath := if String.eqb file ".gitignore" then EmptyString
                                else replace "/.gitignore" "" file |})
          gitignoreFiles
  | None => []
  end.

Definition getIgnorePatterns (projectPath : string) : list string :=
  let patterns := DEFAULT_IGNORE_PATTERNS in
  let gitignoreFiles := findGitignoreFiles projectPath in
  fold_left (fun patterns gitignoreFile =>
               match readFile (path gitignoreFile) with
               | Some gitignoreContent =>
                   patterns ++ gitignorePatterns (relativePath gitignoreFile) gitignoreContent
               | None => patterns
               end)
            gitignoreFiles patterns.

Definition generateHash (content : string) : string := sha256_hex content.

Definition createFileInfo (projectPath filePath : string) (stats : Stats)
  : option ScannedFile :=
  let relativePath := relative projectPath filePath in
  if (10 * 1024 * 1024 <? st_size stats)%N then None
  else
    match readFile filePath with
    | Some content =>
        Some {| absolutePath := filePath;
                relativePath_of := relativePath;
                content := content;
                hash := generateHash content;
                size := st_size stats;
                lastModified := st_mtime stats;
                extension := extname filePath |}
    | None => None
    end.

Definition processFile (projectPath file : string) : option ScannedFile :=
  let filePath := resolve projectPath file in
  if access filePath
  then match stat filePath with
       | Some stats => createFileInfo projectPath filePath stats
       | None => None
       end
  else None.

Definition getIncrementalFiles (projectPath : string) : list ScannedFile := [].

(** [files.slice(i, i + batchSize)] *)
Definition slice {A} (i j : nat) (l : list A) : list A := firstn (j - i) (skipn i l).

(** The loop over the batches, from index [i]. Every turn moves [i] forward,
    so that [length files] turns are enough. *)
Fixpoint batches (fuel : nat) (projectPath : string) (files : list string) (i : nat)
    (fileInfos : list ScannedFile) : list ScannedFile :=
  match fuel with
  | 0 => fileInfos
  | S fuel' =>
      if i <? length files
      then
        let batchSize := 50 in
        let batch := slice i (i + batchSize) files in
        let batchResults := map (processFile projectPath) batch in
        batches fuel' projectPath files (i + batchSize)
                (fileInfos ++ omap id batchResults)
      else fileInfos
  end.

(** [getProjectFiles(projectPath, forceFullScan)]; [None] when the scan
    rejects. *)
Definition getProjectFiles (projectPath : string) (forceFullScan : bool)
  : option (list ScannedFile) :=
  let incrementalFiles := getIncrementalFiles projectPath in
  if negb forceFullScan && (0 <? length incrementalFiles) then Some incrementalFiles
  else
    let ignorePatterns := getIgnorePatterns projectPath in
    match fastGlob "**/*" projectPath ignorePatterns with
    | None => None
    | Some files =>
        let files := if 10000 <? length files then firstn 10000 files else files in
        Some (batches (length files) projectPath files 0 [])
    end.

End Scan.

End FileUtils.

(* ===================================================================== *)
(** ** The manager over the scanner *)
(* ===================================================================== *)

(** The fields of a scanned file that [createCheckpoint] reads. *)
Definition to_FileInfo (f : FileUtils.ScannedFile) : FileInfo.t :=
  {| FileInfo.absolutePath := FileUtils.absolutePath f;
     FileInfo.relativePath := FileUtils.relativePath_of f;
     FileInfo.content := FileUtils.content f;
     FileInfo.size := FileUtils.size f;
     FileInfo.lastModified := FileUtils.lastModified f;
     FileInfo.extension := FileUtils.extension f |}.

Section ManagerOverFileUtils.

Variable fastGlob : string -> string -> list string -> option (list string).
Variable resolve : string -> string -> string.
Variable relative : string -> string -> string.
Variable extname : string -> string.
Variable access : string -> bool.
Variable stat : string -> option FileUtils.Stats.
Variable readFile : string -> option string.
Variable sha256_hex : string -> string.

(** The environment of a call in which [FileUtils] is the class above:
    [createCheckpoint] asks for a full scan. *)
Definition scanning_env (cwd time checkpoint_time tag : string) : Env :=
  {| process_cwd := cwd;
     now := time;
     checkpoint_now := checkpoint_time;
     stamp := tag;
     getProjectFiles := fun projectPath =>
       option_map (map to_FileInfo)
                  (FileUtils.getProjectFiles fastGlob resolve relative extname access
                                             stat readFile sha256_hex projectPath true);
     formatFileSize := FileUtils.formatFileSize |}.

End ManagerOverFileUtils.

(** A project directory [/p] for the scanner: [a.txt] and [lib/b.txt] can be
    read, [big.bin] is larger than 10 MiB, [gone.txt] cannot be accessed; the
    [.gitignore] of the root ignores [dist/], the one of [lib] cannot be
    read. *)
Module ScanExample.

Definition fastGlob (pattern cwd : string) (ignore : list string) : option (list string) :=
  if String.eqb pattern "**/.gitignore" then Some [".gitignore"; "lib/.gitignore"]
  else if String.eqb cwd "/p" then Some ["a.txt"; "big.bin"; "lib/b.txt"; "gone.txt"]
  else Some [].

Definition resolve (projectPath file : string) : string := projectPath +:+ "/" +:+ file.

Definition relative (projectPath filePath : string) : string :=
  Str.slice_from (String.length projectPath + 1) filePath.

Definition extname (filePath : string) : string :=
  if Str.endsWith filePath "t" then ".txt" else ".bin".

Definition access (filePath : string) : bool := negb (String.eqb filePath "/p/gone.txt").

Definition stat (filePath : string) : option FileUtils.Stats :=
  Some {| FileUtils.st_size := if String.eqb filePath "/p/big.bin" then 20000000 else 6;
          FileUtils.st_mtime := "2024-05-01T10:00:00.000Z" |}.

Definition readFile (filePath : string) : option string :=
  if String.eqb filePath "/p/.gitignore" then Some ("dist/" +:+ JS.nl)
  else if String.eqb filePath "/p/lib/.gitignore" then None
  else Some ("hello" +:+ JS.nl).

Definition sha256_hex (content : string) : string := "digest of " +:+ content.

Definition env : Env :=
  scanning_env fastGlob resolve relative extname access stat readFile sha256_hex
               "/srv" "2024-05-01T10:05:00.000Z" "2024-05-01T10:05:00.000Z" "1001_a".

End ScanExample.

(* ===================================================================== *)
(** * Theorems *)
(* ===================================================================== *)

(** ** Strings *)

Lemma append_cons (x : ascii) (a b : string) : String x a +:+ b = String x (a +:+ b).
Proof. reflexivity. Qed.

Lemma append_assoc (a b c : string) : (a +:+ b) +:+ c = a +:+ (b +:+ c).
Proof.
  induction a as [|x a IH]; [reflexivity|].
  now rewrite !append_cons, IH.
Qed.

Lemma append_empty_r (a : string) : a +:+ "" = a.
Proof.
  induction a as [|x a IH]; [reflexivity|].
  now rewrite append_cons, IH.
Qed.

Lemma trimEnd_keeps_head (c : ascii) (s : string) :
  JS.isWhiteSpace c = false -> exists t, JS.trimEnd (String c s) = String c t.
Proof.
  intros Hc. simpl. destruct (JS.trimEnd s) as [|d t].
  - rewrite Hc. now exists EmptyString.
  - now exists (String d t).
Qed.

Lemma trim_keeps_head (c : ascii) (s : string) :
  JS.isWhiteSpace c = false -> exists t, JS.trim (String c s) = String c t.
Proof.
  intros Hc. unfold JS.trim. simpl JS.trimStart. rewrite Hc.
  now apply trimEnd_keeps_head.
Qed.

(** ** The positional diff *)

Ltac shift_index H :=
  let j := fresh "j" in
  intros j; simpl; rewrite <- Nat.add_succ_r; rewrite H; reflexivity.

(** The loop from index [k] on, over lists whose tails from [k] are [old]
    and [new], appends the rendering of the walk of [old] and [new]. *)
Lemma diff_loop_walk (oldLines newLines : list string) :
  forall (old new : list string) (k : nat) (result : string),
    (forall j, oldLines !! (k + j) = old !! j) ->
    (forall j, newLines !! (k + j) = new !! j) ->
    fold_left (diff_loop_body oldLines newLines)
              (seq k (Nat.max (length old) (length new))) result
    = result +:+ render_walk (positional_walk old new).
Proof.
  induction old as [|o old IH].
  - (* only new lines are left *)
    induction new as [|n new IHn]; intros k result Ho Hn; simpl.
    + now rewrite append_empty_r.
    + unfold diff_loop_body at 2.
      specialize (Ho 0) as Ho0. specialize (Hn 0) as Hn0.
      rewrite Nat.add_0_r in Ho0, Hn0. simpl in Ho0, Hn0.
      rewrite Ho0, Hn0. simpl JS.interpolate.
      specialize (IHn (S k) (result +:+ "+" +:+ n +:+ JS.nl)).
      simpl in IHn. rewrite IHn.
      * unfold render_line. now rewrite !append_assoc.
      * shift_index Ho.
      * shift_index Hn.
  - intros new k result Ho Hn.
    specialize (Ho 0) as Ho0. rewrite Nat.add_0_r in Ho0. simpl in Ho0.
    assert (Hshift : forall j, oldLines !! (S k + j) = old !! j).
    { shift_index Ho. }
    destruct new as [|n new].
    + (* only old lines are left *)
      simpl. unfold diff_loop_body at 2.
      specialize (Hn 0) as Hn0. rewrite Nat.add_0_r in Hn0. simpl in Hn0.
      rewrite Ho0, Hn0.
      specialize (IH [] (S k) (result +:+ "-" +:+ o +:+ JS.nl)).
      rewrite Nat.max_0_r in IH. rewrite IH; [|assumption|].
      * destruct old; simpl; unfold render_line; now rewrite !append_assoc.
      * shift_index Hn.
    + simpl. unfold diff_loop_body at 2.
      specialize (Hn 0) as Hn0. rewrite Nat.add_0_r in Hn0. simpl in Hn0.
      rewrite Ho0, Hn0.
      assert (Hshiftn : forall j, newLines !! (S k + j) = new !! j).
      { shift_index Hn. }
      destruct (String.eqb o n); simpl negb; cbv iota.
      * rewrite IH by assumption. simpl. unfold render_line.
        now rewrite !append_assoc.
      * rewrite IH by assumption. simpl. unfold render_line.
        now rewrite !append_assoc.
Qed.

Lemma loop_is_untrimmed_diff (oldContent newContent : string) :
  let oldLines := JS.split JS.LF oldContent in
  let newLines := JS.split JS.LF newContent in
  fold_left (diff_loop_body oldLines newLines)
            (seq 0 (Nat.max (length oldLines) (length newLines)))
            ("" +:+ hunk_header (length oldLines) (length newLines))
  = untrimmed_diff oldContent newContent.
Proof.
  intros oldLines newLines. unfold untrimmed_diff.
  apply diff_loop_walk; intros j; reflexivity.
Qed.

(** C8 (as amended). For all contents, the string [generateSimpleDiff]
    returns is the text the specification describes (one hunk header with the
    old and new line counts, then the positional walk, every line ended by a
    line feed) after [trim()]: leading and trailing white space is removed,
    and the fallback text is never used. *)
Theorem generateSimpleDiff_is_trimmed_walk (oldContent newContent : string) :
  generateSimpleDiff oldContent newContent
  = JS.trim (untrimmed_diff oldContent newContent).
Proof.
  unfold generateSimpleDiff. cbv zeta.
  rewrite loop_is_untrimmed_diff.
  unfold untrimmed_diff, hunk_header. cbv zeta.
  rewrite append_assoc.
  match goal with
  | |- JS.or_else (JS.trim ("@@ -1," +:+ ?rest)) _ = _ =>
      destruct (trim_keeps_head "@" ("@ -1," +:+ rest) eq_refl) as [t Ht];
      change (String "@" ("@ -1," +:+ rest)) with ("@@ -1," +:+ rest) in Ht
  end.
  rewrite Ht. reflexivity.
Qed.

(** C8 (counterexample). The contents ["a\n"] and ["b\n"] differ and the
    walk ends with the context line of their shared empty last line, but the
    returned string has only the lines [-a] and [+b] after the header. *)
Lemma generateSimpleDiff_drops_trailing_context :
  let oldContent := "a" +:+ JS.nl in
  let newContent := "b" +:+ JS.nl in
  oldContent <> newContent
  /\ announced_lines oldContent newContent = ["@@ -1,2 +1,2 @@"; "-a"; "+b"; " "]
  /\ JS.split JS.LF (generateSimpleDiff oldContent newContent)
     = ["@@ -1,2 +1,2 @@"; "-a"; "+b"]
  /\ JS.split JS.LF (generateSimpleDiff oldContent newContent)
     <> announced_lines oldContent newContent
  /\ generateSimpleDiff oldContent newContent <> untrimmed_diff oldContent newContent.
Proof.
  cbv zeta. repeat split; try reflexivity; vm_compute; discriminate.
Qed.

(** ** JavaScript maps and sets *)

Lemma Set_add_In (k k' : string) (s : list string) :
  In k' (Set_add k s) <-> k' = k \/ In k' s.
Proof.
  induction s as [|x s IH]; simpl.
  - intuition.
  - destruct (String.eqb_spec x k) as [->|Hne]; simpl; [intuition|].
    rewrite IH. intuition.
Qed.

Lemma Set_add_NoDup (k : string) (s : list string) :
  List.NoDup s -> List.NoDup (Set_add k s).
Proof.
  induction s as [|x s IH]; simpl; intros Hnd.
  - constructor; [intros []|constructor].
  - destruct (String.eqb_spec x k) as [->|Hne]; [assumption|].
    inversion Hnd as [|? ? Hx Hs]; subst. constructor; [|now apply IH].
    rewrite Set_add_In. intros [->|Hin]; [now apply Hne | now apply Hx].
Qed.

Lemma Set_fold_In (elements s : list string) (k : string) :
  In k (fold_left (fun s k => Set_add k s) elements s) <-> In k elements \/ In k s.
Proof.
  revert s. induction elements as [|x elements IH]; intros s; simpl.
  - intuition.
  - rewrite IH, Set_add_In. intuition.
Qed.

Lemma Set_fold_NoDup (elements s : list string) :
  List.NoDup s -> List.NoDup (fold_left (fun s k => Set_add k s) elements s).
Proof.
  revert s. induction elements as [|x elements IH]; intros s Hnd; simpl.
  - assumption.
  - apply IH. now apply Set_add_NoDup.
Qed.

Lemma Set_new_In (elements : list string) (k : string) :
  In k (Set_new elements) <-> In k elements.
Proof. unfold Set_new. rewrite Set_fold_In. simpl. intuition. Qed.

Lemma Set_new_NoDup (elements : list string) : List.NoDup (Set_new elements).
Proof. apply Set_fold_NoDup. constructor. Qed.

Lemma Map_keys_set {V} (k : string) (v : V) (m : JSMap V) :
  Map_keys (Map_set k v m) = Set_add k (Map_keys m).
Proof.
  induction m as [|[k' v'] m IH]; simpl; [reflexivity|].
  destruct (String.eqb k' k); simpl; [reflexivity | now rewrite IH].
Qed.

Lemma Map_get_set {V} (k k' : string) (v : V) (m : JSMap V) :
  Map_get k (Map_set k' v m) = if String.eqb k' k then Some v else Map_get k m.
Proof.
  induction m as [|[x y] m IH]; simpl.
  - reflexivity.
  - destruct (String.eqb_spec x k') as [->|Hx]; simpl.
    + destruct (String.eqb k' k); reflexivity.
    + rewrite IH. destruct (String.eqb_spec x k) as [->|Hk]; [|reflexivity].
      destruct (String.eqb_spec k' k) as [->|]; [now elim Hx | reflexivity].
Qed.

Lemma Map_keys_In {V} (entries : list (string * V)) (k : string) :
  In k (Map_keys (Map_new entries)) <-> In k (map fst entries).
Proof.
  unfold Map_new.
  enough (H : forall m, In k (Map_keys (fold_left (fun m kv => Map_set (fst kv) (snd kv) m)
                                                  entries m))
                        <-> In k (map fst entries) \/ In k (Map_keys m)).
  { rewrite H. simpl. intuition. }
  induction entries as [|[x v] entries IH]; intros m; simpl.
  - intuition.
  - rewrite IH, Map_keys_set, Set_add_In. intuition.
Qed.

(** Looking a path up in the map built from the rows finds the last row
    recorded for it. *)
Lemma Map_get_rows (rows : list FileSnapshot.t) (path : string) :
  Map_get path (Map_new (map (fun f => (FileSnapshot.filePath f, f)) rows))
  = last_with_path path rows.
Proof.
  unfold Map_new.
  enough (H : forall m,
             Map_get path (fold_left (fun m kv => Map_set (fst kv) (snd kv) m)
                             (map (fun f => (FileSnapshot.filePath f, f)) rows) m)
             = match last_with_path path rows with
               | Some g => Some g
               | None => Map_get path m
               end).
  { rewrite H. now destruct (last_with_path path rows). }
  induction rows as [|f rows IH]; intros m; simpl.
  - reflexivity.
  - rewrite IH. destruct (last_with_path path rows); [reflexivity|].
    rewrite Map_get_set. now destruct (String.eqb (FileSnapshot.filePath f) path).
Qed.

(** ** Diff of two checkpoints *)

Lemma content_differs_decide (a b : option string) :
  content_differs a b = if decide (a = b) then false else true.
Proof.
  destruct a as [x|], b as [y|]; unfold content_differs.
  - destruct (String.eqb_spec x y); case_decide; simpl; congruence.
  - case_decide; congruence.
  - case_decide; congruence.
  - case_decide; congruence.
Qed.

(** The loop over the paths emits, in order, what [classify] says of each. *)
Lemma diff_loop_classify (currentFiles previousFiles : list FileSnapshot.t)
    (paths : list string) (acc : list Change) :
  fold_left (diff_path (Map_new (map (fun f => (FileSnapshot.filePath f, f)) currentFiles))
                       (Map_new (map (fun f => (FileSnapshot.filePath f, f)) previousFiles)))
            paths acc
  = acc ++ omap (classify currentFiles previousFiles) paths.
Proof.
  revert acc. induction paths as [|path paths IH]; intros acc; simpl.
  - now rewrite app_nil_r.
  - rewrite IH. unfold diff_path, classify. rewrite !Map_get_rows.
    destruct (last_with_path path currentFiles) as [c|],
             (last_with_path path previousFiles) as [p|]; simpl.
    + rewrite content_differs_decide. case_decide; simpl; [reflexivity|].
      now rewrite <- app_assoc.
    + now rewrite <- app_assoc.
    + now rewrite <- app_assoc.
    + reflexivity.
Qed.

Lemma count_type_partition (cs : list Change) :
  count_type added cs + count_type modified cs + count_type deleted cs = length cs.
Proof.
  unfold count_type. induction cs as [|c cs IH]; simpl; [reflexivity|].
  destruct (type c); simpl; lia.
Qed.

Lemma getCheckpointById_found (i : string) (c : Checkpoint.t) (w : World) :
  select_checkpoint i (db w) = Some c ->
  getCheckpointById i w
  = (Return (Some (c, order_by_relativePath (select_snapshots i (db w)))), w).
Proof.
  intros H. unfold getCheckpointById, bind, query, ret. now rewrite H.
Qed.

Lemma In_path_of_files (rows : list FileSnapshot.t) (path : string) :
  In path (map fst (map (fun f => (FileSnapshot.filePath f, f)) rows))
  <-> exists f, In f rows /\ FileSnapshot.filePath f = path.
Proof.
  rewrite map_map. simpl. rewrite in_map_iff. firstorder.
Qed.

(** The counts of the summary against the tally of the records. *)
Lemma count_type_tally (cs : list Change) :
  {| sum_added := count_type added cs;
     sum_modified := count_type modified cs;
     sum_deleted := count_type deleted cs |} = tally cs.
Proof.
  induction cs as [|c cs IH]; [reflexivity|].
  cbn [tally]. rewrite <- IH. unfold count_type. cbn [List.filter sum_added sum_modified sum_deleted].
  destruct (type c); reflexivity.
Qed.

Lemma last_with_path_present (path : string) (rows : list FileSnapshot.t) :
  present path rows = match last_with_path path rows with Some _ => true | None => false end.
Proof.
  unfold present. induction rows as [|f rows IH]; [reflexivity|].
  cbn [existsb last_with_path]. rewrite IH.
  destruct (last_with_path path rows); [apply orb_true_r|].
  rewrite orb_false_r. now destruct (String.eqb (FileSnapshot.filePath f) path).
Qed.

(** The records of one type against the paths that give them. *)
Lemma classify_counts (currentFiles previousFiles : list FileSnapshot.t)
    (paths : list string) :
  count_type added (omap (classify currentFiles previousFiles) paths)
  = length (List.filter (fun path => present path currentFiles
                                     && negb (present path previousFiles)) paths)
  /\ count_type deleted (omap (classify currentFiles previousFiles) paths)
     = length (List.filter (fun path => negb (present path currentFiles)
                                        && present path previousFiles) paths).
Proof.
  unfold count_type. induction paths as [|path paths [IHa IHd]]; [split; reflexivity|].
  cbn [List.filter]. rewrite !last_with_path_present.
  change (omap (classify currentFiles previousFiles) (path :: paths))
    with (match classify currentFiles previousFiles path with
          | Some c => c :: omap (classify currentFiles previousFiles) paths
          | None => omap (classify currentFiles previousFiles) paths
          end).
  destruct (classify currentFiles previousFiles path) as [change|] eqn:Hclass;
    unfold classify in Hclass;
    destruct (last_with_path path currentFiles) as [c|],
             (last_with_path path previousFiles) as [p|];
    cbn [andb negb]; try discriminate.
  - case_decide; [discriminate|]. injection Hclass as <-.
    cbn [List.filter type ChangeType_eqb]. split; assumption.
  - injection Hclass as <-. cbn [List.filter type ChangeType_eqb length].
    split; [now rewrite IHa | assumption].
  - injection Hclass as <-. cbn [List.filter type ChangeType_eqb length].
    split; [assumption | now rewrite IHd].
  - split; assumption.
  - split; assumption.
Qed.

Lemma allPaths_spec (currentFiles previousFiles : list FileSnapshot.t) (path : string) :
  In path (Set_new
             (Map_keys (Map_new (map (fun f => (FileSnapshot.filePath f, f)) currentFiles))
              ++ Map_keys (Map_new (map (fun f => (FileSnapshot.filePath f, f)) previousFiles))))
  <-> exists f, (In f currentFiles \/ In f previousFiles)
                /\ FileSnapshot.filePath f = path.
Proof.
  rewrite Set_new_In, in_app_iff.
  rewrite (Map_keys_In (map (fun f => (FileSnapshot.filePath f, f)) currentFiles)).
  rewrite (Map_keys_In (map (fun f => (FileSnapshot.filePath f, f)) previousFiles)).
  rewrite (In_path_of_files currentFiles), (In_path_of_files previousFiles).
  split.
  - intros [[f [Hf Hpath]]|[f [Hf Hpath]]]; exists f; auto.
  - intros [f [[Hf|Hf] Hpath]]; [left|right]; exists f; auto.
Qed.

(** C5. When both ids resolve, [diffCheckpoints] returns a result whose
    changes are the classification of every path recorded by a file snapshot
    of either checkpoint (the rows with [isDirectory = 0], which is how
    [createCheckpoint] stores every snapshot), each path taken once: only in
    the current checkpoint gives [added] with [sizeAfter], only in the
    previous one gives [deleted] with [sizeBefore], in both with the same
    content gives no record, in both with different contents gives [modified]
    with the generated diff string. The summary counts the emitted changes by
    type: it is the tally of the records, its [added] is the number of paths
    present only in the current checkpoint and its [deleted] the number of
    paths present only in the previous one. In the scenario of the
    specification the changes are [x.txt] modified and [y.txt] added, with
    summary 1, 1, 0; with the two checkpoints exchanged they are [x.txt]
    modified and [y.txt] deleted, with summary 0, 1, 1. *)
Theorem diffCheckpoints_classifies_paths :
  (forall (w : World) (currentId previousId : string) (c p : Checkpoint.t),
      select_checkpoint currentId (db w) = Some c ->
      select_checkpoint previousId (db w) = Some p ->
      let currentFiles := select_files currentId (db w) in
      let previousFiles := select_files previousId (db w) in
      exists (r : DiffResult) (paths : list string),
        diffCheckpoints currentId previousId w = (Return r, w)
        /\ List.NoDup paths
        /\ (forall path,
               In path paths <->
               exists f, (In f currentFiles \/ In f previousFiles)
                         /\ FileSnapshot.filePath f = path)
        /\ changes r = omap (classify currentFiles previousFiles) paths
        /\ summary r = {| sum_added := count_type added (changes r);
                          sum_modified := count_type modified (changes r);
                          sum_deleted := count_type deleted (changes r) |}
        /\ sum_added (summary r) + sum_modified (summary r) + sum_deleted (summary r)
           = length (changes r)
        /\ summary r = tally (changes r)
        /\ sum_added (summary r)
           = length (List.filter (fun path => present path currentFiles
                                              && negb (present path previousFiles)) paths)
        /\ sum_deleted (summary r)
           = length (List.filter (fun path => negb (present path currentFiles)
                                              && present path previousFiles) paths))
  /\ (exists r,
        fst (diffCheckpoints Scenario.B Scenario.A Scenario.world) = Return r
        /\ changes r
           = [ {| type := modified; file := "x.txt";
                  diff := Some ("@@ -1,2 +1,2 @@" +:+ JS.nl +:+ "-hello" +:+ JS.nl
                                  +:+ "+hello world");
                  sizeBefore := Some 6%N; sizeAfter := Some 12%N |};
               {| type := added; file := "y.txt"; diff := None;
                  sizeBefore := None; sizeAfter := Some 4%N |} ]
        /\ summary r = {| sum_added := 1; sum_modified := 1; sum_deleted := 0 |})
  /\ (exists r,
        fst (diffCheckpoints Scenario.A Scenario.B Scenario.world) = Return r
        /\ changes r
           = [ {| type := modified; file := "x.txt";
                  diff := Some ("@@ -1,2 +1,2 @@" +:+ JS.nl +:+ "-hello world" +:+ JS.nl
                                  +:+ "+hello");
                  sizeBefore := Some 12%N; sizeAfter := Some 6%N |};
               {| type := deleted; file := "y.txt"; diff := None;
                  sizeBefore := Some 4%N; sizeAfter := None |} ]
        /\ summary r = {| sum_added := 0; sum_modified := 1; sum_deleted := 1 |}).
Proof.
  split; [|split].
  - intros w currentId previousId c p Hc Hp currentFiles previousFiles.
    unfold diffCheckpoints, bind.
    rewrite (getCheckpointById_found _ _ _ Hc), (getCheckpointById_found _ _ _ Hp).
    unfold query, ret. cbv beta iota zeta. fold currentFiles previousFiles.
    eexists. eexists. split; [reflexivity|].
    cbn [changes summary sum_added sum_modified sum_deleted].
    split; [apply Set_new_NoDup|]. split; [|split; [|split; [|split; [|split]]]].
    + intros path. apply allPaths_spec.
    + now rewrite diff_loop_classify.
    + reflexivity.
    + apply count_type_partition.
    + apply count_type_tally.
    + rewrite diff_loop_classify. cbn [app].
      split; apply (classify_counts currentFiles previousFiles).
  - eexists. split; [vm_compute; reflexivity|]. split; vm_compute; reflexivity.
  - eexists. split; [vm_compute; reflexivity|]. split; vm_compute; reflexivity.
Qed.

(** C5 (witness): the general statement at the two checkpoints of the
    scenario, the later one as the previous checkpoint, so that a file is
    deleted. *)
Lemma diffCheckpoints_classifies_paths_witness :
  exists c p,
    select_checkpoint Scenario.A (db Scenario.world) = Some c
    /\ select_checkpoint Scenario.B (db Scenario.world) = Some p
    /\ exists (r : DiffResult) (paths : list string),
         diffCheckpoints Scenario.A Scenario.B Scenario.world = (Return r, Scenario.world)
         /\ List.NoDup paths
         /\ (forall path,
                In path paths <->
                exists f, (In f (select_files Scenario.A (db Scenario.world))
                           \/ In f (select_files Scenario.B (db Scenario.world)))
                          /\ FileSnapshot.filePath f = path)
         /\ changes r = omap (classify (select_files Scenario.A (db Scenario.world))
                                       (select_files Scenario.B (db Scenario.world))) paths
         /\ summary r = {| sum_added := count_type added (changes r);
                           sum_modified := count_type modified (changes r);
                           sum_deleted := count_type deleted (changes r) |}
         /\ sum_added (summary r) + sum_modified (summary r) + sum_deleted (summary r)
            = length (changes r)
         /\ summary r = tally (changes r)
         /\ sum_added (summary r)
            = length (List.filter
                        (fun path =>
                           present path (select_files Scenario.A (db Scenario.world))
                           && negb (present path
                                      (select_files Scenario.B (db Scenario.world))))
                        paths)
         /\ sum_deleted (summary r)
            = length (List.filter
                        (fun path =>
                           negb (present path
                                   (select_files Scenario.A (db Scenario.world)))
                           && present path (select_files Scenario.B (db Scenario.world)))
                        paths).
Proof.
  eexists. eexists.
  split; [vm_compute; reflexivity|].
  split; [vm_compute; reflexivity|].
  eapply (proj1 diffCheckpoints_classifies_paths); vm_compute; reflexivity.
Defined.

Lemma classify_same (rows : list FileSnapshot.t) (paths : list string) :
  omap (classify rows rows) paths = [].
Proof.
  induction paths as [|path paths IH]; simpl; [reflexivity|].
  unfold classify at 1. destruct (last_with_path path rows) as [f|]; [|exact IH].
  case_decide; [exact IH | congruence].
Qed.

(** C9. For every existing checkpoint, [diffCheckpoints] of the checkpoint
    with itself returns an empty list of changes and a summary of zeros. *)
Theorem diffCheckpoints_self_empty (w : World) (checkpointId : string) (c : Checkpoint.t) :
  select_checkpoint checkpointId (db w) = Some c ->
  exists r : DiffResult,
    diffCheckpoints checkpointId checkpointId w = (Return r, w)
    /\ changes r = []
    /\ summary r = {| sum_added := 0; sum_modified := 0; sum_deleted := 0 |}.
Proof.
  intros Hc. unfold diffCheckpoints, bind.
  rewrite !(getCheckpointById_found _ _ _ Hc).
  unfold query, ret. cbv beta iota zeta.
  eexists. split; [reflexivity|]. simpl.
  rewrite diff_loop_classify, classify_same. split; reflexivity.
Qed.

(** C9 (witness): checkpoint B of the scenario against itself. *)
Lemma diffCheckpoints_self_empty_witness :
  exists c,
    select_checkpoint Scenario.B (db Scenario.world) = Some c
    /\ exists r : DiffResult,
         diffCheckpoints Scenario.B Scenario.B Scenario.world = (Return r, Scenario.world)
         /\ changes r = []
         /\ summary r = {| sum_added := 0; sum_modified := 0; sum_deleted := 0 |}.
Proof.
  eexists. split; [vm_compute; reflexivity|].
  eapply diffCheckpoints_self_empty. vm_compute. reflexivity.
Defined.

(** ** Restore: the result record *)

Lemma lookup_mkdirs (ps : list (list string)) (fs : FS) (q : list string) :
  foldr (fun p m => <[p := Dir]> m) fs ps !! q
  = if decide (q ∈ ps) then Some Dir else fs !! q.
Proof.
  induction ps as [|p ps IH].
  - destruct (decide (q ∈ [])) as [Hin|_]; [inversion Hin | reflexivity].
  - change (foldr (fun p m => <[p := Dir]> m) fs (p :: ps))
      with (<[p := Dir]> (foldr (fun p m => <[p := Dir]> m) fs ps)).
    destruct (decide (p = q)) as [->|Hne].
    + rewrite lookup_insert_eq. rewrite decide_True; [reflexivity | left].
    + rewrite lookup_insert_ne by assumption. rewrite IH.
      destruct (decide (q ∈ ps)) as [Hin|Hin].
      * rewrite decide_True; [reflexivity | now right].
      * rewrite decide_False; [reflexivity|].
        intros [->|H]%elem_of_cons; [now apply Hne | contradiction].
Qed.

Lemma self_in_ancestors (d : list string) :
  d <> [] -> d ∈ ancestors_and_self d.
Proof.
  intros Hd. unfold ancestors_and_self. apply list_elem_of_fmap.
  exists (length d). split; [now rewrite firstn_all|].
  apply list_elem_of_In, in_seq. destruct d; [contradiction | simpl; lia].
Qed.

(** A successful [mkdir] leaves its directory in place. *)
Lemma mkdir_recursive_creates (d : list string) (fs fs' : FS) :
  mkdir_recursive d fs = inl fs' -> is_dir fs' d = true.
Proof.
  unfold mkdir_recursive. destruct (is_file fs d); [discriminate|].
  destruct (existsb (is_file fs) (ancestors_and_self d)); [discriminate|].
  intros [= <-]. unfold is_dir. destruct d as [|x d]; [reflexivity|].
  rewrite lookup_mkdirs. rewrite decide_True; [reflexivity|].
  now apply self_in_ancestors.
Qed.

Lemma ancestor_length (d q : list string) :
  q ∈ ancestors_and_self d -> 0 < length q <= length d.
Proof.
  unfold ancestors_and_self. intros [n [-> Hn]]%list_elem_of_fmap.
  apply list_elem_of_In, in_seq in Hn. rewrite length_take. lia.
Qed.

Lemma path_not_ancestor (p : list string) : p ∉ ancestors_and_self (dirname p).
Proof.
  intros Hin. apply ancestor_length in Hin. unfold dirname in Hin.
  destruct p as [|x p]; [simpl in Hin; lia|].
  rewrite removelast_firstn_len, length_take in Hin. simpl in Hin. lia.
Qed.

(** A successful [mkdir] changes nothing but the directories on the way. *)
Lemma mkdir_recursive_lookup (d q : list string) (fs fs' : FS) :
  mkdir_recursive d fs = inl fs' ->
  fs' !! q = if decide (q ∈ ancestors_and_self d) then Some Dir else fs !! q.
Proof.
  unfold mkdir_recursive. destruct (is_file fs d); [discriminate|].
  destruct (existsb (is_file fs) (ancestors_and_self d)); [discriminate|].
  intros [= <-]. apply lookup_mkdirs.
Qed.

Lemma mkdir_recursive_below (d p : list string) (fs fs' : FS) :
  mkdir_recursive d fs = inl fs' -> d = dirname p -> fs' !! p = fs !! p.
Proof.
  intros Hmk ->. rewrite (mkdir_recursive_lookup _ _ _ _ Hmk).
  rewrite decide_False; [reflexivity | apply path_not_ancestor].
Qed.

Lemma with_files_same (w : World) : with_files w (files w) = w.
Proof. now destruct w. Qed.

(** One turn of the restore loop never raises, touches the file system only,
    and adds at most one to [filesRestored] or one entry to [errors]. *)
Lemma restore_file_returns (locals : nat * list string) (file : FileSnapshot.t) (w : World) :
  exists n errs fs',
    restore_file locals file w = (Return (n, errs), with_files w fs')
    /\ n + length errs <= S (fst locals + length (snd locals)).
Proof.
  destruct locals as [n errs]. unfold restore_file, try_catch, bind, fs_call, ret.
  destruct (mkdir_recursive _ (files w)) as [fs1|e1] eqn:Hmk.
  - destruct (FileSnapshot.content file) as [content|]; simpl.
    + destruct (writeFile _ content fs1) as [fs2|e2]; simpl.
      * exists (S n), errs, fs2. split; [reflexivity | simpl; lia].
      * exists n, (errs ++ [FileSnapshot.filePath file +:+ ": "
                              +:+ Error_toString (FsFailure e2)]), fs1.
        split; [reflexivity | rewrite length_app; simpl; lia].
    + exists n, errs, fs1. split; [reflexivity | simpl; lia].
  - exists n, (errs ++ [FileSnapshot.filePath file +:+ ": "
                          +:+ Error_toString (FsFailure e1)]), (files w).
    split; [now rewrite with_files_same | rewrite length_app; simpl; lia].
Qed.

Lemma restore_loop_returns (rows : list FileSnapshot.t) :
  forall (locals : nat * list string) (w : World),
  exists n errs fs',
    for_of_with rows restore_file locals w = (Return (n, errs), with_files w fs')
    /\ n + length errs <= fst locals + length (snd locals) + length rows.
Proof.
  induction rows as [|file rows IH]; intros locals w; simpl.
  - exists (fst locals), (snd locals), (files w). unfold ret.
    rewrite with_files_same. destruct locals. split; [reflexivity | simpl; lia].
  - destruct (restore_file_returns locals file w) as [n [errs [fs1 [Hstep Hle]]]].
    unfold bind. rewrite Hstep.
    destruct (IH (n, errs) (with_files w fs1)) as [n' [errs' [fs2 [Hloop Hle']]]].
    rewrite Hloop. exists n', errs', fs2. split; [reflexivity | simpl in *; lia].
Qed.

(** C10. In the restore loop a non-directory row whose content is NULL has
    its directory created and nothing else: no file is written, and
    [filesRestored] and [errors] stay as they were. In the result,
    [totalFiles] counts every non-directory row, so
    [filesRestored + errors.length] never exceeds it and, as the store with
    one NULL row shows, can be strictly below it with no error at all. *)
Theorem restoreCheckpoint_skips_null_content :
  (forall (w : World) (file : FileSnapshot.t) (filesRestored : nat)
          (errors : list string) (fs' : FS),
      FileSnapshot.content file = None ->
      mkdir_recursive (dirname (resolve (FileSnapshot.filePath file))) (files w) = inl fs' ->
      restore_file (filesRestored, errors) file w
      = (Return (filesRestored, errors), with_files w fs')
      /\ is_dir fs' (dirname (resolve (FileSnapshot.filePath file))) = true
      /\ fs' !! resolve (FileSnapshot.filePath file)
         = files w !! resolve (FileSnapshot.filePath file))
  /\ (forall (w : World) (checkpointId : string) (c : Checkpoint.t),
         select_checkpoint checkpointId (db w) = Some c ->
         exists r fs',
           restoreCheckpoint checkpointId w = (Return r, with_files w fs')
           /\ totalFiles r = length (select_files checkpointId (db w))
           /\ filesRestored r + length (errors r) <= totalFiles r)
  /\ (exists r w',
         restoreCheckpoint "checkpoint_1" null_content_world = (Return r, w')
         /\ totalFiles r = 1 /\ filesRestored r = 0 /\ errors r = []
         /\ filesRestored r + length (errors r) < totalFiles r
         /\ files w' !! ["p"; "sub"] = Some Dir
         /\ files w' !! ["p"; "sub"; "empty.txt"] = None).
Proof.
  split; [|split].
  - intros w file n errs fs' Hnull Hmk. split; [|split].
    + unfold restore_file, try_catch, bind, fs_call, ret.
      rewrite Hmk, Hnull. reflexivity.
    + now apply mkdir_recursive_creates with (fs := files w).
    + now apply mkdir_recursive_below
        with (d := dirname (resolve (FileSnapshot.filePath file))).
  - intros w checkpointId c Hc. unfold restoreCheckpoint, bind.
    rewrite (getCheckpointById_found _ _ _ Hc). unfold query.
    destruct (restore_loop_returns (select_files checkpointId (db w)) (0, []) w)
      as [n [errs [fs' [Hloop Hle]]]].
    rewrite Hloop. unfold ret. eexists. exists fs'.
    split; [reflexivity|]. simpl in *. split; [reflexivity | lia].
  - eexists. eexists. split; [vm_compute; reflexivity|].
    repeat split; vm_compute; auto.
Qed.

(** C10 (witness): the two general statements at the store with one NULL
    row. *)
Lemma restoreCheckpoint_skips_null_content_witness :
  (exists file fs',
      In file (file_snapshots (db null_content_world))
      /\ FileSnapshot.content file = None
      /\ mkdir_recursive (dirname (resolve (FileSnapshot.filePath file)))
                         (files null_content_world) = inl fs'
      /\ restore_file (0, []) file null_content_world
         = (Return (0, []), with_files null_content_world fs'))
  /\ (exists c r fs',
         select_checkpoint "checkpoint_1" (db null_content_world) = Some c
         /\ restoreCheckpoint "checkpoint_1" null_content_world
            = (Return r, with_files null_content_world fs')
         /\ filesRestored r + length (errors r) <= totalFiles r).
Proof.
  split.
  - eexists. eexists. split; [left; reflexivity|]. split; [reflexivity|].
    split; [vm_compute; reflexivity|].
    apply (proj1 restoreCheckpoint_skips_null_content); [reflexivity|].
    vm_compute. reflexivity.
  - eexists.
    destruct (proj1 (proj2 restoreCheckpoint_skips_null_content) null_content_world
                "checkpoint_1" _ eq_refl) as [r [fs' [Hr [_ Hle]]]].
    exists r, fs'. split; [reflexivity|]. split; [exact Hr | exact Hle].
Defined.

(** ** Restore: idempotence *)

Lemma restore_file_effect (locals : nat * list string) (file : FileSnapshot.t) (w : World) :
  exists locals',
    restore_file locals file w = (Return locals', with_files w (restore_effect file (files w))).
Proof.
  destruct locals as [n errs].
  unfold restore_file, restore_effect, try_catch, bind, fs_call, ret.
  destruct (mkdir_recursive _ (files w)) as [fs1|e1].
  - destruct (FileSnapshot.content file) as [content|]; simpl.
    + destruct (writeFile _ content fs1) as [fs2|e2]; simpl; eexists; reflexivity.
    + eexists; reflexivity.
  - rewrite with_files_same. eexists; reflexivity.
Qed.

Lemma restore_loop_effect (rows : list FileSnapshot.t) :
  forall (locals : nat * list string) (w : World),
  exists locals',
    for_of_with rows restore_file locals w
    = (Return locals', with_files w (restore_all rows (files w))).
Proof.
  induction rows as [|file rows IH]; intros locals w; simpl.
  - exists locals. unfold ret. now rewrite with_files_same.
  - destruct (restore_file_effect locals file w) as [l1 H1].
    unfold bind. rewrite H1.
    destruct (IH l1 (with_files w (restore_effect file (files w)))) as [l2 H2].
    rewrite H2. exists l2. reflexivity.
Qed.

Lemma restoreCheckpoint_effect (w : World) (checkpointId : string) (c : Checkpoint.t) :
  select_checkpoint checkpointId (db w) = Some c ->
  exists r,
    restoreCheckpoint checkpointId w
    = (Return r, with_files w (restore_all (select_files checkpointId (db w)) (files w))).
Proof.
  intros Hc. unfold restoreCheckpoint, bind.
  rewrite (getCheckpointById_found _ _ _ Hc). unfold query.
  destruct (restore_loop_effect (select_files checkpointId (db w)) (0, []) w) as [l Hl].
  rewrite Hl. unfold ret. eexists. reflexivity.
Qed.

(** *** What [mkdir] and [writeFile] need and do *)

Lemma is_file_kind (fs : FS) (p : list string) :
  p <> [] -> (is_file fs p = true <-> kind_of (fs !! p) = IsFile).
Proof.
  intros Hp. unfold is_file. destruct p; [contradiction|].
  destruct (fs !! (s :: p)) as [[?|]|]; simpl; split; congruence.
Qed.

Lemma is_dir_kind (fs : FS) (p : list string) :
  p <> [] -> (is_dir fs p = true <-> kind_of (fs !! p) = IsDir).
Proof.
  intros Hp. unfold is_dir. destruct p; [contradiction|].
  destruct (fs !! (s :: p)) as [[?|]|]; simpl; split; congruence.
Qed.

Lemma kind_dir (o : option node) : kind_of o = IsDir <-> o = Some Dir.
Proof. destruct o as [[?|]|]; simpl; split; congruence. Qed.

Lemma ancestor_nonempty (d q : list string) : q ∈ ancestors_and_self d -> q <> [].
Proof. intros Hq%ancestor_length ->. simpl in Hq. lia. Qed.

(** [mkdir] goes through exactly when no directory on the way is a file. *)
Lemma mkdir_recursive_inl (d : list string) (fs : FS) :
  (forall q, q ∈ ancestors_and_self d -> kind_of (fs !! q) <> IsFile) ->
  mkdir_recursive d fs = inl (foldr (fun p m => <[p := Dir]> m) fs (ancestors_and_self d)).
Proof.
  intros Hfree. unfold mkdir_recursive.
  assert (Hanc : existsb (is_file fs) (ancestors_and_self d) = false).
  { apply not_true_iff_false. rewrite existsb_exists. intros [q [Hq Hfile]].
    apply list_elem_of_In in Hq. apply (Hfree q Hq).
    apply is_file_kind; [now apply ancestor_nonempty with d | assumption]. }
  rewrite Hanc. destruct (is_file fs d) eqn:Hd; [|reflexivity].
  exfalso. destruct d as [|x d]; [discriminate|].
  apply (Hfree (x :: d)); [now apply self_in_ancestors|].
  now apply is_file_kind.
Qed.

Lemma mkdir_recursive_inr (d : list string) (fs : FS) (e : FsError) :
  mkdir_recursive d fs = inr e ->
  exists q, q ∈ ancestors_and_self d /\ kind_of (fs !! q) = IsFile.
Proof.
  unfold mkdir_recursive. destruct (is_file fs d) eqn:Hd.
  - intros _. destruct d as [|x d]; [discriminate|].
    exists (x :: d). split; [now apply self_in_ancestors | now apply is_file_kind].
  - destruct (existsb (is_file fs) (ancestors_and_self d)) eqn:Hanc; [|discriminate].
    intros _. apply existsb_exists in Hanc as [q [Hq Hfile]].
    apply list_elem_of_In in Hq. exists q. split; [assumption|].
    apply is_file_kind; [now apply ancestor_nonempty with d | assumption].
Qed.

Lemma mkdir_recursive_free (d : list string) (fs fs' : FS) :
  mkdir_recursive d fs = inl fs' ->
  forall q, q ∈ ancestors_and_self d -> kind_of (fs !! q) <> IsFile.
Proof.
  unfold mkdir_recursive. destruct (is_file fs d); [discriminate|].
  destruct (existsb (is_file fs) (ancestors_and_self d)) eqn:Hanc; [discriminate|].
  intros _ q Hq Hfile. apply not_true_iff_false in Hanc. apply Hanc.
  apply existsb_exists. exists q. split; [now apply list_elem_of_In|].
  apply is_file_kind; [now apply ancestor_nonempty with d | assumption].
Qed.

(** Creating directories that are all there changes nothing. *)
Lemma mkdirs_present (ps : list (list string)) (fs : FS) :
  (forall q, q ∈ ps -> fs !! q = Some Dir) ->
  foldr (fun p m => <[p := Dir]> m) fs ps = fs.
Proof.
  intros Hall. apply map_eq. intros q. rewrite lookup_mkdirs.
  destruct (decide (q ∈ ps)) as [Hin|]; [now rewrite Hall | reflexivity].
Qed.

Lemma mkdir_recursive_blocked (d q : list string) (fs : FS) :
  q ∈ ancestors_and_self d -> kind_of (fs !! q) = IsFile ->
  exists e, mkdir_recursive d fs = inr e.
Proof.
  intros Hq Hfile. destruct (mkdir_recursive d fs) as [fs'|e] eqn:Hmk.
  - exfalso. exact (mkdir_recursive_free _ _ _ Hmk q Hq Hfile).
  - now exists e.
Qed.

Lemma is_dir_not_file (fs : FS) (p : list string) :
  is_dir fs p = true -> is_file fs p = false.
Proof.
  unfold is_dir, is_file. destruct p; [reflexivity|].
  destruct (fs !! (s :: p)) as [[?|]|]; congruence.
Qed.

Lemma writeFile_inl (p : list string) (content : string) (fs fs' : FS) :
  writeFile p content fs = inl fs' ->
  p <> [] /\ kind_of (fs !! p) <> IsDir /\ fs' = <[p := File content]> fs.
Proof.
  unfold writeFile. destruct (is_dir fs p) eqn:Hp; [discriminate|].
  destruct (is_file fs (dirname p)); [discriminate|].
  destruct (is_dir fs (dirname p)); [|discriminate].
  intros [= <-]. assert (Hne : p <> []) by (intros ->; discriminate).
  split; [assumption|]. split; [|reflexivity].
  intros Hk. apply is_dir_kind in Hk; congruence.
Qed.

Lemma writeFile_inr (p : list string) (content : string) (fs : FS) (e : FsError) :
  writeFile p content fs = inr e ->
  is_dir fs (dirname p) = true ->
  p = [] \/ kind_of (fs !! p) = IsDir.
Proof.
  unfold writeFile. intros Hw Hparent.
  rewrite (is_dir_not_file _ _ Hparent), Hparent in Hw.
  destruct (is_dir fs p) eqn:Hp; [|discriminate].
  destruct p as [|x p]; [now left | right].
  now apply is_dir_kind.
Qed.

Lemma writeFile_goes (p : list string) (content : string) (fs : FS) :
  p <> [] -> kind_of (fs !! p) <> IsDir -> is_dir fs (dirname p) = true ->
  writeFile p content fs = inl (<[p := File content]> fs).
Proof.
  intros Hne Hk Hparent. unfold writeFile.
  rewrite (is_dir_not_file _ _ Hparent), Hparent.
  destruct (is_dir fs p) eqn:Hp; [|reflexivity].
  exfalso. apply Hk. now apply is_dir_kind.
Qed.

Lemma writeFile_refused (p : list string) (content : string) (fs : FS) :
  p = [] \/ kind_of (fs !! p) = IsDir ->
  exists e, writeFile p content fs = inr e.
Proof.
  intros Hp. unfold writeFile.
  assert (Hdir : is_dir fs p = true).
  { destruct Hp as [->|Hk]; [reflexivity|].
    destruct p as [|x p]; [reflexivity | now apply is_dir_kind]. }
  rewrite Hdir. now exists EISDIR.
Qed.

(** What is a file stays a file and what is a directory stays a directory
    through one turn of the loop. *)
Lemma restore_effect_kind (file : FileSnapshot.t) (fs : FS) (q : list string) :
  kind_of (fs !! q) <> Absent ->
  kind_of (restore_effect file fs !! q) = kind_of (fs !! q).
Proof.
  intros Hq. unfold restore_effect.
  set (p := resolve (FileSnapshot.filePath file)).
  destruct (mkdir_recursive (dirname p) fs) as [fs1|e1] eqn:Hmk; [|reflexivity].
  assert (H1 : kind_of (fs1 !! q) = kind_of (fs !! q)).
  { rewrite (mkdir_recursive_lookup _ _ _ _ Hmk).
    destruct (decide (q ∈ ancestors_and_self (dirname p))) as [Hin|]; [|reflexivity].
    pose proof (mkdir_recursive_free _ _ _ Hmk q Hin) as Hfree.
    destruct (fs !! q) as [[?|]|]; simpl in *; congruence. }
  destruct (FileSnapshot.content file) as [content|]; [|exact H1].
  destruct (writeFile p content fs1) as [fs2|e2] eqn:Hw; [|exact H1].
  apply writeFile_inl in Hw as [Hne [Hk ->]].
  destruct (decide (p = q)) as [<-|Hpq].
  - rewrite lookup_insert_eq. rewrite <- H1 in *.
    destruct (fs1 !! p) as [[?|]|]; simpl in *; congruence.
  - now rewrite lookup_insert_ne.
Qed.

Lemma restore_all_kind (rows : list FileSnapshot.t) :
  forall (fs : FS) (q : list string),
    kind_of (fs !! q) <> Absent ->
    kind_of (restore_all rows fs !! q) = kind_of (fs !! q).
Proof.
  induction rows as [|file rows IH]; intros fs q Hq; simpl; [reflexivity|].
  unfold restore_all in *. simpl.
  rewrite IH by (rewrite restore_effect_kind; assumption).
  now apply restore_effect_kind.
Qed.

(** One turn of the loop from a state [t] that already has the shape of a
    later state [u] of the run from [s]: [t] keeps that shape, and agrees
    everywhere with [u] or with what the turn makes of [s]. *)
Lemma restore_effect_follows (file : FileSnapshot.t) (s t u : FS) :
  same_shape t u ->
  (forall q, t !! q = u !! q \/ t !! q = s !! q) ->
  (forall q, kind_of (restore_effect file s !! q) <> Absent ->
             kind_of (u !! q) = kind_of (restore_effect file s !! q)) ->
  same_shape (restore_effect file t) u
  /\ (forall q, restore_effect file t !! q = u !! q
                \/ restore_effect file t !! q = restore_effect file s !! q).
Proof.
  intros Hshape Hagree Hlater. unfold restore_effect in *.
  set (p := resolve (FileSnapshot.filePath file)) in *.
  set (d := dirname p) in *.
  destruct (mkdir_recursive d s) as [s1|e1] eqn:Hmk.
  - (* the directories were made in the run from [s] *)
    assert (Hs1 : forall q, s1 !! q
                            = if decide (q ∈ ancestors_and_self d) then Some Dir else s !! q)
      by (intros q; apply (mkdir_recursive_lookup _ _ _ _ Hmk)).
    assert (Hstep : forall q, q ∈ ancestors_and_self d ->
               match FileSnapshot.content file with
               | Some content =>
                   match writeFile p content s1 with inl fs2 => fs2 | inr _ => s1 end
               | None => s1
               end !! q = Some Dir).
    { intros q Hq. destruct (FileSnapshot.content file) as [content|].
      - destruct (writeFile p content s1) as [s2|e2] eqn:Hw.
        + apply writeFile_inl in Hw as [_ [_ ->]].
          rewrite lookup_insert_ne; [rewrite Hs1; now rewrite decide_True|].
          intros <-. now apply (path_not_ancestor p).
        + rewrite Hs1. now rewrite decide_True.
      - rewrite Hs1. now rewrite decide_True. }
    assert (Ht : forall q, q ∈ ancestors_and_self d -> t !! q = Some Dir).
    { intros q Hq. apply kind_dir. rewrite Hshape, Hlater; rewrite (Hstep q Hq); done. }
    assert (Hmkt : mkdir_recursive d t = inl t).
    { rewrite mkdir_recursive_inl.
      - now rewrite mkdirs_present.
      - intros q Hq. now rewrite (Ht q Hq). }
    rewrite Hmkt.
    assert (Hagree1 : forall q, t !! q = u !! q \/ t !! q = s1 !! q).
    { intros q. rewrite Hs1.
      destruct (decide (q ∈ ancestors_and_self d)) as [Hq|]; [right; now apply Ht | apply Hagree]. }
    assert (Hparent : is_dir t d = true).
    { unfold is_dir. destruct d as [|x d'] eqn:Hd; [reflexivity|].
      rewrite Ht; [reflexivity|]. apply self_in_ancestors. discriminate. }
    destruct (FileSnapshot.content file) as [content|]; [|now split].
    destruct (writeFile p content s1) as [s2|e2] eqn:Hw.
    + (* the file was written in the run from [s] *)
      apply writeFile_inl in Hw as [Hne [_ ->]].
      assert (Hfile : kind_of (t !! p) = IsFile).
      { rewrite Hshape, Hlater; rewrite lookup_insert_eq; done. }
      rewrite (writeFile_goes p content t); [|assumption|congruence|assumption].
      split.
      * intros q. destruct (decide (p = q)) as [<-|Hpq].
        -- rewrite lookup_insert_eq. rewrite <- Hshape, Hfile. reflexivity.
        -- rewrite lookup_insert_ne by assumption. apply Hshape.
      * intros q. destruct (decide (p = q)) as [<-|Hpq].
        -- right. now rewrite !lookup_insert_eq.
        -- rewrite !lookup_insert_ne by assumption. apply Hagree1.
    + (* the write was refused in the run from [s] *)
      assert (Hrefused : p = [] \/ kind_of (t !! p) = IsDir).
      { destruct (writeFile_inr _ _ _ _ Hw (mkdir_recursive_creates _ _ _ Hmk)) as [Hp|Hk];
          [now left | right].
        rewrite Hshape, Hlater; rewrite Hk; done. }
      destruct (writeFile_refused p content t Hrefused) as [e Hwt]. rewrite Hwt.
      now split.
  - (* a file was in the way in the run from [s] *)
    destruct (mkdir_recursive_inr _ _ _ Hmk) as [q0 [Hq0 Hfile]].
    assert (Hfilet : kind_of (t !! q0) = IsFile).
    { rewrite Hshape, Hlater; rewrite Hfile; done. }
    destruct (mkdir_recursive_blocked d q0 t Hq0 Hfilet) as [e Hmkt]. rewrite Hmkt.
    now split.
Qed.

(** Running the loop again from a state that has the shape of the result
    gives the result. *)
Lemma restore_all_absorbs (rows : list FileSnapshot.t) :
  forall (s t : FS),
    same_shape t (restore_all rows s) ->
    (forall q, t !! q = restore_all rows s !! q \/ t !! q = s !! q) ->
    restore_all rows t = restore_all rows s.
Proof.
  induction rows as [|file rows IH]; intros s t Hshape Hagree.
  - apply map_eq. intros q. destruct (Hagree q); assumption.
  - change (restore_all (file :: rows) t) with (restore_all rows (restore_effect file t)).
    change (restore_all (file :: rows) s) with (restore_all rows (restore_effect file s)) in *.
    destruct (restore_effect_follows file s t _ Hshape Hagree) as [Hshape' Hagree'].
    { intros q Hq. now apply restore_all_kind. }
    now apply IH.
Qed.

Lemma restore_all_idempotent (rows : list FileSnapshot.t) (fs : FS) :
  restore_all rows (restore_all rows fs) = restore_all rows fs.
Proof.
  apply restore_all_absorbs; [intros q; reflexivity | intros q; now left].
Qed.

Lemma with_files_twice (w : World) (a b : FS) :
  with_files (with_files w a) b = with_files w b.
Proof. reflexivity. Qed.

(** A file survives every turn of the loop that restores another path. *)
Lemma restore_effect_keeps_file (g : FileSnapshot.t) (fs : FS) (p : list string)
    (content : string) :
  resolve (FileSnapshot.filePath g) <> p ->
  fs !! p = Some (File content) ->
  restore_effect g fs !! p = Some (File content).
Proof.
  intros Hother Hp. unfold restore_effect.
  destruct (mkdir_recursive _ fs) as [fs1|e1] eqn:Hmk; [|exact Hp].
  assert (H1 : fs1 !! p = Some (File content)).
  { rewrite (mkdir_recursive_lookup _ _ _ _ Hmk).
    destruct (decide (p ∈ _)) as [Hin|]; [|exact Hp].
    exfalso. apply (mkdir_recursive_free _ _ _ Hmk p Hin). now rewrite Hp. }
  destruct (FileSnapshot.content g) as [c|]; [|exact H1].
  destruct (writeFile _ c fs1) as [fs2|e2] eqn:Hw; [|exact H1].
  apply writeFile_inl in Hw as [_ [_ ->]]. now rewrite lookup_insert_ne.
Qed.

Lemma restore_all_keeps_file (rows : list FileSnapshot.t) (p : list string)
    (content : string) :
  (forall g, In g rows -> resolve (FileSnapshot.filePath g) <> p) ->
  forall fs, fs !! p = Some (File content) ->
             restore_all rows fs !! p = Some (File content).
Proof.
  induction rows as [|g rows IH]; intros Hother fs Hp; [exact Hp|].
  change (restore_all (g :: rows) fs) with (restore_all rows (restore_effect g fs)).
  apply IH; [intros h Hh; apply Hother; now right|].
  apply restore_effect_keeps_file; [apply Hother; now left | exact Hp].
Qed.

Lemma restore_all_app (l1 l2 : list FileSnapshot.t) (fs : FS) :
  restore_all (l1 ++ l2) fs = restore_all l2 (restore_all l1 fs).
Proof. unfold restore_all. apply fold_left_app. Qed.

(** The last row recorded for a path leaves its content there, unless the
    path ends up being a directory or running through a file. *)
Lemma restore_all_holds (l1 l2 : list FileSnapshot.t) (f : FileSnapshot.t)
    (content : string) (fs : FS) :
  let p := resolve (FileSnapshot.filePath f) in
  let final := restore_all (l1 ++ f :: l2) fs in
  FileSnapshot.content f = Some content ->
  (forall g, In g l2 -> resolve (FileSnapshot.filePath g) <> p) ->
  p <> [] ->
  kind_of (final !! p) <> IsDir ->
  (forall q, q ∈ ancestors_and_self (dirname p) -> kind_of (final !! q) <> IsFile) ->
  final !! p = Some (File content) /\ is_dir final (dirname p) = true.
Proof.
  intros p final Hcontent Hlast Hne Hnodir Hway.
  unfold final in *. rewrite restore_all_app in *.
  set (s := restore_all l1 fs) in *.
  change (restore_all (f :: l2) s) with (restore_all l2 (restore_effect f s)) in *.
  assert (Hlater : forall q, kind_of (restore_effect f s !! q) <> Absent ->
                             kind_of (restore_all l2 (restore_effect f s) !! q)
                             = kind_of (restore_effect f s !! q))
    by (intros q; apply restore_all_kind).
  assert (Hturn : forall q, kind_of (s !! q) <> Absent ->
                            kind_of (restore_effect f s !! q) = kind_of (s !! q))
    by (intros q; apply restore_effect_kind).
  destruct (mkdir_recursive (dirname p) s) as [s1|e1] eqn:Hmk.
  2:{ exfalso. destruct (mkdir_recursive_inr _ _ _ Hmk) as [q [Hq Hfile]].
      apply (Hway q Hq). rewrite Hlater; rewrite Hturn; rewrite Hfile; done. }
  destruct (writeFile p content s1) as [s2|e2] eqn:Hw.
  2:{ exfalso.
      destruct (writeFile_inr _ _ _ _ Hw (mkdir_recursive_creates _ _ _ Hmk)) as [Hp|Hk];
        [contradiction|].
      apply Hnodir. rewrite Hlater.
      - unfold restore_effect. fold p. rewrite Hmk, Hcontent, Hw. exact Hk.
      - unfold restore_effect. fold p. rewrite Hmk, Hcontent, Hw. rewrite Hk. done. }
  assert (Hstep : restore_effect f s = s2).
  { unfold restore_effect. fold p. now rewrite Hmk, Hcontent, Hw. }
  rewrite Hstep in *. apply writeFile_inl in Hw as [_ [_ ->]].
  split.
  - apply restore_all_keeps_file; [exact Hlast | apply lookup_insert_eq].
  - unfold is_dir. destruct (dirname p) as [|x d] eqn:Hd; [reflexivity|].
    assert (Hin : x :: d ∈ ancestors_and_self (x :: d))
      by (apply self_in_ancestors; discriminate).
    assert (Hdir : kind_of (<[p := File content]> s1 !! (x :: d)) = IsDir).
    { rewrite lookup_insert_ne.
      - rewrite (mkdir_recursive_lookup _ _ _ _ Hmk). now rewrite decide_True.
      - intros Heq. apply (path_not_ancestor p). rewrite Hd, Heq. exact Hin. }
    specialize (Hlater (x :: d)). rewrite Hdir in Hlater.
    assert (Hk : kind_of (restore_all l2 (<[p := File content]> s1) !! (x :: d)) = IsDir)
      by (apply Hlater; discriminate).
    apply kind_dir in Hk. now rewrite Hk.
Qed.

(** C7. For every existing checkpoint, [restoreCheckpoint] returns, and
    calling it a second time right after leaves the file system exactly as
    the first call left it. In that state the path of a non-directory
    snapshot with content holds the content of the last row recorded for it,
    inside an existing directory, provided the path is neither a directory
    nor runs through a regular file. *)
Theorem restoreCheckpoint_idempotent (w : World) (checkpointId : string) (c : Checkpoint.t) :
  select_checkpoint checkpointId (db w) = Some c ->
  exists (r1 r2 : RestoreResult) (w1 : World),
    restoreCheckpoint checkpointId w = (Return r1, w1)
    /\ restoreCheckpoint checkpointId w1 = (Return r2, w1)
    /\ (forall (l1 l2 : list FileSnapshot.t) (f : FileSnapshot.t) (content : string),
           select_files checkpointId (db w) = l1 ++ f :: l2 ->
           FileSnapshot.content f = Some content ->
           let p := resolve (FileSnapshot.filePath f) in
           (forall g, In g l2 -> resolve (FileSnapshot.filePath g) <> p) ->
           p <> [] ->
           kind_of (files w1 !! p) <> IsDir ->
           (forall q, q ∈ ancestors_and_self (dirname p) ->
                      kind_of (files w1 !! q) <> IsFile) ->
           files w1 !! p = Some (File content) /\ is_dir (files w1) (dirname p) = true).
Proof.
  intros Hc.
  destruct (restoreCheckpoint_effect w checkpointId c Hc) as [r1 H1].
  set (fs1 := restore_all (select_files checkpointId (db w)) (files w)) in *.
  destruct (restoreCheckpoint_effect (with_files w fs1) checkpointId c Hc) as [r2 H2].
  exists r1, r2, (with_files w fs1). split; [exact H1|]. split.
  - rewrite H2. simpl. rewrite with_files_twice. unfold fs1.
    now rewrite restore_all_idempotent.
  - intros l1 l2 f content Hrows Hcontent p Hlast Hne Hnodir Hway.
    simpl in *. unfold fs1 in *. rewrite Hrows in *.
    now apply restore_all_holds.
Qed.

(** C7 (witness): restoring checkpoint B of the scenario onto an empty file
    system, twice. *)
Lemma restoreCheckpoint_idempotent_witness :
  exists c,
    select_checkpoint Scenario.B (db Scenario.world) = Some c
    /\ exists (r1 r2 : RestoreResult) (w1 : World),
         restoreCheckpoint Scenario.B Scenario.world = (Return r1, w1)
         /\ restoreCheckpoint Scenario.B w1 = (Return r2, w1)
         /\ files w1 !! ["p"; "x.txt"] = Some (File ("hello world" +:+ JS.nl))
         /\ files w1 !! ["p"; "y.txt"] = Some (File ("new" +:+ JS.nl))
         /\ files w1 !! ["p"] = Some Dir.
Proof.
  eexists. split; [vm_compute; reflexivity|].
  edestruct (restoreCheckpoint_idempotent Scenario.world Scenario.B)
    as [r1 [r2 [w1 [H1 [H2 _]]]]]; [vm_compute; reflexivity|].
  exists r1, r2, w1. split; [exact H1|]. split; [exact H2|].
  assert (Hw1 : files w1 = files (snd (restoreCheckpoint Scenario.B Scenario.world)))
    by now rewrite H1.
  rewrite Hw1. repeat split; vm_compute; reflexivity.
Defined.

(** ** Checkpoint creation and the Stop event *)

Lemma run_cases (stmt : Statement) (w : World) :
  run stmt w
  = if hd false (io_errors w)
    then (Throw (SqliteError "SQLITE_IOERR"), advance w (db w))
    else match stmt (db w) with
         | inl d' => (Return tt, advance w d')
         | inr e => (Throw e, advance w (db w))
         end.
Proof. unfold run, advance. destruct (io_errors w) as [|[] ?]; reflexivity. Qed.

Lemma createCheckpoint_no_files (env : Env) (session : Session.t) (w : World) :
  getProjectFiles env (Session.projectPath session) = Some [] ->
  createCheckpoint env session w = (Return None, w).
Proof.
  intros Hscan. unfold createCheckpoint, try_catch, bind, scan.
  now rewrite Hscan.
Qed.

(** [handleStop] once the session it closes is known. *)
Lemma handleStop_session (env : Env) (data : EventData) (w : World) (s : Session.t) :
  session_to_stop env data w = Some s ->
  handleStop env data w
  = (let* checkpoint := createCheckpoint env s in
     run (update_sessions_where_id (set_end (now env)) (Session.id s)) ;;;
     set_currentSession None ;;;
     ret checkpoint) (with_session w (Some s)).
Proof.
  unfold session_to_stop, handleStop. intros Hs.
  unfold bind at 1 2. unfold get_currentSession at 1.
  destruct (currentSession w) as [s0|] eqn:Hcur.
  - injection Hs as ->. unfold ret at 1. unfold bind at 1, get_currentSession.
    rewrite Hcur. destruct w; simpl in *. now subst.
  - unfold getActiveSession, bind at 1 2, query. rewrite Hs.
    unfold bind at 1, set_currentSession at 1. unfold ret at 1.
    unfold set_currentSession at 1. unfold bind at 1, get_currentSession. simpl.
    unfold with_session. reflexivity.
Qed.

Lemma handleStop_no_session (env : Env) (data : EventData) (w : World) :
  session_to_stop env data w = None ->
  handleStop env data w = (Return None, w).
Proof.
  unfold session_to_stop, handleStop. intros Hs.
  destruct (currentSession w) as [s0|] eqn:Hcur; [discriminate|].
  unfold getActiveSession, get_currentSession, query, bind, ret. cbv beta.
  rewrite Hcur, Hs. now rewrite Hcur.
Qed.

(** A scan that rejects is caught inside [createCheckpoint]. *)
Lemma createCheckpoint_failed_scan (env : Env) (session : Session.t) (w : World) :
  getProjectFiles env (Session.projectPath session) = None ->
  createCheckpoint env session w = (Return None, w).
Proof.
  intros Hscan. unfold createCheckpoint, try_catch, bind, scan.
  now rewrite Hscan.
Qed.

(** And so is a first INSERT that the storage layer refuses. *)
Lemma createCheckpoint_refused (env : Env) (session : Session.t) (w : World)
    (scanned : list FileInfo.t) :
  getProjectFiles env (Session.projectPath session) = Some scanned ->
  scanned <> [] ->
  hd false (io_errors w) = true ->
  createCheckpoint env session w = (Return None, advance w (db w)).
Proof.
  intros Hscan Hne Hio. unfold createCheckpoint, try_catch. unfold bind at 1.
  unfold scan. rewrite Hscan. unfold ret at 1.
  destruct scanned as [|file scanned]; [contradiction|].
  cbn [length Nat.eqb]. unfold bind at 1. rewrite run_cases, Hio. reflexivity.
Qed.

(** C6 (as amended). When the scan of the project of the session being
    closed yields no file, [createCheckpoint] returns null and writes
    nothing, and [handleStop] leaves the tables [checkpoints] and
    [file_snapshots] as they were and returns null to its caller, without
    raising ([handleStop] raises only if the storage layer refuses the
    statement that closes the session). That null does not tell the empty
    scan from an error: when the scan rejects, [createCheckpoint] returns the
    same null in the same state and [handleStop] as a whole answers and
    leaves the manager exactly as for the empty scan; when the scan finds
    files and the storage layer refuses the INSERT of the checkpoint,
    [createCheckpoint] returns null as well, with no row written. *)
Theorem handleStop_no_files (env : Env) (data : EventData) (w : World) (s : Session.t) :
  session_to_stop env data w = Some s ->
  getProjectFiles env (Session.projectPath s) = Some [] ->
  (forall w0, createCheckpoint env s w0 = (Return None, w0))
  /\ checkpoints (db (snd (handleStop env data w))) = checkpoints (db w)
  /\ file_snapshots (db (snd (handleStop env data w))) = file_snapshots (db w)
  /\ (hd false (io_errors w) = false ->
      fst (handleStop env data w) = Return None)
  /\ (forall env' : Env,
         getProjectFiles env' (Session.projectPath s) = None ->
         (forall w0, createCheckpoint env' s w0 = (Return None, w0))
         /\ (session_to_stop env' data w = Some s ->
             now env' = now env ->
             handleStop env' data w = handleStop env data w))
  /\ (forall (env' : Env) (scanned : list FileInfo.t) (w0 : World),
         getProjectFiles env' (Session.projectPath s) = Some scanned ->
         scanned <> [] ->
         hd false (io_errors w0) = true ->
         exists w0',
           createCheckpoint env' s w0 = (Return None, w0') /\ db w0' = db w0).
Proof.
  intros Hs Hscan.
  split; [intros w0; now apply createCheckpoint_no_files|].
  assert (Hstop : exists o w',
             handleStop env data w = (o, w')
             /\ checkpoints (db w') = checkpoints (db w)
             /\ file_snapshots (db w') = file_snapshots (db w)
             /\ (hd false (io_errors w) = false -> o = Return None)).
  { rewrite (handleStop_session _ _ _ _ Hs).
    unfold bind at 1. rewrite (createCheckpoint_no_files _ _ _ Hscan).
    unfold bind at 1. rewrite run_cases. simpl.
    destruct (hd false (io_errors w)); simpl; eexists; eexists;
      (split; [reflexivity|]); repeat split; discriminate. }
  split; [|split; [|split; [|split]]].
  - destruct Hstop as [o [w' [-> H]]]. apply H.
  - destruct Hstop as [o [w' [-> H]]]. apply H.
  - destruct Hstop as [o [w' [-> H]]]. apply H.
  - intros env' Hfail.
    split; [intros w0; now apply createCheckpoint_failed_scan|].
    intros Hs' Hnow.
    assert (Hnull : forall env0 : Env,
               (forall w0, createCheckpoint env0 s w0 = (Return None, w0)) ->
               (let* checkpoint := createCheckpoint env0 s in
                run (update_sessions_where_id (set_end (now env0)) (Session.id s)) ;;;
                set_currentSession None ;;;
                ret checkpoint) (with_session w (Some s))
               = (run (update_sessions_where_id (set_end (now env0)) (Session.id s)) ;;;
                  set_currentSession None ;;;
                  ret None) (with_session w (Some s))).
    { intros env0 H. unfold bind at 1. now rewrite H. }
    rewrite (handleStop_session _ _ _ _ Hs), (handleStop_session _ _ _ _ Hs').
    rewrite (Hnull env) by (intros w0; now apply createCheckpoint_no_files).
    rewrite (Hnull env') by (intros w0; now apply createCheckpoint_failed_scan).
    now rewrite Hnow.
  - intros env' scanned w0 Hfound Hne Hio. eexists.
    split; [exact (createCheckpoint_refused _ _ _ _ Hfound Hne Hio) | reflexivity].
Qed.

(** C6 (witness): a session is open for [/p], whose scan yields no file; the
    same Stop event when the scan rejects. *)
Lemma handleStop_no_files_witness :
  let env := Scenario.env "2024-05-01T10:05:00.000Z" "1001_a" [] in
  let env' := FailedScan.env "2024-05-01T10:05:00.000Z" "1001_a" in
  session_to_stop env Scenario.data CrossProject.started = Some Interrupted.session
  /\ getProjectFiles env "/p" = Some []
  /\ checkpoints (db (snd (handleStop env Scenario.data CrossProject.started))) = []
  /\ file_snapshots (db (snd (handleStop env Scenario.data CrossProject.started))) = []
  /\ fst (handleStop env Scenario.data CrossProject.started) = Return None
  /\ getProjectFiles env' "/p" = None
  /\ handleStop env' Scenario.data CrossProject.started
     = handleStop env Scenario.data CrossProject.started.
Proof.
  intros env env'.
  assert (Hs : session_to_stop env Scenario.data CrossProject.started
               = Some Interrupted.session) by (vm_compute; reflexivity).
  assert (Hs' : session_to_stop env' Scenario.data CrossProject.started
                = Some Interrupted.session) by (vm_compute; reflexivity).
  assert (Hscan : getProjectFiles env (Session.projectPath Interrupted.session) = Some [])
    by reflexivity.
  destruct (handleStop_no_files env Scenario.data CrossProject.started
              Interrupted.session Hs Hscan) as [_ [Hc [Hf [Hr [Hfailed _]]]]].
  split; [exact Hs|]. split; [exact Hscan|].
  split; [exact Hc|]. split; [exact Hf|]. split; [apply Hr; reflexivity|].
  split; [reflexivity|].
  destruct (Hfailed env' eq_refl) as [_ Hsame]. exact (Hsame Hs' eq_refl).
Defined.

(** C6 (counterexample). The answer null does not tell an empty scan from
    an error: the session of [/p] is open and the scan rejects; [handleStop]
    returns null without raising and closes the session, as it does for an
    empty scan, and so does [createCheckpoint] when the storage layer refuses
    its first INSERT. *)
Lemma handleStop_null_on_failed_scan :
  let env := FailedScan.env "2024-05-01T10:05:00.000Z" "1001_a" in
  let w := CrossProject.started in
  session_to_stop env Scenario.data w = Some Interrupted.session
  /\ getProjectFiles env (Session.projectPath Interrupted.session) = None
  /\ fst (handleStop env Scenario.data w) = Return None
  /\ handleStop env Scenario.data w
     = handleStop (Scenario.env "2024-05-01T10:05:00.000Z" "1001_a" []) Scenario.data w
  /\ fst (createCheckpoint Interrupted.env Interrupted.session (Interrupted.before [true]))
     = Return None
  /\ ~ null_means_nothing_to_checkpoint.
Proof.
  cbv zeta.
  split; [vm_compute; reflexivity|]. split; [reflexivity|].
  split; [vm_compute; reflexivity|]. split; [vm_compute; reflexivity|].
  split; [vm_compute; reflexivity|].
  intros Hnull.
  specialize (Hnull (FailedScan.env "2024-05-01T10:05:00.000Z" "1001_a") Scenario.data
                CrossProject.started Interrupted.session).
  assert (Hscan : @None (list FileInfo.t) = Some []); [|discriminate].
  apply Hnull; vm_compute; reflexivity.
Qed.

(** C3 (the code at the failing input). A prompt was submitted in [/p]; a
    [Stop] event then arrives from [/q], which has no active session. The
    handler does not look [/q] up: it takes the cached session of [/p],
    returns a checkpoint of [/p], stores it, and closes the session of
    [/p]. *)
Theorem handleStop_closes_cached_session_of_other_project :
  select_active_session "/q" (db CrossProject.started) = None
  /\ projectPath_of CrossProject.stop_env CrossProject.stop_data = "/q"
  /\ exists checkpoint w',
       handleStop CrossProject.stop_env CrossProject.stop_data CrossProject.started
       = (Return (Some checkpoint), w')
       /\ ci_projectPath checkpoint = "/p"
       /\ map Checkpoint.projectPath (checkpoints (db w')) = ["/p"]
       /\ active_sessions "/p" (db CrossProject.started) = [Interrupted.session]
       /\ active_sessions "/p" (db w') = [].
Proof.
  split; [reflexivity|]. split; [reflexivity|].
  eexists. eexists. split; [vm_compute; reflexivity|].
  repeat split; vm_compute; reflexivity.
Qed.

(** With no cached session and no active session for the project of the
    event, [handleStop] returns null and changes nothing. *)
Lemma handleStop_without_session_is_noop (env : Env) (data : EventData) (w : World) :
  currentSession w = None ->
  select_active_session (projectPath_of env data) (db w) = None ->
  handleStop env data w = (Return None, w).
Proof.
  intros Hcur Hnone. apply handleStop_no_session.
  unfold session_to_stop. now rewrite Hcur.
Qed.

(** With a cached session, the payload of the [Stop] event is not read at
    all: two events from different projects are handled alike. *)
Lemma handleStop_ignores_event_with_cache (env : Env) (data data' : EventData)
    (w : World) (s : Session.t) :
  currentSession w = Some s ->
  handleStop env data w = handleStop env data' w.
Proof.
  intros Hcur.
  assert (Hs : forall d, session_to_stop env d w = Some s)
    by (intros d; unfold session_to_stop; now rewrite Hcur).
  now rewrite (handleStop_session _ _ _ _ (Hs data)),
              (handleStop_session _ _ _ _ (Hs data')).
Qed.

(** ** Checkpoint creation: what is written, and when *)

Lemma createCheckpoint_scanned (env : Env) (session : Session.t) (w : World)
    (scanned : list FileInfo.t) :
  getProjectFiles env (Session.projectPath session) = Some scanned ->
  scanned <> [] ->
  createCheckpoint env session w
  = try_catch
      (run (insert_checkpoint (checkpoint_row env session scanned)) ;;;
       for_of scanned
         (fun file => run (insert_file_snapshot ("checkpoint_" +:+ stamp env) file 0)) ;;;
       run (update_sessions_where_id
              (set_stats (N.of_nat (length scanned)) (checkpoint_now env))
              (Session.id session)) ;;;
       ret (Some (checkpoint_info env session scanned)))
      (fun _ => ret None) w.
Proof.
  intros Hscan Hne. unfold createCheckpoint, try_catch, scan.
  unfold bind at 1. rewrite Hscan. unfold ret at 1.
  destruct scanned as [|file scanned]; [contradiction|]. reflexivity.
Qed.

(** The loop that inserts the snapshots: it completes exactly when no
    storage error is scheduled for its statements, and then it has added one
    row per file. *)
Lemma snapshots_loop (checkpointId : string) (scanned : list FileInfo.t) :
  forall (d : Database) (cs : option Session.t) (fs : FS) (io : list bool),
    has_checkpoint checkpointId d = true ->
    match for_of scanned (fun file => run (insert_file_snapshot checkpointId file 0))
                 (mkWorld d cs fs io) with
    | (Return _, w') =>
        existsb id (firstn (length scanned) io) = false
        /\ w' = mkWorld (add_snapshots d checkpointId scanned) cs fs
                        (skipn (length scanned) io)
    | (Throw _, w') =>
        existsb id (firstn (length scanned) io) = true
    end.
Proof.
  induction scanned as [|file scanned IH]; intros d cs fs io Hcp.
  - simpl. unfold ret. split; [reflexivity|]. unfold add_snapshots. simpl.
    rewrite app_nil_r, Nat.add_0_r. now destruct d.
  - simpl for_of. unfold bind. rewrite run_cases. simpl hd.
    destruct io as [|[] io]; simpl hd; cbv iota.
    + (* no schedule left *)
      unfold insert_file_snapshot. simpl db. rewrite Hcp. simpl negb. cbv iota.
      unfold advance. simpl.
      match goal with |- context [for_of scanned ?body (mkWorld ?d1 cs fs [])] =>
        specialize (IH d1 cs fs [] Hcp) end.
      destruct (for_of scanned _ _) as [[[]|e] w'].
      * destruct IH as [_ ->]. split; [reflexivity|].
        unfold add_snapshots. simpl. rewrite <- app_assoc. simpl.
        rewrite Nat.add_succ_r. now destruct (length scanned).
      * now rewrite firstn_nil in IH.
    + reflexivity.
    + unfold insert_file_snapshot. simpl db. rewrite Hcp. simpl negb. cbv iota.
      unfold advance. simpl.
      match goal with |- context [for_of scanned ?body (mkWorld ?d1 cs fs io)] =>
        specialize (IH d1 cs fs io Hcp) end.
      destruct (for_of scanned _ _) as [[[]|e] w'].
      * destruct IH as [Hio ->]. split; [exact Hio|].
        unfold add_snapshots. simpl. rewrite <- app_assoc. simpl.
        now rewrite Nat.add_succ_r.
      * exact IH.
Qed.

Lemma schedule_split (n : nat) :
  forall io : list bool,
    existsb id (firstn (n + 2) io)
    = hd false io || existsb id (firstn n (tail io)) || hd false (skipn n (tail io)).
Proof.
  induction n as [|n IH]; intros io.
  - destruct io as [|[] [|[] io]]; reflexivity.
  - destruct io as [|a io]; [reflexivity|].
    change (existsb id (firstn (S n + 2) (a :: io)))
      with (a || existsb id (firstn (n + 2) io)).
    rewrite IH. simpl hd. simpl tail.
    destruct io as [|b io].
    + simpl. rewrite firstn_nil, skipn_nil. simpl. now destruct a.
    + change (existsb id (firstn (S n) (b :: io))) with (b || existsb id (firstn n io)).
      simpl. now destruct a, b.
Qed.

Lemma has_checkpoint_added (d : Database) (row : Checkpoint.t) :
  has_checkpoint (Checkpoint.id row) (add_checkpoint d row) = true.
Proof.
  unfold has_checkpoint, add_checkpoint. simpl. rewrite existsb_app. simpl.
  rewrite String.eqb_refl. now rewrite orb_true_r.
Qed.

(** The outcome of [createCheckpoint] on a scan that found files. *)
Lemma createCheckpoint_outcome (env : Env) (session : Session.t) (w : World)
    (scanned : list FileInfo.t) :
  getProjectFiles env (Session.projectPath session) = Some scanned ->
  scanned <> [] ->
  match createCheckpoint env session w with
  | (Return (Some info), w') =>
      can_checkpoint env session scanned w = true
      /\ info = checkpoint_info env session scanned
      /\ db w' = checkpointed env session scanned (db w)
  | (Return None, w') => can_checkpoint env session scanned w = false
  | (Throw _, _) => False
  end.
Proof.
  intros Hscan Hne. rewrite (createCheckpoint_scanned _ _ _ _ Hscan Hne).
  unfold can_checkpoint. rewrite schedule_split.
  destruct w as [d cs fs io]. simpl db. simpl io_errors.
  unfold try_catch. unfold bind at 1. rewrite run_cases. simpl io_errors. simpl db.
  destruct (hd false io) eqn:Hhd.
  { unfold ret. simpl. now rewrite andb_false_r. }
  unfold insert_checkpoint.
  change (Checkpoint.id (checkpoint_row env session scanned))
    with ("checkpoint_" +:+ stamp env).
  change (Checkpoint.sessionId (checkpoint_row env session scanned))
    with (Session.id session).
  destruct (has_checkpoint ("checkpoint_" +:+ stamp env) d) eqn:Hpk.
  { unfold ret. reflexivity. }
  destruct (has_session (Session.id session) d) eqn:Hfk; simpl negb; cbv iota.
  2:{ unfold ret. reflexivity. }
  unfold advance. simpl currentSession. simpl files. simpl io_errors.
  unfold bind at 1.
  pose proof (snapshots_loop ("checkpoint_" +:+ stamp env) scanned
                (add_checkpoint d (checkpoint_row env session scanned)) cs fs (tail io)
                (has_checkpoint_added d (checkpoint_row env session scanned))) as Hloop.
  fold (add_checkpoint d (checkpoint_row env session scanned)).
  destruct (for_of scanned _ _) as [[[]|e] w1].
  2:{ unfold ret. rewrite Hloop. simpl. reflexivity. }
  destruct Hloop as [Hio ->]. rewrite Hio.
  unfold bind at 1. rewrite run_cases. simpl io_errors. simpl db.
  destruct (hd false (skipn (length scanned) (tail io))) eqn:Hlast.
  { unfold ret. reflexivity. }
  unfold update_sessions_where_id, ret. simpl.
  split; [reflexivity|]. split; reflexivity.
Qed.

Lemma select_own_rows (checkpointId : string) (scanned : list FileInfo.t) :
  forall seq,
    List.filter (fun f => String.eqb (FileSnapshot.checkpointId f) checkpointId)
                (snapshot_rows checkpointId scanned seq)
    = snapshot_rows checkpointId scanned seq.
Proof.
  induction scanned as [|file scanned IH]; intros seq; simpl; [reflexivity|].
  now rewrite String.eqb_refl, IH.
Qed.

Lemma select_foreign_rows (checkpointId : string) (d : Database) :
  referential_integrity d ->
  has_checkpoint checkpointId d = false ->
  select_snapshots checkpointId d = [].
Proof.
  intros Hfk Hfresh. unfold select_snapshots.
  assert (Hall : forall f, In f (file_snapshots d) ->
                           String.eqb (FileSnapshot.checkpointId f) checkpointId = false).
  { intros f Hf. apply String.eqb_neq. intros Heq.
    specialize (Hfk f Hf). congruence. }
  induction (file_snapshots d) as [|f l IH]; simpl; [reflexivity|].
  rewrite Hall by now left. apply IH. intros g Hg. apply Hall. now right.
Qed.

(** C1 (as amended). On a scan that found files, [createCheckpoint] never
    raises. When it returns a checkpoint, the checkpoint row and exactly one
    snapshot row per scanned file, in scan order, have been added (on a store
    that respects the foreign key these are all the snapshots of the new
    checkpoint). It does so whenever the checkpoint id is fresh, the session
    row exists and the storage layer lets its [length scanned + 2] write
    statements through; when one of them is refused it returns null. *)
Theorem createCheckpoint_complete_or_null (env : Env) (session : Session.t) (w : World)
    (scanned : list FileInfo.t) :
  getProjectFiles env (Session.projectPath session) = Some scanned ->
  scanned <> [] ->
  let checkpointId := "checkpoint_" +:+ stamp env in
  (exists r w', createCheckpoint env session w = (Return r, w'))
  /\ (forall info w',
         createCheckpoint env session w = (Return (Some info), w') ->
         ci_id info = checkpointId
         /\ ci_fileCount info = length scanned
         /\ checkpoints (db w') = checkpoints (db w) ++ [checkpoint_row env session scanned]
         /\ file_snapshots (db w')
            = file_snapshots (db w)
              ++ snapshot_rows checkpointId scanned (file_snapshots_seq (db w))
         /\ (referential_integrity (db w) ->
             select_snapshots checkpointId (db w')
             = snapshot_rows checkpointId scanned (file_snapshots_seq (db w))))
  /\ (has_checkpoint checkpointId (db w) = false ->
      has_session (Session.id session) (db w) = true ->
      no_io_error (length scanned + 2) w ->
      exists w',
        createCheckpoint env session w
        = (Return (Some (checkpoint_info env session scanned)), w'))
  /\ (~ no_io_error (length scanned + 2) w ->
      fst (createCheckpoint env session w) = Return None).
Proof.
  intros Hscan Hne checkpointId. subst checkpointId.
  pose proof (createCheckpoint_outcome env session w scanned Hscan Hne) as Hout.
  destruct (createCheckpoint env session w) as [[[info|]|e] w1]; [| |contradiction].
  - (* a checkpoint was returned *)
    destruct Hout as [Hcan [-> Hdb]].
    split; [eexists; eexists; reflexivity|].
    split; [|split].
    + intros info w' [= <- <-]. rewrite Hdb.
      split; [reflexivity|]. split; [reflexivity|].
      split; [reflexivity|]. split; [reflexivity|].
      intros Hfk. unfold select_snapshots, checkpointed. simpl.
      rewrite List.filter_app.
      unfold can_checkpoint in Hcan.
      apply andb_prop in Hcan as [Hcan _]. apply andb_prop in Hcan as [Hfresh _].
      apply negb_true_iff in Hfresh.
      pose proof (select_foreign_rows _ _ Hfk Hfresh) as Hold.
      unfold select_snapshots in Hold. rewrite Hold. simpl.
      apply select_own_rows.
    + intros _ _ _. eexists. reflexivity.
    + intros Hio. exfalso. apply Hio. unfold no_io_error.
      unfold can_checkpoint in Hcan. apply andb_prop in Hcan as [_ Hcan].
      now apply negb_true_iff in Hcan.
  - (* null was returned *)
    split; [eexists; eexists; reflexivity|].
    split; [intros info w' [=]|]. split; [|reflexivity].
    intros Hfresh Hsession Hio. exfalso.
    unfold can_checkpoint in Hout.
    unfold no_io_error in Hio. rewrite Hfresh, Hsession, Hio in Hout. discriminate.
Qed.

(** C1 (witness): the open session of [/p] with two scanned files and no
    storage error. *)
Lemma createCheckpoint_complete_or_null_witness :
  let w := Interrupted.before [] in
  getProjectFiles Interrupted.env (Session.projectPath Interrupted.session)
  = Some Scenario.files_B
  /\ Scenario.files_B <> []
  /\ has_checkpoint "checkpoint_1001_a" (db w) = false
  /\ has_session "session_1000_a" (db w) = true
  /\ no_io_error 4 w
  /\ exists w',
       createCheckpoint Interrupted.env Interrupted.session w
       = (Return (Some (checkpoint_info Interrupted.env Interrupted.session
                                        Scenario.files_B)), w').
Proof.
  intros w.
  split; [reflexivity|]. split; [discriminate|].
  split; [reflexivity|]. split; [reflexivity|]. split; [reflexivity|].
  apply (createCheckpoint_complete_or_null Interrupted.env Interrupted.session w
           Scenario.files_B eq_refl); [discriminate | reflexivity ..].
Defined.

(** C1 (counterexample). Creation is not all-or-nothing: with two scanned
    files and a storage error on the second snapshot, [createCheckpoint]
    returns null and leaves the new checkpoint row in the table with one
    snapshot row for two scanned files. *)
Lemma createCheckpoint_not_atomic :
  let w := Interrupted.before [false; false; true] in
  let w' := snd (createCheckpoint Interrupted.env Interrupted.session w) in
  fst (createCheckpoint Interrupted.env Interrupted.session w) = Return None
  /\ map Checkpoint.id (checkpoints (db w)) = []
  /\ map Checkpoint.id (checkpoints (db w')) = ["checkpoint_1001_a"]
  /\ map FileSnapshot.filePath (select_snapshots "checkpoint_1001_a" (db w')) = ["/p/x.txt"]
  /\ length Scenario.files_B = 2
  /\ ~ creation_is_atomic.
Proof.
  cbv zeta.
  split; [vm_compute; reflexivity|]. split; [reflexivity|].
  split; [vm_compute; reflexivity|]. split; [vm_compute; reflexivity|].
  split; [reflexivity|].
  intros Hatomic.
  specialize (Hatomic Interrupted.env Interrupted.session
                (Interrupted.before [false; false; true]) Scenario.files_B eq_refl).
  cbv zeta in Hatomic.
  specialize (Hatomic (checkpoint_row Interrupted.env Interrupted.session Scenario.files_B)).
  assert (Hlen : 1 = 2); [|discriminate].
  apply Hatomic.
  - vm_compute. left. reflexivity.
  - vm_compute. intros [].
Qed.

(** ** Rules for triples *)

Section TripleRules.

Variable Raised : World -> Prop.

Lemma triple_ret {A} (P : World -> Prop) (a : A) (Q : A -> World -> Prop) :
  (forall w, P w -> Q a w) -> triple Raised P (ret a) Q.
Proof. intros H w Hw. now apply H. Qed.

Lemma triple_throw {A} (P : World -> Prop) (e : Error) (Q : A -> World -> Prop) :
  (forall w, P w -> Raised w) -> triple Raised P (throw e) Q.
Proof. intros H w Hw. now apply H. Qed.

Lemma triple_bind {A B} (P : World -> Prop) (m : M A) (R : A -> World -> Prop)
    (k : A -> M B) (Q : B -> World -> Prop) :
  triple Raised P m R ->
  (forall a, triple Raised (R a) (k a) Q) ->
  triple Raised P (bind m k) Q.
Proof.
  intros Hm Hk w Hw. unfold bind. specialize (Hm w Hw).
  destruct (m w) as [[a|e] w']; [now apply Hk | assumption].
Qed.

Lemma triple_try_catch {A} (P : World -> Prop) (m : M A) (handler : Error -> M A)
    (Q : A -> World -> Prop) :
  triple Raised P m Q ->
  (forall e, triple Raised Raised (handler e) Q) ->
  triple Raised P (try_catch m handler) Q.
Proof.
  intros Hm Hh w Hw. unfold try_catch. specialize (Hm w Hw).
  destruct (m w) as [[a|e] w']; [assumption | now apply Hh].
Qed.

Lemma triple_for_of {A} (P : World -> Prop) (xs : list A) (body : A -> M unit) :
  (forall x, triple Raised P (body x) (fun _ => P)) ->
  triple Raised P (for_of xs body) (fun _ => P).
Proof.
  intros Hbody. induction xs as [|x xs IH]; simpl.
  - now apply triple_ret.
  - apply triple_bind with (R := fun _ => P); [apply Hbody | intros _; exact IH].
Qed.

End TripleRules.

(** ** The session table keeps at most one active session per project *)

(** A property of the database alone is kept by every step that is not a
    write statement. *)
Section DatabaseProperty.

Variable K : Database -> Prop.

Lemma triple_run_stable (stmt : Statement) :
  stable K stmt -> triple (on_db K) (on_db K) (run stmt) (fun _ => (on_db K)).
Proof.
  intros Hstable w Hw. rewrite run_cases.
  destruct (hd false (io_errors w)); [exact Hw|].
  destruct (stmt (db w)) as [d'|e] eqn:Hstmt; [|exact Hw].
  exact (Hstable _ _ Hw Hstmt).
Qed.

Lemma triple_set_currentSession (s : option Session.t) :
  triple (on_db K) (on_db K) (set_currentSession s) (fun _ => (on_db K)).
Proof. intros w Hw. exact Hw. Qed.

Lemma triple_get_currentSession :
  triple (on_db K) (on_db K) get_currentSession (fun _ => on_db K).
Proof. intros w Hw. exact Hw. Qed.

Lemma triple_getActiveSession (projectPath : string) :
  triple (on_db K) (on_db K) (getActiveSession projectPath) (fun _ => (on_db K)).
Proof.
  intros w Hw. unfold getActiveSession, bind, query.
  destruct (select_active_session projectPath (db w)); exact Hw.
Qed.

(** [createCheckpoint] keeps any property that its three kinds of
    statements keep, whether it completes or stops half-way. *)
Lemma triple_createCheckpoint (env : Env) (session : Session.t) :
  (forall row, stable K (insert_checkpoint row)) ->
  (forall checkpointId file, stable K (insert_file_snapshot checkpointId file 0)) ->
  (forall n time i, stable K (update_sessions_where_id (set_stats n time) i)) ->
  triple (on_db K) (on_db K) (createCheckpoint env session) (fun _ => (on_db K)).
Proof.
  intros Hcp Hfile Hstats. unfold createCheckpoint.
  apply triple_try_catch; [|intros e; now apply triple_ret].
  apply triple_bind with (R := fun _ => (on_db K)).
  { unfold scan. destruct (getProjectFiles env _);
      [now apply triple_ret | now apply triple_throw]. }
  intros scanned. destruct (length scanned =? 0); [now apply triple_ret|].
  apply triple_bind with (R := fun _ => (on_db K)); [apply triple_run_stable, Hcp|].
  intros _. apply triple_bind with (R := fun _ => (on_db K)).
  { apply triple_for_of. intros file. apply triple_run_stable, Hfile. }
  intros _. apply triple_bind with (R := fun _ => (on_db K)); [apply triple_run_stable, Hstats|].
  intros _. now apply triple_ret.
Qed.

(** [handleStop] keeps any property that the statements of
    [createCheckpoint] and the UPDATE that closes the session keep. *)
Lemma triple_handleStop (env : Env) (data : EventData) :
  (forall row, stable K (insert_checkpoint row)) ->
  (forall checkpointId file, stable K (insert_file_snapshot checkpointId file 0)) ->
  (forall set i, keeps_closed set -> stable K (update_sessions_where_id set i)) ->
  triple (on_db K) (on_db K) (handleStop env data) (fun _ => on_db K).
Proof.
  intros Hcp Hfile Hupdate. unfold handleStop.
  refine (triple_bind _ _ _ (fun _ => on_db K) _ _ _ _).
  { eapply triple_bind; [apply triple_get_currentSession|].
    intros [s|]; [now apply triple_ret|].
    eapply triple_bind; [apply triple_getActiveSession|].
    intros [s|]; [apply triple_set_currentSession | now apply triple_ret]. }
  intros ?. eapply triple_bind; [apply triple_get_currentSession|].
  intros [s|]; [|now apply triple_ret].
  eapply triple_bind.
  { apply triple_createCheckpoint; [exact Hcp | exact Hfile|].
    intros n time i. apply Hupdate. intros projectPath r H. exact H. }
  intros checkpoint. eapply triple_bind.
  { apply triple_run_stable, Hupdate.
    intros projectPath r H. unfold is_active_for in H. simpl in H.
    now rewrite andb_false_r in H. }
  intros ?. eapply triple_bind;
    [apply triple_set_currentSession | intros ?; now apply triple_ret].
Qed.

(** [handleUserPromptSubmit] keeps any property kept by the UPDATE of a
    prompt and by the INSERT of a session for a project without an active
    one. *)
Lemma triple_handleUserPromptSubmit (env : Env) (data : EventData) :
  (forall set i, keeps_closed set -> stable K (update_sessions_where_id set i)) ->
  (forall sessionId projectPath projectName time promptText d d',
      K d -> select_active_session projectPath d = None ->
      insert_session sessionId projectPath projectName time promptText d = inl d' ->
      K d') ->
  triple (on_db K) (on_db K) (handleUserPromptSubmit env data) (fun _ => on_db K).
Proof.
  intros Hupdate Hinsert w Hw. unfold handleUserPromptSubmit, getActiveSession, query.
  unfold bind at 1 2.
  destruct (select_active_session (projectPath_of env data) (db w)) as [s|] eqn:Hsel.
  - unfold bind at 1, set_currentSession at 1. unfold ret at 1.
    unfold bind at 1. rewrite run_cases. simpl.
    destruct (hd false (io_errors w)); [exact Hw|]. simpl.
    eapply Hupdate; [|exact Hw | reflexivity].
    intros projectPath r H. exact H.
  - unfold ret at 1. unfold bind at 1. rewrite run_cases.
    destruct (hd false (io_errors w)); [exact Hw|].
    destruct (insert_session _ _ _ _ _ (db w)) as [d'|e] eqn:Hstmt; [|exact Hw].
    simpl. exact (Hinsert _ _ _ _ _ _ _ Hw Hsel Hstmt).
Qed.

(** And so does the handling of any sequence of events. *)
Lemma after_events_keeps (evs : list (Env * Event)) :
  (forall row, stable K (insert_checkpoint row)) ->
  (forall checkpointId file, stable K (insert_file_snapshot checkpointId file 0)) ->
  (forall set i, keeps_closed set -> stable K (update_sessions_where_id set i)) ->
  (forall sessionId projectPath projectName time promptText d d',
      K d -> select_active_session projectPath d = None ->
      insert_session sessionId projectPath projectName time promptText d = inl d' ->
      K d') ->
  forall w, K (db w) -> K (db (after_events evs w)).
Proof.
  intros Hcp Hfile Hupdate Hinsert.
  induction evs as [|[env ev] evs IH]; intros w Hw; [exact Hw|].
  simpl. apply IH.
  assert (Ht : triple (on_db K) (on_db K) (handleClaudeEvent env ev) (fun _ => on_db K)).
  { destruct ev as [data|data|data|other]; simpl.
    - eapply triple_bind; [now apply triple_handleUserPromptSubmit|].
      intros s. now apply triple_ret.
    - eapply triple_bind; [now apply triple_handleStop|].
      intros c. now apply triple_ret.
    - eapply triple_bind; [apply (triple_ret (on_db K) (on_db K) tt (fun _ => on_db K)); auto|].
      intros ?. now apply triple_ret.
    - now apply triple_ret. }
  specialize (Ht w Hw). destruct (handleClaudeEvent env ev w) as [[r|e] w']; exact Ht.
Qed.

End DatabaseProperty.

Lemma active_after_update (set : Session.t -> Session.t) (i projectPath : string)
    (rows : list Session.t) :
  keeps_closed set ->
  length (List.filter (is_active_for projectPath)
            (map (fun s => if String.eqb (Session.id s) i then set s else s) rows))
  <= length (List.filter (is_active_for projectPath) rows).
Proof.
  intros Hset. induction rows as [|s rows IH]; simpl; [lia|].
  destruct (String.eqb (Session.id s) i).
  - destruct (is_active_for projectPath (set s)) eqn:Hafter.
    + rewrite (Hset _ _ Hafter). simpl. lia.
    + destruct (is_active_for projectPath s); simpl; lia.
  - destruct (is_active_for projectPath s); simpl; lia.
Qed.

Lemma update_stable (set : Session.t -> Session.t) (i : string) :
  keeps_closed set -> stable at_most_one_active (update_sessions_where_id set i).
Proof.
  intros Hset d d' Hd [= <-] projectPath. unfold active_sessions. simpl.
  etransitivity; [now apply active_after_update | apply Hd].
Qed.

Lemma insert_checkpoint_stable (row : Checkpoint.t) :
  stable at_most_one_active (insert_checkpoint row).
Proof.
  intros d d' Hd Hstmt. unfold insert_checkpoint in Hstmt.
  destruct (has_checkpoint _ d); [discriminate|].
  destruct (has_session _ d); [|discriminate].
  injection Hstmt as <-. exact Hd.
Qed.

Lemma insert_file_snapshot_stable (checkpointId : string) (file : FileInfo.t) (dir : N) :
  stable at_most_one_active (insert_file_snapshot checkpointId file dir).
Proof.
  intros d d' Hd Hstmt. unfold insert_file_snapshot in Hstmt.
  destruct (has_checkpoint _ d); [|discriminate].
  injection Hstmt as <-. exact Hd.
Qed.

Lemma latest_started_nonempty (rows : list Session.t) :
  latest_started rows = None -> rows = [].
Proof.
  unfold latest_started.
  assert (H : forall l best,
             fold_left
               (fun best s =>
                  match best with
                  | None => Some s
                  | Some b =>
                      if String.ltb (Session.sessionStartTime b) (Session.sessionStartTime s)
                      then Some s else Some b
                  end) l (Some best) <> None).
  { induction l as [|s l IH]; intros best; simpl; [discriminate|].
    destruct (String.ltb _ _); apply IH. }
  destruct rows as [|s rows]; [reflexivity|]. simpl. intros Hnone.
  now apply H in Hnone.
Qed.

Lemma latest_started_In (rows : list Session.t) (s : Session.t) :
  latest_started rows = Some s -> In s rows.
Proof.
  unfold latest_started.
  assert (H : forall best,
             fold_left
               (fun best s =>
                  match best with
                  | None => Some s
                  | Some b =>
                      if String.ltb (Session.sessionStartTime b) (Session.sessionStartTime s)
                      then Some s else Some b
                  end) rows best = Some s ->
             best = Some s \/ In s rows).
  { induction rows as [|r rows IH]; intros best Hbest; simpl in *; [now left|].
    apply IH in Hbest as [Hbest|Hin]; [|right; now right].
    destruct best as [b|].
    - destruct (String.ltb _ _); injection Hbest as <-; [right; now left | now left].
    - injection Hbest as <-. right. now left. }
  intros Hs. destruct (H None Hs) as [?|?]; [discriminate | assumption].
Qed.

(** Opening a session for a project that has no active one. *)
Lemma insert_session_keeps (sessionId projectPath projectName time promptText : string)
    (d d' : Database) :
  at_most_one_active d ->
  select_active_session projectPath d = None ->
  insert_session sessionId projectPath projectName time promptText d = inl d' ->
  at_most_one_active d'.
Proof.
  intros Hd Hnone Hstmt. unfold insert_session in Hstmt.
  destruct (has_session sessionId d); [discriminate|]. injection Hstmt as <-.
  intros path. unfold active_sessions. simpl. rewrite List.filter_app, length_app.
  simpl. unfold is_active_for at 2. simpl. rewrite andb_true_r.
  destruct (String.eqb_spec projectPath path) as [->|Hne]; simpl.
  - apply latest_started_nonempty in Hnone. rewrite Hnone. simpl. lia.
  - specialize (Hd path). unfold active_sessions in Hd. lia.
Qed.

Lemma after_events_Inv (evs : list (Env * Event)) :
  forall w, Inv w -> Inv (after_events evs w).
Proof.
  apply (after_events_keeps at_most_one_active).
  - apply insert_checkpoint_stable.
  - intros checkpointId file. apply insert_file_snapshot_stable.
  - intros set i. apply update_stable.
  - intros sessionId projectPath projectName time promptText d d'.
    apply insert_session_keeps.
Qed.

(** A [UserPromptSubmit] event for a project with an active session. *)
Lemma handleUserPromptSubmit_active (env : Env) (data : EventData) (w : World)
    (s : Session.t) :
  select_active_session (projectPath_of env data) (db w) = Some s ->
  handleUserPromptSubmit env data w
  = if hd false (io_errors w)
    then (Throw (SqliteError "SQLITE_IOERR"), advance (with_session w (Some s)) (db w))
    else (Return (refresh_cached (extract_promptText data) (now env) s),
          with_session
            (advance w (mkDatabase
                          (refresh_rows (extract_promptText data) (now env) (Session.id s)
                                        (sessions (db w)))
                          (checkpoints (db w)) (file_snapshots (db w))
                          (file_snapshots_seq (db w))))
            (Some (refresh_cached (extract_promptText data) (now env) s))).
Proof.
  intros Hsel. unfold handleUserPromptSubmit, getActiveSession, query.
  unfold bind at 1 2. rewrite Hsel.
  unfold bind at 1, set_currentSession at 1. unfold ret at 1.
  unfold bind at 1. rewrite run_cases. simpl.
  destruct (hd false (io_errors w)); reflexivity.
Qed.

Lemma select_active_session_In (projectPath : string) (d : Database) (s : Session.t) :
  select_active_session projectPath d = Some s ->
  In s (sessions d)
  /\ Session.projectPath s = projectPath
  /\ Session.sessionEndTime s = None.
Proof.
  unfold select_active_session. intros Hs.
  apply latest_started_In, filter_In in Hs as [Hin Hactive].
  unfold is_active_for in Hactive. apply andb_prop in Hactive as [Hpath Hend].
  apply String.eqb_eq in Hpath.
  destruct (Session.sessionEndTime s); [discriminate | auto].
Qed.

Lemma refresh_rows_ids (promptText time i : string) (rows : list Session.t) :
  map Session.id (refresh_rows promptText time i rows) = map Session.id rows.
Proof.
  unfold refresh_rows. rewrite map_map. apply map_ext.
  intros r. now destruct (String.eqb (Session.id r) i).
Qed.

Lemma new_CheckpointManager_Inv (fs : FS) (schedule : list bool) :
  Inv (new_CheckpointManager fs schedule).
Proof. intros projectPath. simpl. lia. Qed.

Lemma refreshed_row (promptText time i : string) (rows : list Session.t) (n : nat)
    (r : Session.t) :
  nth_error rows n = Some r ->
  exists r',
    nth_error (refresh_rows promptText time i rows) n = Some r'
    /\ (Session.id r <> i -> r' = r)
    /\ (Session.id r = i ->
        Session.lastPrompt r' = Some promptText
        /\ Session.lastPromptTime r' = Some time
        /\ Session.updatedAt r' = time
        /\ Session.id r' = Session.id r
        /\ Session.projectPath r' = Session.projectPath r
        /\ Session.projectName r' = Session.projectName r
        /\ Session.totalCheckpoints r' = Session.totalCheckpoints r
        /\ Session.totalFileChanges r' = Session.totalFileChanges r
        /\ Session.sessionStartTime r' = Session.sessionStartTime r
        /\ Session.sessionEndTime r' = Session.sessionEndTime r
        /\ Session.createdAt r' = Session.createdAt r).
Proof.
  intros Hr. unfold refresh_rows. rewrite nth_error_map, Hr. simpl.
  eexists. split; [reflexivity|].
  destruct (String.eqb_spec (Session.id r) i) as [Heq|Hne].
  - split; [intros Hne; contradiction|]. intros _. repeat split.
  - split; [reflexivity | intros Heq; contradiction].
Qed.

(** C4. After any sequence of events handled by a manager that starts on an
    empty store (and, more generally, from any store that satisfies it), at
    most one session row of each project has no end time. A [UserPromptSubmit]
    event for a project that has an active session creates no session row: the
    ids in the table are the same, and unless the storage layer refuses the
    UPDATE, the row of the active session has its [lastPrompt],
    [lastPromptTime] (and [updatedAt]) set, every other row is untouched, and
    the refreshed session is returned. Row by row: the table has as many
    rows as before; a row with another id is the row it was; a row with the
    id of the active session holds the prompt of the event as [lastPrompt]
    and the time of the event as [lastPromptTime] and [updatedAt], its other
    columns being what they were; the tables of checkpoints and snapshots
    are the same. *)
Theorem at_most_one_active_session :
  (forall (evs : list (Env * Event)) (fs : FS) (schedule : list bool),
      at_most_one_active (db (after_events evs (new_CheckpointManager fs schedule))))
  /\ (forall (evs : list (Env * Event)) (w : World),
         at_most_one_active (db w) -> at_most_one_active (db (after_events evs w)))
  /\ (forall (env : Env) (data : EventData) (w : World) (s : Session.t),
         select_active_session (projectPath_of env data) (db w) = Some s ->
         let w' := snd (handleUserPromptSubmit env data w) in
         In s (sessions (db w))
         /\ Session.projectPath s = projectPath_of env data
         /\ Session.sessionEndTime s = None
         /\ map Session.id (sessions (db w')) = map Session.id (sessions (db w))
         /\ (hd false (io_errors w) = false ->
             sessions (db w')
             = refresh_rows (extract_promptText data) (now env) (Session.id s)
                            (sessions (db w))
             /\ exists r,
                  fst (handleUserPromptSubmit env data w) = Return r
                  /\ Session.id r = Session.id s
                  /\ Session.lastPrompt r = Some (extract_promptText data)
                  /\ Session.lastPromptTime r = Some (now env))
         /\ (hd false (io_errors w) = false ->
             length (sessions (db w')) = length (sessions (db w))
             /\ checkpoints (db w') = checkpoints (db w)
             /\ file_snapshots (db w') = file_snapshots (db w)
             /\ (forall n row,
                    nth_error (sessions (db w)) n = Some row ->
                    exists row',
                      nth_error (sessions (db w')) n = Some row'
                      /\ (Session.id row <> Session.id s -> row' = row)
                      /\ (Session.id row = Session.id s ->
                          Session.lastPrompt row' = Some (extract_promptText data)
                          /\ Session.lastPromptTime row' = Some (now env)
                          /\ Session.updatedAt row' = now env
                          /\ Session.id row' = Session.id row
                          /\ Session.projectPath row' = Session.projectPath row
                          /\ Session.projectName row' = Session.projectName row
                          /\ Session.totalCheckpoints row' = Session.totalCheckpoints row
                          /\ Session.totalFileChanges row' = Session.totalFileChanges row
                          /\ Session.sessionStartTime row' = Session.sessionStartTime row
                          /\ Session.sessionEndTime row' = Session.sessionEndTime row
                          /\ Session.createdAt row' = Session.createdAt row))
             /\ exists row',
                  In row' (sessions (db w'))
                  /\ Session.id row' = Session.id s
                  /\ Session.lastPrompt row' = Some (extract_promptText data)
                  /\ Session.lastPromptTime row' = Some (now env)
                  /\ Session.sessionEndTime row' = None)).
Proof.
  split; [|split].
  - intros evs fs schedule. apply (after_events_Inv evs), new_CheckpointManager_Inv.
  - intros evs w Hw. now apply (after_events_Inv evs).
  - intros env data w s Hsel.
    destruct (select_active_session_In _ _ _ Hsel) as [Hin [Hpath Hend]].
    rewrite (handleUserPromptSubmit_active _ _ _ _ Hsel).
    destruct (hd false (io_errors w)); simpl.
    + repeat split; try assumption; try reflexivity; discriminate.
    + split; [assumption|]. split; [assumption|]. split; [assumption|].
      split; [apply refresh_rows_ids|]. split.
      * intros _. split; [reflexivity|]. eexists. repeat split.
      * intros _.
        split; [rewrite <- (length_map Session.id), refresh_rows_ids;
                apply length_map|].
        split; [reflexivity|]. split; [reflexivity|]. split.
        -- intros n row Hrow. now apply refreshed_row.
        -- apply In_nth_error in Hin as [n Hn].
           destruct (refreshed_row (extract_promptText data) (now env) (Session.id s)
                       _ _ _ Hn) as [row' [Hrow' [_ Hset]]].
           destruct (Hset eq_refl)
             as [Hprompt [Htime [_ [Hid [_ [_ [_ [_ [_ [Hended _]]]]]]]]]].
           exists row'. split; [exact (nth_error_In _ _ Hrow')|].
           split; [exact Hid|]. split; [exact Hprompt|]. split; [exact Htime|].
           now rewrite Hended.
Qed.

(** C4 (witness): the scenario's manager after the first prompt, receiving a
    second prompt for the same project. *)
Lemma at_most_one_active_session_witness :
  let env := Scenario.env "2024-05-01T10:01:00.000Z" "1000_b" Scenario.files_A in
  let data := {| cwd := Some "/p"; promptSources := None;
                 possiblePrompt := Some "add a test for the parser" |} in
  let w := CrossProject.started in
  let w' := snd (handleUserPromptSubmit env data w) in
  at_most_one_active (db w)
  /\ at_most_one_active (db (after_events [(env, UserPromptSubmit data)] w))
  /\ select_active_session "/p" (db w) = Some Interrupted.session
  /\ map Session.id (sessions (db w')) = ["session_1000_a"]
  /\ map Session.lastPrompt (sessions (db w')) = [Some "add a test for the parser"]
  /\ map Session.lastPromptTime (sessions (db w)) = [Some "2024-05-01T10:00:00.000Z"]
  /\ exists row',
       In row' (sessions (db w'))
       /\ Session.id row' = "session_1000_a"
       /\ Session.lastPrompt row' = Some "add a test for the parser"
       /\ Session.lastPromptTime row' = Some "2024-05-01T10:01:00.000Z"
       /\ Session.sessionEndTime row' = None.
Proof.
  cbv zeta.
  pose proof at_most_one_active_session as [Hinit [Hstep Hrefresh]].
  assert (Hw : at_most_one_active (db CrossProject.started)).
  { apply (Hinit [ (Scenario.env "2024-05-01T10:00:00.000Z" "1000_a" Scenario.files_A,
                    UserPromptSubmit Scenario.data) ] ∅ []). }
  split; [exact Hw|]. split; [now apply Hstep|].
  split; [vm_compute; reflexivity|].
  destruct (Hrefresh
              (Scenario.env "2024-05-01T10:01:00.000Z" "1000_b" Scenario.files_A)
              {| cwd := Some "/p"; promptSources := None;
                 possiblePrompt := Some "add a test for the parser" |}
              CrossProject.started Interrupted.session)
    as [_ [_ [_ [Hids [Hrows Hexplicit]]]]]; [vm_compute; reflexivity|].
  split; [rewrite Hids; vm_compute; reflexivity|].
  split; [destruct (Hrows eq_refl) as [-> _]; vm_compute; reflexivity|].
  split; [vm_compute; reflexivity|].
  destruct (Hexplicit eq_refl) as [_ [_ [_ [_ Hrow]]]]. exact Hrow.
Defined.

(** ** Deleting a checkpoint *)

Lemma has_checkpoint_In (i : string) (d : Database) :
  has_checkpoint i d = true <-> exists c, In c (checkpoints d) /\ Checkpoint.id c = i.
Proof.
  unfold has_checkpoint. rewrite existsb_exists.
  split; intros [c [Hc Hid]]; exists c; split; try assumption;
    now apply String.eqb_eq.
Qed.

Lemma select_checkpoint_None (i : string) (d : Database) :
  select_checkpoint i d = None <-> has_checkpoint i d = false.
Proof.
  unfold select_checkpoint, has_checkpoint.
  induction (checkpoints d) as [|c cs IH]; simpl; [tauto|].
  destruct (String.eqb (Checkpoint.id c) i); simpl; [split; discriminate | exact IH].
Qed.

Lemma run_passes (stmt : Statement) (w : World) (d' : Database) :
  hd false (io_errors w) = false ->
  stmt (db w) = inl d' ->
  run stmt w
  = (Return tt, {| db := d'; currentSession := currentSession w; files := files w;
                   io_errors := tail (io_errors w) |}).
Proof.
  intros Hio Hstmt. unfold run. rewrite Hstmt.
  destruct (io_errors w) as [|[] ?]; simpl in Hio; [reflexivity | discriminate | reflexivity].
Qed.

(** What the DELETE statement does to a store that respects the foreign
    key. *)
Lemma delete_statement_cascades (d : Database) (i : string) :
  referential_integrity d ->
  exists d',
    delete_checkpoint_where_id i d = inl d'
    /\ (forall f, In f (file_snapshots d') -> FileSnapshot.checkpointId f <> i)
    /\ select_checkpoint i d' = None
    /\ (forall f, In f (file_snapshots d) -> FileSnapshot.checkpointId f <> i ->
                  In f (file_snapshots d'))
    /\ referential_integrity d'.
Proof.
  intros Hfk. eexists. split; [reflexivity|]. simpl.
  set (deleted := List.filter (fun c => String.eqb (Checkpoint.id c) i) (checkpoints d)).
  assert (Hdeleted : forall c, In c deleted <-> In c (checkpoints d) /\ Checkpoint.id c = i).
  { intros c. unfold deleted. rewrite filter_In, String.eqb_eq. reflexivity. }
  assert (Hcascade : forall f,
             existsb (fun c => String.eqb (Checkpoint.id c) (FileSnapshot.checkpointId f))
                     deleted = true
             <-> exists c, In c (checkpoints d) /\ Checkpoint.id c = i
                           /\ FileSnapshot.checkpointId f = i).
  { intros f. rewrite existsb_exists. split.
    - intros [c [Hc Hid]]. apply Hdeleted in Hc as [Hc Hci].
      apply String.eqb_eq in Hid. exists c. repeat split; congruence.
    - intros [c [Hc [Hci Hf]]]. exists c. split; [now apply Hdeleted|].
      apply String.eqb_eq. congruence. }
  split; [|split; [|split]].
  - intros f Hf Hid. apply filter_In in Hf as [Hf Hkeep].
    destruct (proj1 (has_checkpoint_In _ _) (Hfk f Hf)) as [c [Hc Hcid]].
    apply negb_true_iff, not_true_iff_false in Hkeep. apply Hkeep, Hcascade.
    exists c. repeat split; congruence.
  - apply select_checkpoint_None. apply not_true_iff_false.
    rewrite has_checkpoint_In. simpl. intros [c [Hc Hid]].
    apply filter_In in Hc as [_ Hne]. apply negb_true_iff, String.eqb_neq in Hne.
    contradiction.
  - intros f Hf Hid. apply filter_In. split; [assumption|].
    apply negb_true_iff, not_true_iff_false. rewrite Hcascade.
    intros [c [_ [_ Heq]]]. contradiction.
  - intros f Hf. apply filter_In in Hf as [Hf Hkeep].
    apply negb_true_iff, not_true_iff_false in Hkeep.
    destruct (proj1 (has_checkpoint_In _ _) (Hfk f Hf)) as [c [Hc Hcid]].
    apply has_checkpoint_In. exists c. split; [|assumption]. simpl.
    apply filter_In. split; [assumption|].
    apply negb_true_iff, String.eqb_neq. intros Hci.
    apply Hkeep, Hcascade. exists c. repeat split; congruence.
Qed.

(** The foreign key of [file_snapshots] holds in every store the manager
    builds. *)
Lemma after_events_integrity (evs : list (Env * Event)) :
  forall w, referential_integrity (db w) -> referential_integrity (db (after_events evs w)).
Proof.
  apply (after_events_keeps referential_integrity).
  - intros row d d' Hd Hstmt. unfold insert_checkpoint in Hstmt.
    destruct (has_checkpoint _ d); [discriminate|].
    destruct (has_session _ d); [|discriminate]. injection Hstmt as <-.
    intros f Hf. specialize (Hd f Hf). unfold has_checkpoint in *. simpl.
    rewrite existsb_app, Hd. reflexivity.
  - intros checkpointId file d d' Hd Hstmt. unfold insert_file_snapshot in Hstmt.
    destruct (has_checkpoint checkpointId d) eqn:Hcp; [|discriminate].
    injection Hstmt as <-. intros f Hf. simpl in Hf.
    apply in_app_or in Hf as [Hf|[<-|[]]]; [exact (Hd f Hf) | exact Hcp].
  - intros set i _ d d' Hd [= <-]. exact Hd.
  - intros sessionId projectPath projectName time promptText d d' Hd _ Hstmt.
    unfold insert_session in Hstmt. destruct (has_session sessionId d); [discriminate|].
    injection Hstmt as <-. exact Hd.
Qed.

(** C2. On a store that respects the foreign key of [file_snapshots], a
    [deleteCheckpoint] that the storage layer lets through returns, and
    afterwards no snapshot row carries the deleted id, the checkpoint row is
    gone, the snapshots of the other checkpoints are all still there, and the
    foreign key still holds. Every store that the manager builds from an
    empty one by handling events respects the foreign key. *)
Theorem deleteCheckpoint_cascades :
  (forall (w : World) (checkpointId : string),
      referential_integrity (db w) ->
      hd false (io_errors w) = false ->
      exists w',
        deleteCheckpoint checkpointId w = (Return tt, w')
        /\ (forall f, In f (file_snapshots (db w')) ->
                      FileSnapshot.checkpointId f <> checkpointId)
        /\ select_checkpoint checkpointId (db w') = None
        /\ (forall f, In f (file_snapshots (db w)) ->
                      FileSnapshot.checkpointId f <> checkpointId ->
                      In f (file_snapshots (db w')))
        /\ referential_integrity (db w'))
  /\ (forall (evs : list (Env * Event)) (fs : FS) (schedule : list bool),
         referential_integrity (db (after_events evs (new_CheckpointManager fs schedule)))).
Proof.
  split.
  - intros w checkpointId Hfk Hio.
    destruct (delete_statement_cascades (db w) checkpointId Hfk) as [d' [Hstmt Hd']].
    eexists. split; [exact (run_passes _ _ _ Hio Hstmt)|]. exact Hd'.
  - intros evs fs schedule. apply after_events_integrity. intros f [].
Qed.

(** C2 (witness): deleting checkpoint A of the scenario. *)
Lemma deleteCheckpoint_cascades_witness :
  referential_integrity (db Scenario.world)
  /\ hd false (io_errors Scenario.world) = false
  /\ exists w',
       deleteCheckpoint Scenario.A Scenario.world = (Return tt, w')
       /\ (forall f, In f (file_snapshots (db w')) ->
                     FileSnapshot.checkpointId f <> Scenario.A)
       /\ select_checkpoint Scenario.A (db w') = None
       /\ (forall f, In f (file_snapshots (db Scenario.world)) ->
                     FileSnapshot.checkpointId f <> Scenario.A ->
                     In f (file_snapshots (db w')))
       /\ referential_integrity (db w').
Proof.
  assert (Hfk : referential_integrity (db Scenario.world))
    by apply (proj2 deleteCheckpoint_cascades).
  split; [exact Hfk|]. split; [reflexivity|].
  apply (proj1 deleteCheckpoint_cascades); [exact Hfk | reflexivity].
Defined.

(** ** The store under every operation *)

Lemma NoDup_map_filter {A B} (f : A -> B) (p : A -> bool) (l : list A) :
  List.NoDup (map f l) -> List.NoDup (map f (List.filter p l)).
Proof.
  induction l as [|x l IH]; simpl; intros Hnd; [constructor|].
  inversion Hnd as [|? ? Hx Hl]; subst.
  destruct (p x); simpl; [|now apply IH].
  constructor; [|now apply IH].
  intros Hin. apply Hx. apply in_map_iff in Hin as [y [Hy Hin]].
  apply filter_In in Hin as [Hin _]. apply in_map_iff. now exists y.
Qed.

Lemma NoDup_snoc {A} (x : A) (l : list A) :
  List.NoDup l -> ~ In x l -> List.NoDup (l ++ [x]).
Proof.
  induction l as [|y l IH]; simpl; intros Hnd Hx.
  - constructor; [intros [] | constructor].
  - inversion Hnd as [|? ? Hy Hl]; subst. constructor.
    + rewrite in_app_iff. intros [Hin|[Heq|[]]]; [now apply Hy | subst; apply Hx; now left].
    + apply IH; [assumption | intros Hin; apply Hx; now right].
Qed.

Lemma has_session_In (i : string) (d : Database) :
  has_session i d = true <-> exists s, In s (sessions d) /\ Session.id s = i.
Proof.
  unfold has_session. rewrite existsb_exists.
  split; intros [s [Hs Hid]]; exists s; split; try assumption;
    now apply String.eqb_eq.
Qed.

Lemma has_session_ids (i : string) (d d' : Database) :
  map Session.id (sessions d') = map Session.id (sessions d) ->
  has_session i d' = has_session i d.
Proof.
  intros Hids. unfold has_session.
  assert (H : forall l, existsb (fun s => String.eqb (Session.id s) i) l
                        = existsb (fun x => String.eqb x i) (map Session.id l)).
  { induction l as [|s l IH]; simpl; [reflexivity | now rewrite IH]. }
  now rewrite !H, Hids.
Qed.

Lemma has_checkpoint_same (i : string) (d d' : Database) :
  checkpoints d' = checkpoints d -> has_checkpoint i d' = has_checkpoint i d.
Proof. intros H. unfold has_checkpoint. now rewrite H. Qed.

Lemma updated_ids (set : Session.t -> Session.t) (i : string) (rows : list Session.t) :
  (forall s, Session.id (set s) = Session.id s) ->
  map Session.id (map (fun s => if String.eqb (Session.id s) i then set s else s) rows)
  = map Session.id rows.
Proof.
  intros Hid. rewrite map_map. apply map_ext. intros s.
  destruct (String.eqb (Session.id s) i); [apply Hid | reflexivity].
Qed.

(** An UPDATE of session rows that keeps their ids and never opens a
    closed session keeps the store in order. *)
Lemma store_ok_update (set : Session.t -> Session.t) (i : string) (d d' : Database) :
  (forall s, Session.id (set s) = Session.id s) ->
  keeps_closed set ->
  store_ok d -> update_sessions_where_id set i d = inl d' -> store_ok d'.
Proof.
  intros Hid Hclosed [Hs Hc Hcs Hfk Hf Ha] Hstmt.
  assert (Hids : map Session.id (sessions d') = map Session.id (sessions d)).
  { injection Hstmt as <-. simpl. now apply updated_ids. }
  assert (Hcp : checkpoints d' = checkpoints d) by (now injection Hstmt as <-).
  assert (Hfs : file_snapshots d' = file_snapshots d) by (now injection Hstmt as <-).
  assert (Hseq : file_snapshots_seq d' = file_snapshots_seq d) by (now injection Hstmt as <-).
  constructor.
  - now rewrite Hids.
  - now rewrite Hcp.
  - intros c Hc'. rewrite Hcp in Hc'. rewrite (has_session_ids _ _ _ Hids). now apply Hcs.
  - intros f Hf'. rewrite Hfs in Hf'. rewrite (has_checkpoint_same _ _ _ Hcp). now apply Hfk.
  - now rewrite Hfs, Hseq.
  - exact (update_stable set i Hclosed d d' Ha Hstmt).
Qed.

Lemma store_ok_insert_session (sessionId projectPath projectName time promptText : string)
    (d d' : Database) :
  store_ok d ->
  select_active_session projectPath d = None ->
  insert_session sessionId projectPath projectName time promptText d = inl d' ->
  store_ok d'.
Proof.
  intros [Hs Hc Hcs Hfk Hf Ha] Hnone Hstmt.
  pose proof (insert_session_keeps _ _ _ _ _ _ _ Ha Hnone Hstmt) as Ha'.
  unfold insert_session in Hstmt.
  destruct (has_session sessionId d) eqn:Hfresh; [discriminate|].
  injection Hstmt as <-. constructor; simpl; try assumption.
  - rewrite map_app. simpl. apply NoDup_snoc; [assumption|].
    intros Hx. apply not_true_iff_false in Hfresh. apply Hfresh.
    apply has_session_In. apply in_map_iff in Hx as [s [Hid Hin]]. now exists s.
  - intros c Hc'. specialize (Hcs c Hc'). unfold has_session in *. simpl.
    rewrite existsb_app, Hcs. reflexivity.
Qed.

Lemma store_ok_insert_checkpoint (row : Checkpoint.t) (d d' : Database) :
  store_ok d -> insert_checkpoint row d = inl d' -> store_ok d'.
Proof.
  intros [Hs Hc Hcs Hfk Hf Ha] Hstmt. unfold insert_checkpoint in Hstmt.
  destruct (has_checkpoint (Checkpoint.id row) d) eqn:Hfresh; [discriminate|].
  destruct (has_session (Checkpoint.sessionId row) d) eqn:Hsession; [|discriminate].
  injection Hstmt as <-. constructor; simpl; try assumption.
  - rewrite map_app. simpl. apply NoDup_snoc; [assumption|].
    intros Hx. apply not_true_iff_false in Hfresh. apply Hfresh.
    apply has_checkpoint_In. apply in_map_iff in Hx as [c [Hid Hin]]. now exists c.
  - intros c Hc'. apply in_app_or in Hc' as [Hc'|[<-|[]]]; [now apply Hcs | exact Hsession].
  - intros f Hf'. specialize (Hfk f Hf'). unfold has_checkpoint in *. simpl.
    rewrite existsb_app, Hfk. reflexivity.
Qed.

Lemma store_ok_insert_file_snapshot (checkpointId : string) (file : FileInfo.t) (dir : N)
    (d d' : Database) :
  store_ok d -> insert_file_snapshot checkpointId file dir d = inl d' -> store_ok d'.
Proof.
  intros [Hs Hc Hcs Hfk [Hids Hbound] Ha] Hstmt. unfold insert_file_snapshot in Hstmt.
  destruct (has_checkpoint checkpointId d) eqn:Hcp; [|discriminate].
  injection Hstmt as <-. constructor; simpl; try assumption.
  - intros f Hf'. apply in_app_or in Hf' as [Hf'|[<-|[]]]; [now apply Hfk | exact Hcp].
  - split.
    + rewrite map_app. simpl. apply NoDup_snoc; [assumption|].
      intros Hx. apply in_map_iff in Hx as [f [Hid Hin]].
      specialize (Hbound f Hin). lia.
    + intros f Hf'. apply in_app_or in Hf' as [Hf'|[<-|[]]]; [|simpl; lia].
      specialize (Hbound f Hf'). lia.
Qed.

Lemma filter_none {A} (l : list A) : List.filter (fun _ => false) l = [].
Proof. induction l; simpl; auto. Qed.

Lemma filter_filter_length {A} (p q : A -> bool) (l : list A) :
  length (List.filter p (List.filter q l)) <= length (List.filter p l).
Proof.
  induction l as [|x l IH]; simpl; [lia|].
  destruct (q x); simpl; destruct (p x); simpl; lia.
Qed.

(** Deleting checkpoint rows, with the snapshots of the rows deleted. *)
Lemma store_ok_delete_checkpoints (q : Checkpoint.t -> bool) (deleted : list Checkpoint.t)
    (d : Database) :
  (forall c, In c (checkpoints d) -> q c = false -> In c deleted) ->
  store_ok d ->
  store_ok {| sessions := sessions d;
              checkpoints := List.filter q (checkpoints d);
              file_snapshots := List.filter (fun f => negb (cascaded_with deleted f))
                                            (file_snapshots d);
              file_snapshots_seq := file_snapshots_seq d |}.
Proof.
  intros Hdeleted [Hs Hc Hcs Hfk [Hids Hbound] Ha]. constructor; simpl.
  - assumption.
  - now apply NoDup_map_filter.
  - intros c Hc'. apply filter_In in Hc' as [Hc' _]. exact (Hcs c Hc').
  - intros f Hf'. apply filter_In in Hf' as [Hf' Hkept].
    destruct (proj1 (has_checkpoint_In _ _) (Hfk f Hf')) as [c [Hin Hid]].
    apply has_checkpoint_In. exists c. split; [|assumption]. simpl.
    apply filter_In. split; [assumption|].
    destruct (q c) eqn:Hq; [reflexivity|]. exfalso.
    apply negb_true_iff in Hkept. apply not_true_iff_false in Hkept. apply Hkept.
    unfold cascaded_with. apply existsb_exists. exists c.
    split; [now apply Hdeleted | now apply String.eqb_eq].
  - split; [now apply NoDup_map_filter|].
    intros f Hf'. apply filter_In in Hf' as [Hf' _]. now apply Hbound.
  - exact Ha.
Qed.

(** Deleting session rows that no checkpoint row refers to. *)
Lemma store_ok_delete_sessions (q : Session.t -> bool) (deleted : list Session.t)
    (d : Database) :
  (forall s, In s (sessions d) -> q s = false -> In s deleted) ->
  existsb (references_one_of deleted) (checkpoints d) = false ->
  store_ok d ->
  store_ok {| sessions := List.filter q (sessions d);
              checkpoints := checkpoints d;
              file_snapshots := file_snapshots d;
              file_snapshots_seq := file_snapshots_seq d |}.
Proof.
  intros Hdeleted Hfree [Hs Hc Hcs Hfk Hf Ha]. constructor; simpl; try assumption.
  - now apply NoDup_map_filter.
  - intros c Hc'.
    destruct (proj1 (has_session_In _ _) (Hcs c Hc')) as [s [Hin Hid]].
    apply has_session_In. exists s. split; [|assumption]. simpl.
    apply filter_In. split; [assumption|].
    destruct (q s) eqn:Hq; [reflexivity|]. exfalso.
    apply not_true_iff_false in Hfree. apply Hfree.
    apply existsb_exists. exists c. split; [assumption|].
    unfold references_one_of. apply existsb_exists. exists s.
    split; [now apply Hdeleted | now apply String.eqb_eq].
  - intros projectPath. unfold active_sessions. simpl.
    etransitivity; [apply filter_filter_length | apply Ha].
Qed.

(** Every write statement of the manager keeps the store in order. *)
Lemma store_ok_step (d d' : Database) : store_ok d -> step d d' -> store_ok d'.
Proof.
  intros Hd Hstep.
  destruct Hstep as [sessionId projectPath projectName time promptText d d' Hnone Hstmt
                    |promptText time i d d' Hstmt
                    |n time i d d' Hstmt
                    |time i d d' Hstmt
                    |row d d' Hstmt
                    |checkpointId file d d' Hstmt
                    |i d d' Hstmt
                    |projectPath d d' n Hstmt
                    |projectPath d d' n Hstmt
                    |d d' n Hstmt
                    |d d' n Hstmt
                    |d d' n Hstmt].
  - exact (store_ok_insert_session _ _ _ _ _ _ _ Hd Hnone Hstmt).
  - refine (store_ok_update _ _ _ _ _ _ Hd Hstmt); [reflexivity|].
    intros path s H. exact H.
  - refine (store_ok_update _ _ _ _ _ _ Hd Hstmt); [reflexivity|].
    intros path s H. exact H.
  - refine (store_ok_update _ _ _ _ _ _ Hd Hstmt); [reflexivity|].
    intros path s H. unfold is_active_for in H. simpl in H.
    now rewrite andb_false_r in H.
  - exact (store_ok_insert_checkpoint _ _ _ Hd Hstmt).
  - exact (store_ok_insert_file_snapshot _ _ _ _ _ Hd Hstmt).
  - injection Hstmt as <-.
    apply (store_ok_delete_checkpoints
             (fun c => negb (String.eqb (Checkpoint.id c) i))
             (List.filter (fun c => String.eqb (Checkpoint.id c) i) (checkpoints d)));
      [|assumption].
    intros c Hin Hq. apply filter_In. split; [assumption|].
    now apply negb_false_iff in Hq.
  - injection Hstmt as <- _.
    apply (store_ok_delete_checkpoints
             (fun c => negb (session_in_project projectPath d c))
             (List.filter (session_in_project projectPath d) (checkpoints d)));
      [|assumption].
    intros c Hin Hq. apply filter_In. split; [assumption|].
    now apply negb_false_iff in Hq.
  - unfold delete_sessions_of_project in Hstmt.
    destruct (existsb _ (checkpoints d)) eqn:Hfree; [discriminate|].
    injection Hstmt as <- _.
    apply (store_ok_delete_sessions
             (fun s => negb (of_project projectPath s))
             (List.filter (of_project projectPath) (sessions d)));
      [|assumption|assumption].
    intros s Hin Hq. apply filter_In. split; [assumption|].
    now apply negb_false_iff in Hq.
  - injection Hstmt as <- _. destruct Hd as [Hs Hc Hcs Hfk [Hids Hbound] Ha].
    constructor; simpl; try assumption.
    + intros f [].
    + split; [constructor | intros f []].
  - injection Hstmt as <- _.
    pose proof (store_ok_delete_checkpoints (fun _ => false) (checkpoints d) d
                  (fun c Hin _ => Hin) Hd) as H.
    now rewrite filter_none in H.
  - unfold delete_all_sessions in Hstmt.
    destruct (existsb _ (checkpoints d)) eqn:Hfree; [discriminate|].
    injection Hstmt as <- _.
    pose proof (store_ok_delete_sessions (fun _ => false) (sessions d) d
                  (fun s Hin _ => Hin) Hfree Hd) as H.
    now rewrite filter_none in H.
Qed.

(** ** Properties kept by every statement are kept by every operation *)

Section ReadOnly.

Variable K : Database -> Prop.

Lemma triple_query {A} (q : Database -> A) :
  triple (on_db K) (on_db K) (query q) (fun _ => on_db K).
Proof. intros w Hw. exact Hw. Qed.

Lemma triple_fs_call (op : FS -> FS + FsError) :
  triple (on_db K) (on_db K) (fs_call op) (fun _ => on_db K).
Proof. intros w Hw. unfold fs_call. destruct (op (files w)); exact Hw. Qed.

Lemma triple_for_of_with {A S} (xs : list A) (body : S -> A -> M S) :
  (forall s x, triple (on_db K) (on_db K) (body s x) (fun _ => on_db K)) ->
  forall s, triple (on_db K) (on_db K) (for_of_with xs body s) (fun _ => on_db K).
Proof.
  intros Hbody. induction xs as [|x xs IH]; intros s; simpl.
  - now apply triple_ret.
  - eapply triple_bind; [apply Hbody | intros s'; apply IH].
Qed.

Lemma triple_getCheckpointById (checkpointId : string) :
  triple (on_db K) (on_db K) (getCheckpointById checkpointId) (fun _ => on_db K).
Proof.
  unfold getCheckpointById. eapply triple_bind; [apply triple_query|].
  intros [c|]; [|now apply triple_ret].
  eapply triple_bind; [apply triple_query | intros files; now apply triple_ret].
Qed.

Lemma triple_restore_file (locals : nat * list string) (file : FileSnapshot.t) :
  triple (on_db K) (on_db K) (restore_file locals file) (fun _ => on_db K).
Proof.
  destruct locals as [filesRestored errors]. unfold restore_file.
  apply triple_try_catch; [|intros e; now apply triple_ret].
  eapply triple_bind; [apply triple_fs_call|]. intros ?.
  destruct (FileSnapshot.content file); [|now apply triple_ret].
  eapply triple_bind; [apply triple_fs_call | intros ?; now apply triple_ret].
Qed.

(** [restoreCheckpoint] writes files only. *)
Lemma triple_restoreCheckpoint (checkpointId : string) :
  triple (on_db K) (on_db K) (restoreCheckpoint checkpointId) (fun _ => on_db K).
Proof.
  unfold restoreCheckpoint. eapply triple_bind; [apply triple_getCheckpointById|].
  intros [[c files]|]; [|now apply triple_throw].
  eapply triple_bind; [apply triple_query|]. intros selected.
  eapply triple_bind; [apply triple_for_of_with, triple_restore_file|].
  intros locals. now apply triple_ret.
Qed.

Lemma triple_diffCheckpoints (currentId previousId : string) :
  triple (on_db K) (on_db K) (diffCheckpoints currentId previousId) (fun _ => on_db K).
Proof.
  unfold diffCheckpoints. eapply triple_bind; [apply triple_getCheckpointById|].
  intros current. eapply triple_bind; [apply triple_getCheckpointById|].
  intros previous.
  destruct current as [[current ?]|]; [|now apply triple_throw].
  destruct previous as [[previous ?]|]; [|now apply triple_throw].
  eapply triple_bind; [apply triple_query|]. intros currentFiles.
  eapply triple_bind; [apply triple_query|]. intros previousFiles.
  now apply triple_ret.
Qed.

Lemma triple_getCheckpoints (projectPath : string) :
  triple (on_db K) (on_db K) (getCheckpoints projectPath) (fun _ => on_db K).
Proof.
  unfold getCheckpoints. apply triple_try_catch; [apply triple_query|].
  intros e. now apply triple_throw.
Qed.

End ReadOnly.

Section StepInvariant.

Variable K : Database -> Prop.
Hypothesis K_step : forall d d', K d -> step d d' -> K d'.

Lemma stable_step (stmt : Statement) :
  (forall d d', stmt d = inl d' -> step d d') -> stable K stmt.
Proof using K_step. intros Hstep d d' Hd Hstmt. exact (K_step _ _ Hd (Hstep _ _ Hstmt)). Qed.

Lemma triple_run_changes (stmt : CountingStatement) :
  (forall d d' n, stmt d = inl (d', n) -> step d d') ->
  triple (on_db K) (on_db K) (run_changes stmt) (fun _ => on_db K).
Proof using K_step.
  intros Hstep w Hw. unfold run_changes.
  destruct (io_errors w) as [|[|] later]; try exact Hw.
  - destruct (stmt (db w)) as [[d' n]|e] eqn:Hstmt; [|exact Hw].
    exact (K_step _ _ Hw (Hstep _ _ _ Hstmt)).
  - destruct (stmt (db w)) as [[d' n]|e] eqn:Hstmt; [|exact Hw].
    exact (K_step _ _ Hw (Hstep _ _ _ Hstmt)).
Qed.

Lemma triple_createCheckpoint_step (env : Env) (session : Session.t) :
  triple (on_db K) (on_db K) (createCheckpoint env session) (fun _ => on_db K).
Proof using K_step.
  apply triple_createCheckpoint.
  - intros row. apply stable_step. intros d d'. apply step_insert_checkpoint.
  - intros checkpointId file. apply stable_step. intros d d'.
    apply step_insert_file_snapshot.
  - intros n time i. apply stable_step. intros d d'. apply step_set_stats.
Qed.

Lemma triple_handleStop_step (env : Env) (data : EventData) :
  triple (on_db K) (on_db K) (handleStop env data) (fun _ => on_db K).
Proof using K_step.
  unfold handleStop.
  refine (triple_bind _ _ _ (fun _ => on_db K) _ _ _ _).
  { eapply triple_bind; [apply triple_get_currentSession|].
    intros [s|]; [now apply triple_ret|].
    eapply triple_bind; [apply triple_getActiveSession|].
    intros [s|]; [apply triple_set_currentSession | now apply triple_ret]. }
  intros ?. eapply triple_bind; [apply triple_get_currentSession|].
  intros [s|]; [|now apply triple_ret].
  eapply triple_bind; [apply triple_createCheckpoint_step|].
  intros checkpoint. eapply triple_bind.
  { apply triple_run_stable, stable_step. intros d d'. apply step_set_end. }
  intros ?. eapply triple_bind;
    [apply triple_set_currentSession | intros ?; now apply triple_ret].
Qed.

Lemma triple_handleUserPromptSubmit_step (env : Env) (data : EventData) :
  triple (on_db K) (on_db K) (handleUserPromptSubmit env data) (fun _ => on_db K).
Proof using K_step.
  intros w Hw. unfold handleUserPromptSubmit, getActiveSession, query.
  unfold bind at 1 2.
  destruct (select_active_session (projectPath_of env data) (db w)) as [s|] eqn:Hsel.
  - unfold bind at 1, set_currentSession at 1. unfold ret at 1.
    unfold bind at 1. rewrite run_cases. simpl.
    destruct (hd false (io_errors w)); [exact Hw|]. simpl.
    eapply K_step; [exact Hw|]. eapply step_set_prompt. reflexivity.
  - unfold ret at 1. unfold bind at 1. rewrite run_cases.
    destruct (hd false (io_errors w)); [exact Hw|].
    destruct (insert_session _ _ _ _ _ (db w)) as [d'|e] eqn:Hstmt; [|exact Hw].
    simpl. eapply K_step; [exact Hw|]. eapply step_insert_session; eassumption.
Qed.

Lemma triple_handleClaudeEvent_step (env : Env) (ev : Event) :
  triple (on_db K) (on_db K) (handleClaudeEvent env ev) (fun _ => on_db K).
Proof using K_step.
  destruct ev as [data|data|data|other]; simpl.
  - eapply triple_bind; [apply triple_handleUserPromptSubmit_step|].
    intros s. now apply triple_ret.
  - eapply triple_bind; [apply triple_handleStop_step|].
    intros c. now apply triple_ret.
  - eapply triple_bind; [apply (triple_ret (on_db K) (on_db K) tt (fun _ => on_db K)); auto|].
    intros ?. now apply triple_ret.
  - now apply triple_ret.
Qed.

Lemma triple_deleteCheckpoint_step (checkpointId : string) :
  triple (on_db K) (on_db K) (deleteCheckpoint checkpointId) (fun _ => on_db K).
Proof using K_step.
  apply triple_run_stable, stable_step. intros d d'. apply step_delete_checkpoint.
Qed.

Lemma triple_deleteProjectCheckpoints_step (projectPath : string) :
  triple (on_db K) (on_db K) (deleteProjectCheckpoints projectPath) (fun _ => on_db K).
Proof using K_step.
  unfold deleteProjectCheckpoints. eapply triple_bind.
  { apply triple_run_changes. intros d d' n. apply step_delete_checkpoints_of_project. }
  intros checkpointChanges. eapply triple_bind.
  { apply triple_run_changes. intros d d' n. apply step_delete_sessions_of_project. }
  intros sessionChanges. now apply triple_ret.
Qed.

Lemma triple_clearAllCheckpoints_step :
  triple (on_db K) (on_db K) clearAllCheckpoints (fun _ => on_db K).
Proof using K_step.
  unfold clearAllCheckpoints. eapply triple_bind; [apply triple_query|].
  intros projectCount. eapply triple_bind.
  { apply triple_run_changes. intros d d' n. apply step_delete_all_file_snapshots. }
  intros fileSnapshotsChanges. eapply triple_bind.
  { apply triple_run_changes. intros d d' n. apply step_delete_all_checkpoints. }
  intros checkpointChanges. eapply triple_bind.
  { apply triple_run_changes. intros d d' n. apply step_delete_all_sessions. }
  intros sessionChanges. now apply triple_ret.
Qed.

Lemma triple_snd {A} (m : M A) (w : World) :
  triple (on_db K) (on_db K) m (fun _ => on_db K) -> K (db w) -> K (db (snd (m w))).
Proof using K_step.
  intros Ht Hw. specialize (Ht w Hw). destruct (m w) as [[a|e] w']; exact Ht.
Qed.

Lemma perform_keeps (op : Operation) (w : World) : K (db w) -> K (db (perform op w)).
Proof using K_step.
  destruct op as [env ev|i|p| |i|a b|p]; unfold perform.
  - apply (triple_snd (handleClaudeEvent env ev)), triple_handleClaudeEvent_step.
  - apply (triple_snd (deleteCheckpoint i)), triple_deleteCheckpoint_step.
  - apply (triple_snd (deleteProjectCheckpoints p)), triple_deleteProjectCheckpoints_step.
  - apply (triple_snd clearAllCheckpoints), triple_clearAllCheckpoints_step.
  - apply (triple_snd (restoreCheckpoint i)), triple_restoreCheckpoint.
  - apply (triple_snd (diffCheckpoints a b)), triple_diffCheckpoints.
  - apply (triple_snd (getCheckpoints p)), triple_getCheckpoints.
Qed.

Lemma after_operations_keeps (ops : list Operation) (w : World) :
  K (db w) -> K (db (after_operations ops w)).
Proof using K_step.
  revert w. induction ops as [|op ops IH]; intros w Hw; [exact Hw|].
  simpl. apply IH. now apply perform_keeps.
Qed.

End StepInvariant.

Lemma store_ok_initial : store_ok initializeDatabase.
Proof.
  constructor; simpl; try constructor.
  - intros c [].
  - intros f [].
  - constructor.
  - intros f [].
  - simpl. lia.
Qed.

(** X1. Whatever operations the manager serves, in whatever order, and
    whichever of their statements fail, a store that satisfies the
    constraints of the schema (unique ids, every checkpoint in a session,
    every snapshot in a checkpoint, snapshot rowids below the counter) with at
    most one active session per project still does so afterwards. *)
Theorem operations_keep_store_ok (ops : list Operation) (w : World) :
  store_ok (db w) -> store_ok (db (after_operations ops w)).
Proof. apply after_operations_keeps. exact store_ok_step. Qed.

(** X1 (witness): the store after the four events of the scenario, a
    deletion and a clearing of everything, one statement having failed. *)
Lemma operations_keep_store_ok_witness :
  let w := new_CheckpointManager ∅ [false; false; true] in
  store_ok (db w)
  /\ store_ok (db (after_operations
                     (scenario_operations
                      ++ [DeleteCheckpoint Scenario.A; DeleteProjectCheckpoints "/q";
                          ClearAllCheckpoints])
                     w)).
Proof.
  cbv zeta. split; [exact store_ok_initial|].
  apply operations_keep_store_ok. exact store_ok_initial.
Defined.

(** ** Bulk deletion *)

Lemma run_changes_cases (stmt : CountingStatement) (w : World) :
  run_changes stmt w
  = if hd false (io_errors w)
    then (Throw (SqliteError "SQLITE_IOERR"), advance w (db w))
    else match stmt (db w) with
         | inl (d', changes) => (Return changes, advance w d')
         | inr e => (Throw e, advance w (db w))
         end.
Proof.
  unfold run_changes, advance.
  destruct (io_errors w) as [|[] ?]; simpl; try reflexivity;
    destruct (stmt (db w)) as [[? ?]|?]; reflexivity.
Qed.

Lemma session_in_project_spec (projectPath : string) (d : Database) (c : Checkpoint.t) :
  session_in_project projectPath d c = true
  <-> exists s, In s (sessions d)
                /\ Session.projectPath s = projectPath
                /\ Session.id s = Checkpoint.sessionId c.
Proof.
  unfold session_in_project, of_project. rewrite existsb_exists.
  split; intros [s [Hin H]]; exists s.
  - apply andb_true_iff in H as [Hp Hid].
    split; [assumption|]. split; now apply String.eqb_eq.
  - destruct H as [Hp Hid]. split; [assumption|].
    apply andb_true_iff. split; now apply String.eqb_eq.
Qed.

Lemma cascaded_with_spec (deleted : list Checkpoint.t) (f : FileSnapshot.t) :
  cascaded_with deleted f = true
  <-> exists c, In c deleted /\ Checkpoint.id c = FileSnapshot.checkpointId f.
Proof.
  unfold cascaded_with. rewrite existsb_exists.
  split; intros [c [Hin H]]; exists c; split; try assumption; now apply String.eqb_eq.
Qed.

(** Once the checkpoints of a project's sessions are deleted, the foreign
    key of [checkpoints] no longer stands in the way of deleting the
    sessions. *)
Lemma sessions_of_project_free (projectPath : string) (d : Database) :
  existsb (references_one_of (List.filter (of_project projectPath) (sessions d)))
          (List.filter (fun c => negb (session_in_project projectPath d c)) (checkpoints d))
  = false.
Proof.
  apply not_true_iff_false. intros H.
  apply existsb_exists in H as [c [Hc Href]].
  apply filter_In in Hc as [_ Hkept]. apply negb_true_iff in Hkept.
  apply not_true_iff_false in Hkept. apply Hkept.
  unfold references_one_of in Href. apply existsb_exists in Href as [s [Hs Hid]].
  apply filter_In in Hs as [Hs Hp].
  unfold session_in_project. apply existsb_exists. exists s.
  split; [assumption|]. now rewrite Hp, Hid.
Qed.

(** X2. When the storage layer lets its two statements through,
    [deleteProjectCheckpoints] returns (the foreign key of [checkpoints]
    never refuses the second statement) and reports the number of checkpoint
    rows and of session rows it deleted. Afterwards the sessions left are those
    of the other projects, the checkpoints left are those that belong to no
    session of the project, the snapshots left are those of the checkpoints
    left, and the project has no active session. Cached session and files on
    disk are untouched. *)
Theorem deleteProjectCheckpoints_removes_project (w : World) (projectPath : string) :
  hd false (io_errors w) = false ->
  hd false (tail (io_errors w)) = false ->
  exists r w',
    deleteProjectCheckpoints projectPath w = (Return r, w')
    /\ dp_deletedCheckpoints r
       = length (List.filter (session_in_project projectPath (db w)) (checkpoints (db w)))
    /\ dp_deletedSessions r
       = length (List.filter (of_project projectPath) (sessions (db w)))
    /\ (forall s, In s (sessions (db w'))
                  <-> In s (sessions (db w)) /\ Session.projectPath s <> projectPath)
    /\ (forall c, In c (checkpoints (db w'))
                  <-> In c (checkpoints (db w))
                      /\ ~ exists s, In s (sessions (db w))
                                     /\ Session.projectPath s = projectPath
                                     /\ Session.id s = Checkpoint.sessionId c)
    /\ (forall f, In f (file_snapshots (db w'))
                  <-> In f (file_snapshots (db w))
                      /\ ~ exists c s, In c (checkpoints (db w))
                                       /\ Checkpoint.id c = FileSnapshot.checkpointId f
                                       /\ In s (sessions (db w))
                                       /\ Session.projectPath s = projectPath
                                       /\ Session.id s = Checkpoint.sessionId c)
    /\ select_active_session projectPath (db w') = None
    /\ currentSession w' = currentSession w
    /\ files w' = files w.
Proof.
  intros Hio1 Hio2. unfold deleteProjectCheckpoints.
  unfold bind at 1. rewrite run_changes_cases, Hio1. cbv beta iota.
  unfold delete_checkpoints_of_project at 1. cbv beta iota zeta.
  unfold bind at 1. rewrite run_changes_cases.
  change (io_errors (advance w ?d)) with (tail (io_errors w)). rewrite Hio2.
  unfold delete_sessions_of_project.
  change (db (advance w ?d)) with d. cbv beta iota zeta.
  change (sessions {| sessions := ?s; checkpoints := _; file_snapshots := _;
                      file_snapshots_seq := _ |}) with s.
  change (checkpoints {| sessions := _; checkpoints := ?c; file_snapshots := _;
                         file_snapshots_seq := _ |}) with c.
  rewrite sessions_of_project_free. unfold ret.
  eexists. eexists. split; [reflexivity|].
  split; [reflexivity|]. split; [reflexivity|]. simpl.
  split; [|split; [|split; [|split; [|split; reflexivity]]]].
  - intros s. rewrite filter_In. unfold of_project. rewrite negb_true_iff.
    split; intros [Hin Hp]; (split; [assumption|]).
    + now apply String.eqb_neq.
    + now apply String.eqb_neq.
  - intros c. rewrite filter_In, negb_true_iff, <- not_true_iff_false.
    now rewrite session_in_project_spec.
  - intros f. rewrite filter_In, negb_true_iff, <- not_true_iff_false.
    rewrite cascaded_with_spec. split; intros [Hin Hnot]; (split; [assumption|]).
    + intros [c [s [Hc [Hid [Hs [Hp Hsid]]]]]]. apply Hnot. exists c.
      split; [|assumption]. apply filter_In. split; [assumption|].
      apply session_in_project_spec. now exists s.
    + intros [c [Hc Hid]]. apply filter_In in Hc as [Hc Hgone].
      apply session_in_project_spec in Hgone as [s [Hs [Hp Hsid]]].
      apply Hnot. now exists c, s.
  - unfold select_active_session.
    assert (H : forall l, List.filter (is_active_for projectPath)
                  (List.filter (fun s => negb (of_project projectPath s)) l) = []).
    { induction l as [|s l IH]; simpl; [reflexivity|]. unfold of_project.
      destruct (String.eqb (Session.projectPath s) projectPath) eqn:Hp; simpl;
        [exact IH|].
      unfold is_active_for. rewrite Hp. simpl. exact IH. }
    simpl. rewrite H. reflexivity.
Qed.

(** X2 (witness): the two sessions of [/p] in the scenario, with a
    checkpoint each. *)
Lemma deleteProjectCheckpoints_removes_project_witness :
  hd false (io_errors Scenario.world) = false
  /\ hd false (tail (io_errors Scenario.world)) = false
  /\ exists r w',
       deleteProjectCheckpoints "/p" Scenario.world = (Return r, w')
       /\ dp_deletedCheckpoints r = 2
       /\ dp_deletedSessions r = 2
       /\ select_active_session "/p" (db w') = None.
Proof.
  split; [reflexivity|]. split; [reflexivity|].
  destruct (deleteProjectCheckpoints_removes_project Scenario.world "/p" eq_refl eq_refl)
    as [r [w' [Hrun [Hc [Hs [_ [_ [_ [Hactive _]]]]]]]]].
  exists r, w'. split; [exact Hrun|].
  split; [rewrite Hc; reflexivity|]. split; [rewrite Hs; reflexivity | exact Hactive].
Defined.

(** X3. [deleteProjectCheckpoints] runs its two DELETE statements outside
    any transaction. When the storage layer fails the first one, the call
    raises and the store is as before. When it fails the second one, the
    call raises as well, but the first deletion stays: every session of the
    project is still there, and none of them has a checkpoint any more. *)
Theorem deleteProjectCheckpoints_interrupted (w : World) (projectPath : string) :
  (hd false (io_errors w) = true ->
   exists w',
     deleteProjectCheckpoints projectPath w = (Throw (SqliteError "SQLITE_IOERR"), w')
     /\ db w' = db w)
  /\ (hd false (io_errors w) = false ->
      hd false (tail (io_errors w)) = true ->
      exists w',
        deleteProjectCheckpoints projectPath w = (Throw (SqliteError "SQLITE_IOERR"), w')
        /\ sessions (db w') = sessions (db w)
        /\ (forall c s, In c (checkpoints (db w')) -> In s (sessions (db w')) ->
                        Session.projectPath s = projectPath ->
                        Session.id s <> Checkpoint.sessionId c)
        /\ length (checkpoints (db w'))
           = length (checkpoints (db w))
             - length (List.filter (session_in_project projectPath (db w))
                                   (checkpoints (db w)))).
Proof.
  split.
  - intros Hio. unfold deleteProjectCheckpoints, bind.
    rewrite run_changes_cases, Hio. eexists. split; reflexivity.
  - intros Hio1 Hio2. unfold deleteProjectCheckpoints.
    unfold bind at 1. rewrite run_changes_cases, Hio1. cbv beta iota.
    unfold delete_checkpoints_of_project at 1. cbv beta iota zeta.
    unfold bind at 1. rewrite run_changes_cases.
    change (io_errors (advance w ?d)) with (tail (io_errors w)). rewrite Hio2.
    eexists. split; [reflexivity|]. simpl. split; [reflexivity|]. split.
    + intros c s Hc Hs Hp Hid. apply filter_In in Hc as [_ Hkept].
      apply negb_true_iff, not_true_iff_false in Hkept. apply Hkept.
      apply session_in_project_spec. now exists s.
    + generalize (session_in_project projectPath (db w)). intros p.
      induction (checkpoints (db w)) as [|c l IH]; simpl; [reflexivity|].
      destruct (p c); simpl; [exact IH|]. rewrite IH.
      pose proof (List.filter_length_le p l). lia.
Qed.

(** X3 (witness): the scenario's store when the second statement fails. *)
Lemma deleteProjectCheckpoints_interrupted_witness :
  let w := {| db := db Scenario.world; currentSession := None; files := ∅;
              io_errors := [false; true] |} in
  exists w',
    deleteProjectCheckpoints "/p" w = (Throw (SqliteError "SQLITE_IOERR"), w')
    /\ length (sessions (db w')) = 2
    /\ length (checkpoints (db w')) = 0.
Proof.
  cbv zeta.
  destruct (proj2 (deleteProjectCheckpoints_interrupted
                     {| db := db Scenario.world; currentSession := None; files := ∅;
                        io_errors := [false; true] |} "/p") eq_refl eq_refl)
    as [w' [Hrun [Hs [_ Hc]]]].
  exists w'. split; [exact Hrun|].
  split; [rewrite Hs; reflexivity | rewrite Hc; reflexivity].
Defined.

(** X4. When the storage layer lets its three statements through,
    [clearAllCheckpoints] returns (no foreign key refuses a statement) and
    leaves the three tables empty. It reports the number of rows each table
    held, and as [projectCount] the number of distinct project paths the session
    table held. The AUTOINCREMENT counter of [file_snapshots] is not reset,
    and the cached session of the manager is not cleared. *)
Theorem clearAllCheckpoints_empties_store (w : World) :
  hd false (io_errors w) = false ->
  hd false (tail (io_errors w)) = false ->
  hd false (tail (tail (io_errors w))) = false ->
  exists r w' paths,
    clearAllCheckpoints w = (Return r, w')
    /\ sessions (db w') = []
    /\ checkpoints (db w') = []
    /\ file_snapshots (db w') = []
    /\ file_snapshots_seq (db w') = file_snapshots_seq (db w)
    /\ ca_deletedSessions r = length (sessions (db w))
    /\ ca_deletedCheckpoints r = length (checkpoints (db w))
    /\ ca_deletedFileSnapshots r = length (file_snapshots (db w))
    /\ ca_projectCount r = length paths
    /\ List.NoDup paths
    /\ (forall p, In p paths <-> exists s, In s (sessions (db w)) /\ Session.projectPath s = p)
    /\ currentSession w' = currentSession w
    /\ files w' = files w.
Proof.
  intros Hio1 Hio2 Hio3. unfold clearAllCheckpoints.
  unfold bind at 1, query at 1.
  unfold bind at 1. rewrite run_changes_cases, Hio1. cbv beta iota.
  unfold delete_all_file_snapshots at 1. cbv beta iota.
  unfold bind at 1. rewrite run_changes_cases.
  change (io_errors (advance w ?d)) with (tail (io_errors w)). rewrite Hio2.
  unfold delete_all_checkpoints at 1. cbv beta iota.
  unfold bind at 1. rewrite run_changes_cases.
  change (io_errors (advance (advance w ?d) ?d')) with (tail (tail (io_errors w))).
  rewrite Hio3. unfold delete_all_sessions. simpl. unfold ret.
  exists {| ca_deletedCheckpoints := length (checkpoints (db w));
            ca_deletedSessions := length (sessions (db w));
            ca_deletedFileSnapshots := length (file_snapshots (db w));
            ca_projectCount := count_distinct_projectPath (db w) |}.
  eexists. exists (Set_new (map Session.projectPath (sessions (db w)))).
  split; [reflexivity|]. simpl.
  repeat (split; [reflexivity|]).
  split; [apply Set_new_NoDup|]. split; [|split; reflexivity].
  intros p. rewrite Set_new_In, in_map_iff.
  split; intros [s [H1 H2]]; exists s; split; assumption.
Qed.

(** X4 (witness): clearing the scenario's store. *)
Lemma clearAllCheckpoints_empties_store_witness :
  exists r w',
    clearAllCheckpoints Scenario.world = (Return r, w')
    /\ sessions (db w') = []
    /\ ca_deletedSessions r = 2
    /\ ca_deletedCheckpoints r = 2
    /\ ca_deletedFileSnapshots r = 3.
Proof.
  destruct (clearAllCheckpoints_empties_store Scenario.world eq_refl eq_refl eq_refl)
    as [r [w' [paths [Hrun [Hs [_ [_ [_ [Hds [Hdc [Hdf _]]]]]]]]]]].
  exists r, w'. split; [exact Hrun|]. split; [exact Hs|].
  split; [rewrite Hds; reflexivity|].
  split; [rewrite Hdc; reflexivity | rewrite Hdf; reflexivity].
Defined.

(** No checkpoint can be recorded for a session whose row is gone. *)
Lemma createCheckpoint_without_session (env : Env) (s : Session.t) (w : World) :
  has_session (Session.id s) (db w) = false ->
  exists w', createCheckpoint env s w = (Return None, w') /\ db w' = db w
             /\ currentSession w' = currentSession w.
Proof.
  intros Hgone. unfold createCheckpoint, try_catch. unfold bind at 1. unfold scan.
  destruct (getProjectFiles env (Session.projectPath s)) as [scanned|].
  - unfold ret at 1. destruct (length scanned =? 0).
    + eexists. split; [reflexivity|]. split; reflexivity.
    + unfold bind at 1. rewrite run_cases.
      destruct (hd false (io_errors w)).
      * eexists. split; [reflexivity|]. split; reflexivity.
      * unfold insert_checkpoint. simpl.
        destruct (has_checkpoint _ (db w)).
        -- eexists. split; [reflexivity|]. split; reflexivity.
        -- rewrite Hgone. simpl. eexists. split; [reflexivity|]. split; reflexivity.
  - unfold throw. eexists. split; [reflexivity|]. split; reflexivity.
Qed.

(** X5. With an empty session table (as [clearAllCheckpoints] leaves it),
    [handleStop] records nothing, whatever session the manager still has
    cached: the store is left as it is and the answer is never a checkpoint.
    Without a cached session the call returns null and changes nothing at
    all; with one it returns null, or raises the storage error of the UPDATE
    that closes the session. *)
Theorem handleStop_without_sessions (env : Env) (data : EventData) (w : World) :
  sessions (db w) = [] ->
  (exists w',
      (handleStop env data w = (Return None, w')
       \/ (currentSession w <> None
           /\ handleStop env data w = (Throw (SqliteError "SQLITE_IOERR"), w')))
      /\ db w' = db w)
  /\ (currentSession w = None -> handleStop env data w = (Return None, w)).
Proof.
  intros Hempty.
  assert (Hnone : currentSession w = None -> handleStop env data w = (Return None, w)).
  { intros Hcur. unfold handleStop. unfold bind at 1 2. unfold get_currentSession at 1.
    rewrite Hcur. unfold getActiveSession, query. unfold bind at 1 2.
    unfold select_active_session. rewrite Hempty. simpl.
    unfold ret at 1 2. unfold bind, get_currentSession. rewrite Hcur. reflexivity. }
  split; [|exact Hnone].
  destruct (currentSession w) as [s|] eqn:Hcur.
  - assert (Hs : session_to_stop env data w = Some s)
      by (unfold session_to_stop; now rewrite Hcur).
    assert (Hgone : has_session (Session.id s) (db (with_session w (Some s))) = false)
      by (unfold has_session; simpl; now rewrite Hempty).
    destruct (createCheckpoint_without_session env s _ Hgone) as [w1 [Hcp [Hdb _]]].
    simpl in Hdb.
    assert (Hsame : update_sessions_where_id (set_end (now env)) (Session.id s) (db w1)
                    = inl (db w1)).
    { rewrite Hdb. unfold update_sessions_where_id. rewrite Hempty. simpl.
      destruct (db w) as [ss cs fs seq]. simpl in Hempty. now subst. }
    assert (Hrun : handleStop env data w
                   = if hd false (io_errors w1)
                     then (Throw (SqliteError "SQLITE_IOERR"), advance w1 (db w1))
                     else (Return None, with_session (advance w1 (db w1)) None)).
    { rewrite (handleStop_session _ _ _ _ Hs).
      unfold bind at 1. rewrite Hcp. unfold bind at 1. rewrite run_cases.
      destruct (hd false (io_errors w1)); [reflexivity|]. now rewrite Hsame. }
    rewrite Hrun. destruct (hd false (io_errors w1)).
    + exists (advance w1 (db w1)).
      split; [right; split; [discriminate | reflexivity] | exact Hdb].
    + exists (with_session (advance w1 (db w1)) None).
      split; [left; reflexivity | exact Hdb].
  - exists w. split; [left; now apply Hnone | reflexivity].
Qed.

(** X5 (witness): a prompt in [/p], then everything is cleared, then the
    Stop event of that prompt arrives. *)
Lemma handleStop_without_sessions_witness :
  let w := snd (clearAllCheckpoints CrossProject.started) in
  let env := Scenario.env "2024-05-01T10:05:00.000Z" "1001_a" Scenario.files_A in
  sessions (db w) = []
  /\ currentSession w <> None
  /\ exists w', handleStop env Scenario.data w = (Return None, w') /\ db w' = db w.
Proof.
  cbv zeta. split; [reflexivity|]. split; [discriminate|].
  destruct (proj1 (handleStop_without_sessions
                     (Scenario.env "2024-05-01T10:05:00.000Z" "1001_a" Scenario.files_A)
                     Scenario.data (snd (clearAllCheckpoints CrossProject.started))
                     eq_refl))
    as [w' [[Hrun|[_ Hrun]] Hdb]].
  - exists w'. split; [exact Hrun | exact Hdb].
  - exfalso. vm_compute in Hrun. discriminate Hrun.
Defined.

(** ** Listing the checkpoints of a project *)










(** ** The checkpoint counter of a session *)

Lemma counts_no_checkpoint_step (d d' : Database) :
  counts_no_checkpoint d -> step d d' -> counts_no_checkpoint d'.
Proof.
  intros Hd Hstep.
  assert (Hupdate : forall set i d1,
             (forall s, Session.totalCheckpoints (set s) = Session.totalCheckpoints s) ->
             update_sessions_where_id set i d = inl d1 -> counts_no_checkpoint d1).
  { intros set i d1 Hset [= <-] s Hs. simpl in Hs.
    apply in_map_iff in Hs as [r [<- Hr]].
    destruct (String.eqb (Session.id r) i); [rewrite Hset|]; now apply Hd. }
  destruct Hstep as [sessionId projectPath projectName time promptText d d' Hnone Hstmt
                    |promptText time i d d' Hstmt
                    |n time i d d' Hstmt
                    |time i d d' Hstmt
                    |row d d' Hstmt
                    |checkpointId file d d' Hstmt
                    |i d d' Hstmt
                    |projectPath d d' n Hstmt
                    |projectPath d d' n Hstmt
                    |d d' n Hstmt
                    |d d' n Hstmt
                    |d d' n Hstmt].
  - unfold insert_session in Hstmt. destruct (has_session sessionId d); [discriminate|].
    injection Hstmt as <-. intros s Hs. simpl in Hs.
    apply in_app_or in Hs as [Hs|[<-|[]]]; [now apply Hd | reflexivity].
  - exact (Hupdate (set_prompt promptText time) _ _ (fun s => eq_refl) Hstmt).
  - exact (Hupdate (set_stats n time) _ _ (fun s => eq_refl) Hstmt).
  - exact (Hupdate (set_end time) _ _ (fun s => eq_refl) Hstmt).
  - unfold insert_checkpoint in Hstmt.
    destruct (has_checkpoint _ d); [discriminate|].
    destruct (has_session _ d); [|discriminate]. now injection Hstmt as <-.
  - unfold insert_file_snapshot in Hstmt.
    destruct (has_checkpoint _ d); [|discriminate]. now injection Hstmt as <-.
  - now injection Hstmt as <-.
  - now injection Hstmt as <- _.
  - unfold delete_sessions_of_project in Hstmt.
    destruct (existsb _ (checkpoints d)); [discriminate|].
    injection Hstmt as <- _. intros s Hs. simpl in Hs.
    apply filter_In in Hs as [Hs _]. now apply Hd.
  - now injection Hstmt as <- _.
  - now injection Hstmt as <- _.
  - unfold delete_all_sessions in Hstmt.
    destruct (existsb _ (checkpoints d)); [discriminate|].
    injection Hstmt as <- _. intros s [].
Qed.

(** X7. No statement of the manager ever writes the [totalCheckpoints]
    column of a session: in a store that the manager built from an empty
    one, by whatever operations, every session row has [totalCheckpoints = 0],
    however many checkpoints were recorded for it. *)
Theorem totalCheckpoints_stays_zero (ops : list Operation) (fs : FS) (schedule : list bool)
    (s : Session.t) :
  In s (sessions (db (after_operations ops (new_CheckpointManager fs schedule)))) ->
  Session.totalCheckpoints s = 0%N.
Proof.
  revert s.
  apply (after_operations_keeps counts_no_checkpoint counts_no_checkpoint_step ops
           (new_CheckpointManager fs schedule)).
  intros s [].
Qed.

(** X7 (witness): the second session of the scenario, after its checkpoint
    was recorded. *)
Lemma totalCheckpoints_stays_zero_witness :
  exists s,
    In s (sessions (db (after_operations scenario_operations
                                          (new_CheckpointManager ∅ []))))
    /\ Session.id s = "session_2000_b"
    /\ Session.totalCheckpoints s = 0%N.
Proof.
  assert (Hin : exists s,
             In s (sessions (db (after_operations scenario_operations
                                                  (new_CheckpointManager ∅ []))))
             /\ Session.id s = "session_2000_b").
  { vm_compute. eexists. split; [right; left; reflexivity | reflexivity]. }
  destruct Hin as [s [Hin Hid]]. exists s.
  split; [exact Hin|]. split; [exact Hid|].
  exact (totalCheckpoints_stays_zero scenario_operations ∅ [] s Hin).
Defined.

(** ** A prompt and the Stop event that follows it *)

Lemma latest_started_single (s : Session.t) : latest_started [s] = Some s.
Proof. reflexivity. Qed.

Lemma active_single (projectPath : string) (d : Database) (s : Session.t) :
  at_most_one_active d ->
  select_active_session projectPath d = Some s ->
  active_sessions projectPath d = [s].
Proof.
  intros Hd Hsel. specialize (Hd projectPath).
  unfold select_active_session in Hsel. unfold active_sessions in *.
  destruct (List.filter (is_active_for projectPath) (sessions d)) as [|a [|b l]];
    [discriminate | | simpl in Hd; lia].
  now injection Hsel as ->.
Qed.

Lemma filter_active_refreshed (projectPath promptText time i : string)
    (rows : list Session.t) :
  List.filter (is_active_for projectPath) (refresh_rows promptText time i rows)
  = refresh_rows promptText time i (List.filter (is_active_for projectPath) rows).
Proof.
  unfold refresh_rows. induction rows as [|r rows IH]; simpl; [reflexivity|].
  assert (Hsame : is_active_for projectPath
                    (if String.eqb (Session.id r) i then set_prompt promptText time r else r)
                  = is_active_for projectPath r)
    by (now destruct (String.eqb (Session.id r) i)).
  rewrite Hsame. destruct (is_active_for projectPath r); simpl; now rewrite IH.
Qed.

(** X8. The session [handleUserPromptSubmit] returns is the active session
    of the project of the event: on a store with at most one active session
    per project, a call that returns leaves the returned session cached, open
    and in that project, and the query for the active session of the project
    then yields the row with the id and the prompt of the returned session,
    the only active one of the project. *)
Theorem handleUserPromptSubmit_returns_active_session (env : Env) (data : EventData)
    (w w' : World) (s : Session.t) :
  at_most_one_active (db w) ->
  handleUserPromptSubmit env data w = (Return s, w') ->
  currentSession w' = Some s
  /\ Session.projectPath s = projectPath_of env data
  /\ Session.sessionEndTime s = None
  /\ Session.lastPrompt s = Some (extract_promptText data)
  /\ exists row,
       select_active_session (projectPath_of env data) (db w') = Some row
       /\ active_sessions (projectPath_of env data) (db w') = [row]
       /\ Session.id row = Session.id s
       /\ Session.lastPrompt row = Some (extract_promptText data)
       /\ Session.lastPromptTime row = Some (now env).
Proof.
  intros Hd Hrun.
  destruct (select_active_session (projectPath_of env data) (db w)) as [s0|] eqn:Hsel.
  - rewrite (handleUserPromptSubmit_active _ _ _ _ Hsel) in Hrun.
    destruct (hd false (io_errors w)); [discriminate|].
    injection Hrun as <- <-.
    destruct (select_active_session_In _ _ _ Hsel) as [Hin [Hpath Hend]].
    split; [reflexivity|]. split; [exact Hpath|]. split; [exact Hend|].
    split; [reflexivity|].
    assert (Hactive : active_sessions (projectPath_of env data)
                        (db (with_session
                               (advance w (mkDatabase
                                  (refresh_rows (extract_promptText data) (now env)
                                                (Session.id s0) (sessions (db w)))
                                  (checkpoints (db w)) (file_snapshots (db w))
                                  (file_snapshots_seq (db w))))
                               (Some (refresh_cached (extract_promptText data) (now env) s0))))
                      = [set_prompt (extract_promptText data) (now env) s0]).
    { unfold active_sessions. simpl. rewrite filter_active_refreshed.
      pose proof (active_single _ _ _ Hd Hsel) as Hone. unfold active_sessions in Hone.
      rewrite Hone. unfold refresh_rows. simpl. now rewrite String.eqb_refl. }
    exists (set_prompt (extract_promptText data) (now env) s0).
    split; [|split; [exact Hactive | repeat split]].
    unfold select_active_session. unfold active_sessions in Hactive. now rewrite Hactive.
  - unfold handleUserPromptSubmit, getActiveSession, query in Hrun.
    unfold bind at 1 2 in Hrun. rewrite Hsel in Hrun.
    unfold ret at 1 in Hrun. unfold bind at 1 in Hrun. rewrite run_cases in Hrun.
    destruct (hd false (io_errors w)); [discriminate|].
    unfold insert_session in Hrun.
    destruct (has_session _ (db w)); [discriminate|].
    unfold bind, set_currentSession, ret in Hrun. injection Hrun as <- <-. simpl.
    split; [reflexivity|]. split; [reflexivity|]. split; [reflexivity|].
    split; [reflexivity|].
    apply latest_started_nonempty in Hsel.
    eexists. unfold select_active_session, active_sessions. simpl.
    rewrite List.filter_app, Hsel. simpl. unfold is_active_for. simpl.
    rewrite String.eqb_refl. simpl. repeat split.
Qed.

(** X8 (witness): the second prompt of the scenario. *)
Lemma handleUserPromptSubmit_returns_active_session_witness :
  let env := Scenario.env "2024-05-01T10:01:00.000Z" "1000_b" Scenario.files_A in
  let w := CrossProject.started in
  exists s w',
    at_most_one_active (db w)
    /\ handleUserPromptSubmit env Scenario.data w = (Return s, w')
    /\ currentSession w' = Some s
    /\ Session.id s = "session_1000_a".
Proof.
  cbv zeta.
  assert (Hw : at_most_one_active (db CrossProject.started)).
  { apply (after_events_Inv
             [ (Scenario.env "2024-05-01T10:00:00.000Z" "1000_a" Scenario.files_A,
                UserPromptSubmit Scenario.data) ] (new_CheckpointManager ∅ [])).
    apply new_CheckpointManager_Inv. }
  destruct (handleUserPromptSubmit
              (Scenario.env "2024-05-01T10:01:00.000Z" "1000_b" Scenario.files_A)
              Scenario.data CrossProject.started) as [[s|e] w'] eqn:Hrun;
    [|vm_compute in Hrun; discriminate Hrun].
  exists s, w'. split; [exact Hw|]. split; [reflexivity|].
  destruct (handleUserPromptSubmit_returns_active_session _ _ _ _ _ Hw Hrun)
    as [Hcur _].
  split; [exact Hcur|].
  vm_compute in Hrun. injection Hrun as <- _. reflexivity.
Defined.

Lemma only_active_update (projectPath i j : string) (set : Session.t -> Session.t)
    (d d' : Database) :
  (forall s, Session.id (set s) = Session.id s) ->
  keeps_closed set ->
  only_active projectPath i d ->
  update_sessions_where_id set j d = inl d' ->
  only_active projectPath i d'.
Proof.
  intros Hid Hclosed Hd [= <-] r Hr Hactive. simpl in Hr.
  apply in_map_iff in Hr as [r0 [<- Hr0]].
  destruct (String.eqb (Session.id r0) j).
  - rewrite Hid. apply (Hd r0 Hr0). now apply Hclosed.
  - now apply Hd.
Qed.

Lemma triple_createCheckpoint_only_active (projectPath i : string) (env : Env)
    (session : Session.t) :
  triple (on_db (only_active projectPath i)) (on_db (only_active projectPath i))
         (createCheckpoint env session) (fun _ => on_db (only_active projectPath i)).
Proof.
  apply triple_createCheckpoint.
  - intros row d d' Hd Hstmt. unfold insert_checkpoint in Hstmt.
    destruct (has_checkpoint _ d); [discriminate|].
    destruct (has_session _ d); [|discriminate]. now injection Hstmt as <-.
  - intros checkpointId file d d' Hd Hstmt. unfold insert_file_snapshot in Hstmt.
    destruct (has_checkpoint _ d); [|discriminate]. now injection Hstmt as <-.
  - intros n time j d d' Hd Hstmt.
    refine (only_active_update _ _ _ (set_stats n time) _ _ (fun s => eq_refl) _ Hd Hstmt).
    intros p r H. exact H.
Qed.

(** X9. A prompt followed by its Stop event leaves the project without an
    active session. On a store with at most one active session per project,
    when [handleUserPromptSubmit] returns and the [handleStop] that comes next
    returns (with a checkpoint or with null, whatever event it is given), the
    project of the prompt has no active session any more, every row with the
    id of the session the prompt returned has the time of the Stop event as
    its end time, and the cached session is cleared. *)
Theorem prompt_then_stop_closes_session (env env' : Env) (data data' : EventData)
    (w w1 w2 : World) (s : Session.t) (r : option CheckpointInfo) :
  at_most_one_active (db w) ->
  handleUserPromptSubmit env data w = (Return s, w1) ->
  handleStop env' data' w1 = (Return r, w2) ->
  select_active_session (projectPath_of env data) (db w2) = None
  /\ (forall row, In row (sessions (db w2)) -> Session.id row = Session.id s ->
                  Session.sessionEndTime row = Some (now env'))
  /\ map Session.id (sessions (db w2)) = map Session.id (sessions (db w1))
  /\ currentSession w2 = None.
Proof.
  intros Hd Hprompt Hstop.
  assert (Hw1 : currentSession w1 = Some s
                /\ only_active (projectPath_of env data) (Session.id s) (db w1)).
  { destruct (select_active_session (projectPath_of env data) (db w)) as [s0|] eqn:Hsel.
    - pose proof (active_single _ _ _ Hd Hsel) as Hone.
      rewrite (handleUserPromptSubmit_active _ _ _ _ Hsel) in Hprompt.
      destruct (hd false (io_errors w)); [discriminate|].
      injection Hprompt as <- <-. split; [reflexivity|].
      intros row Hrow Hactive. simpl in Hrow.
      assert (Hin : In row (List.filter (is_active_for (projectPath_of env data))
                              (refresh_rows (extract_promptText data) (now env)
                                            (Session.id s0) (sessions (db w)))))
        by (apply filter_In; now split).
      rewrite filter_active_refreshed in Hin. unfold active_sessions in Hone.
      rewrite Hone in Hin. unfold refresh_rows in Hin. simpl in Hin.
      rewrite String.eqb_refl in Hin. destruct Hin as [<-|[]]. reflexivity.
    - unfold handleUserPromptSubmit, getActiveSession, query in Hprompt.
      unfold bind at 1 2 in Hprompt. rewrite Hsel in Hprompt.
      unfold ret at 1 in Hprompt. unfold bind at 1 in Hprompt.
      rewrite run_cases in Hprompt.
      destruct (hd false (io_errors w)); [discriminate|].
      unfold insert_session in Hprompt.
      destruct (has_session _ (db w)); [discriminate|].
      unfold bind, set_currentSession, ret in Hprompt. injection Hprompt as <- <-.
      split; [reflexivity|]. simpl.
      apply latest_started_nonempty in Hsel.
      intros row Hrow Hactive. apply in_app_or in Hrow as [Hrow|[<-|[]]]; [|reflexivity].
      exfalso.
      assert (Hin : In row (List.filter (is_active_for (projectPath_of env data))
                                        (sessions (db w))))
        by (apply filter_In; now split).
      rewrite Hsel in Hin. exact Hin. }
  destruct Hw1 as [Hcur Honly].
  assert (Hs : session_to_stop env' data' w1 = Some s)
    by (unfold session_to_stop; now rewrite Hcur).
  rewrite (handleStop_session _ _ _ _ Hs) in Hstop.
  unfold bind at 1 in Hstop.
  pose proof (triple_createCheckpoint_only_active (projectPath_of env data) (Session.id s)
                env' s (with_session w1 (Some s)) Honly) as Hcp.
  assert (Hids : forall K : list string -> Prop,
             K (map Session.id (sessions (db w1))) ->
             match createCheckpoint env' s (with_session w1 (Some s)) with
             | (_, w') => K (map Session.id (sessions (db w')))
             end).
  { intros K HK.
    pose proof (triple_createCheckpoint
                  (fun d => K (map Session.id (sessions d))) env' s) as Ht.
    unfold triple, on_db in Ht.
    assert (Hpre : K (map Session.id (sessions (db (with_session w1 (Some s)))))) by exact HK.
    specialize (fun H1 H2 H3 => Ht H1 H2 H3 _ Hpre).
    destruct (createCheckpoint env' s (with_session w1 (Some s))) as [[c|e] w'];
      apply Ht.
    all: try (intros row d d' Hk Hstmt; unfold insert_checkpoint in Hstmt;
              destruct (has_checkpoint _ d); [discriminate|];
              destruct (has_session _ d); [|discriminate]; now injection Hstmt as <-).
    all: try (intros checkpointId file d d' Hk Hstmt; unfold insert_file_snapshot in Hstmt;
              destruct (has_checkpoint _ d); [|discriminate]; now injection Hstmt as <-).
    all: intros n time j d d' Hk [= <-]; simpl; now rewrite updated_ids. }
  specialize (Hids (fun ids => ids = map Session.id (sessions (db w1))) eq_refl).
  destruct (createCheckpoint env' s (with_session w1 (Some s))) as [[c|e] w1'];
    [|discriminate].
  unfold on_db in Hcp.
  unfold bind at 1 in Hstop. rewrite run_cases in Hstop.
  destruct (hd false (io_errors w1')); [discriminate|].
  unfold update_sessions_where_id in Hstop.
  unfold bind, set_currentSession, ret in Hstop. injection Hstop as <- <-. simpl.
  split; [|split; [|split; [|reflexivity]]].
  - unfold select_active_session. simpl.
    replace (List.filter _ _) with (@nil Session.t); [reflexivity|]. symmetry.
    assert (H : forall rows,
               (forall r0, In r0 rows ->
                           is_active_for (projectPath_of env data) r0 = true ->
                           Session.id r0 = Session.id s) ->
               List.filter (is_active_for (projectPath_of env data))
                 (map (fun s0 => if String.eqb (Session.id s0) (Session.id s)
                                 then set_end (now env') s0 else s0) rows) = []).
    { induction rows as [|r0 rows IH]; intros Hrows; simpl; [reflexivity|].
      rewrite IH by (intros r1 Hr1; apply Hrows; now right).
      destruct (String.eqb_spec (Session.id r0) (Session.id s)) as [Heq|Hne].
      - unfold is_active_for. simpl. now rewrite andb_false_r.
      - destruct (is_active_for (projectPath_of env data) r0) eqn:Hactive; [|reflexivity].
        exfalso. apply Hne. apply Hrows; [now left | exact Hactive]. }
    apply H. exact Hcp.
  - intros row Hrow Hid. apply in_map_iff in Hrow as [r0 [<- Hr0]].
    destruct (String.eqb_spec (Session.id r0) (Session.id s)) as [Heq|Hne];
      [reflexivity | contradiction].
  - rewrite updated_ids by reflexivity. exact Hids.
Qed.

(** X9 (witness): the first prompt of the scenario and its Stop event. *)
Lemma prompt_then_stop_closes_session_witness :
  let env := Scenario.env "2024-05-01T10:00:00.000Z" "1000_a" Scenario.files_A in
  let env' := Scenario.env "2024-05-01T10:05:00.000Z" "1001_a" Scenario.files_A in
  let w := new_CheckpointManager ∅ [] in
  exists s w1 r w2,
    at_most_one_active (db w)
    /\ handleUserPromptSubmit env Scenario.data w = (Return s, w1)
    /\ handleStop env' Scenario.data w1 = (Return r, w2)
    /\ select_active_session "/p" (db w2) = None
    /\ currentSession w2 = None.
Proof.
  cbv zeta.
  destruct (handleUserPromptSubmit
              (Scenario.env "2024-05-01T10:00:00.000Z" "1000_a" Scenario.files_A)
              Scenario.data (new_CheckpointManager ∅ [])) as [[s|e] w1] eqn:Hprompt;
    [|vm_compute in Hprompt; discriminate Hprompt].
  destruct (handleStop
              (Scenario.env "2024-05-01T10:05:00.000Z" "1001_a" Scenario.files_A)
              Scenario.data w1) as [[r|e] w2] eqn:Hstop.
  - exists s, w1, r, w2.
    pose proof (new_CheckpointManager_Inv ∅ []) as Hw.
    destruct (prompt_then_stop_closes_session _ _ _ _ _ _ _ _ _ Hw Hprompt Hstop)
      as [Hnone [_ [_ Hcur]]].
    split; [exact Hw|]. split; [reflexivity|]. split; [exact Hstop|].
    split; [exact Hnone | exact Hcur].
  - exfalso. vm_compute in Hprompt. injection Hprompt as <- <-.
    vm_compute in Hstop. discriminate Hstop.
Defined.

(** ** The command line *)

Lemma startsWith_dash (a : string) :
  Str.startsWith a "--" = true -> Str.startsWith a "-" = true.
Proof.
  destruct a as [|c a]; cbn [Str.startsWith]; [discriminate|].
  destruct (Ascii.eqb c "-"); [|discriminate]. intros _. now destruct a.
Qed.

Lemma is_value_no_dash (a : string) :
  Args.is_value a = true -> Str.startsWith a "-" = false.
Proof.
  unfold Args.is_value. intros H. apply andb_prop in H as [_ H].
  now apply negb_true_iff in H.
Qed.

Lemma is_value_not_option (a : string) :
  Args.is_value a = true -> Str.startsWith a "--" = false.
Proof.
  intros H. apply is_value_no_dash in H.
  destruct (Str.startsWith a "--") eqn:Hdd; [|reflexivity].
  apply startsWith_dash in Hdd. congruence.
Qed.

Lemma is_value_not_flags (a : string) : Args.is_value a = true -> Args.is_flags a = false.
Proof.
  intros H. unfold Args.is_flags. now rewrite (is_value_no_dash _ H).
Qed.

Lemma chars_single (s x : string) : In x (Str.chars s) -> String.length x = 1.
Proof.
  induction s as [|c s IH]; simpl; [intros []|].
  intros [<-|Hx]; [reflexivity | now apply IH].
Qed.

(** The flags the loop collects. *)
Lemma parse_loop_flags (n : nat) :
  forall args options flags,
    length args <= n ->
    snd (Args.parse_loop args options flags)
    = flags ++ flat_map (fun a => Str.chars (Str.slice_from 1 a))
                        (List.filter Args.is_flags args).
Proof.
  induction n as [|n IH]; intros args options flags Hlen.
  - destruct args; [simpl; now rewrite app_nil_r | simpl in Hlen; lia].
  - destruct args as [|arg rest]; [simpl; now rewrite app_nil_r|].
    simpl in Hlen. cbn [Args.parse_loop]. cbn [List.filter]. unfold Args.is_flags at 1.
    destruct (Str.startsWith arg "--") eqn:Hdd.
    + rewrite (startsWith_dash _ Hdd). cbn [andb negb].
      destruct (Args.value_of arg) as [value|]; [apply IH; lia|].
      destruct rest as [|nextArg rest']; [apply IH; simpl; lia|].
      destruct (Args.is_value nextArg) eqn:Hvalue.
      * cbn [List.filter]. rewrite (is_value_not_flags _ Hvalue).
        apply IH. simpl in Hlen. lia.
      * apply IH. lia.
    + destruct (Str.startsWith arg "-") eqn:Hd; cbn [andb negb].
      * rewrite IH by lia. cbn [flat_map]. now rewrite <- app_assoc.
      * apply IH. lia.
Qed.

(** X10. The flags [parseArgs] returns are the code units that follow the
    dash of each single-dash argument, in the order of the command line, and
    nothing else: every flag is one code unit long, and neither the command,
    nor an option, nor the value taken by an option adds a flag. The command
    is the first argument when it is not empty and does not start with a
    dash, and ["show"] otherwise. *)
Theorem parseArgs_flags (argv : list string) :
  Args.flags (Args.parseArgs argv)
  = flat_map (fun a => Str.chars (Str.slice_from 1 a))
             (List.filter Args.is_flags (skipn 2 argv))
  /\ (forall x, In x (Args.flags (Args.parseArgs argv)) -> String.length x = 1)
  /\ Args.command (Args.parseArgs argv)
     = match skipn 2 argv with
       | a0 :: _ => if Args.is_value a0 then a0 else "show"
       | [] => "show"
       end.
Proof.
  assert (Hflags : Args.flags (Args.parseArgs argv)
                   = flat_map (fun a => Str.chars (Str.slice_from 1 a))
                              (List.filter Args.is_flags (skipn 2 argv))).
  { unfold Args.parseArgs. destruct (skipn 2 argv) as [|a0 rest]; [reflexivity|].
    cbn [length Nat.eqb].
    destruct (Args.is_value a0) eqn:Hvalue.
    - cbn [List.filter]. simpl (skipn _ _); rewrite ?drop_0. rewrite (is_value_not_flags _ Hvalue).
      pose proof (parse_loop_flags (length rest) rest ∅ [] (le_n _)) as H.
      destruct (Args.parse_loop rest ∅ []) as [options flags]. exact H.
    - simpl (skipn _ _); rewrite ?drop_0.
      pose proof (parse_loop_flags (length (a0 :: rest)) (a0 :: rest) ∅ [] (le_n _)) as H.
      destruct (Args.parse_loop (a0 :: rest) ∅ []) as [options flags]. exact H. }
  split; [exact Hflags|]. split.
  - rewrite Hflags. intros x Hx. apply in_flat_map in Hx as [a [_ Hx]].
    exact (chars_single _ _ Hx).
  - unfold Args.parseArgs. destruct (skipn 2 argv) as [|a0 rest]; [reflexivity|].
    cbn [length Nat.eqb].
    destruct (Args.is_value a0); simpl (skipn _ _); rewrite ?drop_0;
      destruct (Args.parse_loop _ ∅ []) as [options flags]; reflexivity.
Qed.

(** X10 (witness): [ccheckpoints track -vq --port 7000 -x]. *)
Lemma parseArgs_flags_witness :
  let argv := ["node"; "ccheckpoints"; "track"; "-vq"; "--port"; "7000"; "-x"] in
  Args.flags (Args.parseArgs argv) = ["v"; "q"; "x"]
  /\ Args.command (Args.parseArgs argv) = "track"
  /\ String.length "q" = 1.
Proof.
  cbv zeta.
  destruct (parseArgs_flags ["node"; "ccheckpoints"; "track"; "-vq"; "--port"; "7000"; "-x"])
    as [Hflags [Hsingle Hcommand]].
  split; [rewrite Hflags; vm_compute; reflexivity|].
  split; [rewrite Hcommand; vm_compute; reflexivity|].
  apply Hsingle. rewrite Hflags. vm_compute. right. left. reflexivity.
Defined.

Lemma set_option_other (key k : string) (v : Args.OptionValue)
    (options : gmap string Args.OptionValue) :
  key <> k -> Args.set_option key v options !! k = options !! k.
Proof.
  intros Hne. unfold Args.set_option.
  destruct (String.eqb key "__proto__"); [reflexivity | now apply lookup_insert_ne].
Qed.

Lemma set_option_same (key : string) (v : Args.OptionValue)
    (options : gmap string Args.OptionValue) :
  key <> "__proto__" -> Args.set_option key v options !! key = Some v.
Proof.
  intros Hne. unfold Args.set_option.
  apply String.eqb_neq in Hne. rewrite Hne. apply lookup_insert_eq.
Qed.

(** Arguments that do not name [k] leave it alone. *)
Lemma parse_loop_keeps (k : string) (n : nat) :
  forall args options flags,
    length args <= n ->
    (forall b, In b args -> Str.startsWith b "--" = true -> Args.key_of b <> k) ->
    fst (Args.parse_loop args options flags) !! k = options !! k.
Proof.
  induction n as [|n IH]; intros args options flags Hlen Hother.
  - destruct args; [reflexivity | simpl in Hlen; lia].
  - destruct args as [|arg rest]; [reflexivity|].
    simpl in Hlen. cbn [Args.parse_loop].
    destruct (Str.startsWith arg "--") eqn:Hdd.
    + assert (Hk : Args.key_of arg <> k) by (apply Hother; [now left | exact Hdd]).
      destruct (Args.value_of arg) as [value|].
      { rewrite IH; [now apply set_option_other | lia |].
        intros b Hb. apply Hother. now right. }
      destruct rest as [|nextArg rest'].
      { rewrite IH; [now apply set_option_other | simpl; lia | intros b []]. }
      destruct (Args.is_value nextArg).
      * rewrite IH; [now apply set_option_other | simpl in Hlen; lia |].
        intros b Hb. apply Hother. right. now right.
      * rewrite IH; [now apply set_option_other | lia |].
        intros b Hb. apply Hother. now right.
    + destruct (Str.startsWith arg "-");
        (apply IH; [lia | intros b Hb; apply Hother; now right]).
Qed.

(** An argument that starts with a dash is never taken as a value. *)
Lemma parse_loop_reaches (a : string) (post : list string) (n : nat) :
  Str.startsWith a "-" = true ->
  forall pre options flags,
    length pre <= n ->
    exists options' flags',
      Args.parse_loop (pre ++ a :: post) options flags
      = Args.parse_loop (a :: post) options' flags'.
Proof.
  intros Hdash. induction n as [|n IH]; intros pre options flags Hlen.
  - destruct pre; [now exists options, flags | simpl in Hlen; lia].
  - destruct pre as [|arg pre']; [now exists options, flags|].
    simpl in Hlen. rewrite <- app_comm_cons.
    remember (a :: post) as tail_ eqn:Htail.
    cbn [Args.parse_loop].
    destruct (Str.startsWith arg "--").
    + destruct (Args.value_of arg) as [value|]; [apply IH; lia|].
      destruct pre' as [|nextArg pre''].
      * rewrite app_nil_l. rewrite Htail.
        assert (Hno : Args.is_value a = false).
        { unfold Args.is_value. rewrite Hdash. apply andb_false_r. }
        rewrite Hno. rewrite <- Htail. apply (IH []). simpl. lia.
      * rewrite <- app_comm_cons. destruct (Args.is_value nextArg).
        -- apply IH. simpl in Hlen. lia.
        -- rewrite app_comm_cons. apply IH. lia.
    + destruct (Str.startsWith arg "-"); apply IH; lia.
Qed.

(** The keys the loop defines. *)
Lemma parse_loop_keys (k : string) (n : nat) :
  forall args options flags,
    length args <= n ->
    (is_Some (fst (Args.parse_loop args options flags) !! k)
     <-> is_Some (options !! k)
         \/ (k <> "__proto__"
             /\ exists a, In a args /\ Str.startsWith a "--" = true /\ Args.key_of a = k)).
Proof.
  assert (Hset : forall key v (options : gmap string Args.OptionValue),
             is_Some (Args.set_option key v options !! k)
             <-> is_Some (options !! k) \/ (k <> "__proto__" /\ key = k)).
  { intros key v options. unfold Args.set_option.
    destruct (String.eqb_spec key "__proto__") as [->|Hproto].
    - split; [now left|]. intros [H|[H1 H2]]; [exact H | congruence].
    - destruct (decide (key = k)) as [->|Hne].
      + rewrite lookup_insert_eq. split; [intros _; right; now split | intros _; now eexists].
      + rewrite lookup_insert_ne by exact Hne.
        split; [now left|]. intros [H|[_ H]]; [exact H | contradiction]. }
  induction n as [|n IH]; intros args options flags Hlen.
  - destruct args; [|simpl in Hlen; lia]. simpl.
    split; [now left|]. intros [H|[_ [a [[] _]]]]. exact H.
  - destruct args as [|arg rest].
    { simpl. split; [now left|]. intros [H|[_ [a [[] _]]]]. exact H. }
    simpl in Hlen. cbn [Args.parse_loop].
    destruct (Str.startsWith arg "--") eqn:Hdd.
    + assert (Hgen : forall v,
                 is_Some (fst (Args.parse_loop rest
                                 (Args.set_option (Args.key_of arg) v options) flags) !! k)
                 <-> is_Some (options !! k)
                     \/ (k <> "__proto__"
                         /\ exists a, In a (arg :: rest)
                                      /\ Str.startsWith a "--" = true /\ Args.key_of a = k)).
      { intros v. rewrite IH by lia. rewrite Hset. split.
        - intros [[H|[Hp Hk]]|[Hp [a [Ha [Hda Hka]]]]].
          + now left.
          + right. split; [exact Hp|]. exists arg. split; [now left | now split].
          + right. split; [exact Hp|]. exists a. split; [now right | now split].
        - intros [H|[Hp [a [[<-|Ha] [Hda Hka]]]]].
          + left. now left.
          + left. right. now split.
          + right. split; [exact Hp|]. now exists a. }
      destruct (Args.value_of arg) as [value|]; [apply Hgen|].
      destruct rest as [|nextArg rest']; [apply Hgen|].
      destruct (Args.is_value nextArg) eqn:Hvalue; [|apply Hgen].
      rewrite IH by (simpl in Hlen; lia). rewrite Hset. split.
      * intros [[H|[Hp Hk]]|[Hp [a [Ha [Hda Hka]]]]].
        -- now left.
        -- right. split; [exact Hp|]. exists arg. split; [now left | now split].
        -- right. split; [exact Hp|]. exists a. split; [right; now right | now split].
      * intros [H|[Hp [a [[<-|[<-|Ha]] [Hda Hka]]]]].
        -- left. now left.
        -- left. right. now split.
        -- rewrite (is_value_not_option _ Hvalue) in Hda. discriminate.
        -- right. split; [exact Hp|]. now exists a.
    + assert (Hskip : forall fl,
                 is_Some (fst (Args.parse_loop rest options fl) !! k)
                 <-> is_Some (options !! k)
                     \/ (k <> "__proto__"
                         /\ exists a, In a (arg :: rest)
                                      /\ Str.startsWith a "--" = true /\ Args.key_of a = k)).
      { intros fl. rewrite IH by lia. split.
        - intros [H|[Hp [a [Ha [Hda Hka]]]]]; [now left|].
          right. split; [exact Hp|]. exists a. split; [now right | now split].
        - intros [H|[Hp [a [[<-|Ha] [Hda Hka]]]]]; [now left | congruence |].
          right. split; [exact Hp|]. now exists a. }
      destruct (Str.startsWith arg "-"); apply Hskip.
Qed.

(** X11. The options [parseArgs] returns. A key is defined exactly when some
    argument after the command starts with two dashes and names it, the key
    ["__proto__"] excepted, which is never defined. An argument
    [--key=value] is never taken as the value of the option before it, and
    when no later argument names the same key, the key holds that value. *)
Theorem parseArgs_options (argv : list string) :
  (forall k,
      is_Some (Args.options (Args.parseArgs argv) !! k)
      <-> k <> "__proto__"
          /\ exists a, In a (skipn 2 argv)
                       /\ Str.startsWith a "--" = true /\ Args.key_of a = k)
  /\ (forall pre a post value,
         skipn 2 argv = pre ++ a :: post ->
         Str.startsWith a "--" = true ->
         Args.value_of a = Some value ->
         Args.key_of a <> "__proto__" ->
         (forall b, In b post -> Str.startsWith b "--" = true ->
                    Args.key_of b <> Args.key_of a) ->
         Args.options (Args.parseArgs argv) !! Args.key_of a = Some (Args.Text value)).
Proof.
  assert (Hparse : exists skipped args,
             skipn 2 argv = skipped ++ args
             /\ Args.options (Args.parseArgs argv) = fst (Args.parse_loop args ∅ [])
             /\ (forall a, In a skipped -> Args.is_value a = true)
             /\ length skipped <= 1).
  { unfold Args.parseArgs. destruct (skipn 2 argv) as [|a0 rest].
    - exists [], []. split; [reflexivity|]. split; [reflexivity|].
      split; [intros a [] | simpl; lia].
    - cbn [length Nat.eqb]. destruct (Args.is_value a0) eqn:Hvalue.
      + exists [a0], rest. simpl (skipn _ _); rewrite ?drop_0.
        destruct (Args.parse_loop rest ∅ []) as [options flags].
        split; [reflexivity|]. split; [reflexivity|].
        split; [|simpl; lia]. intros a [<-|[]]. exact Hvalue.
      + exists [], (a0 :: rest). simpl (skipn _ _); rewrite ?drop_0.
        destruct (Args.parse_loop (a0 :: rest) ∅ []) as [options flags].
        split; [reflexivity|]. split; [reflexivity|].
        split; [intros a [] | simpl; lia]. }
  destruct Hparse as [skipped [args [Hargs [Hoptions [Hskipped Hone]]]]].
  rewrite Hoptions, Hargs. split.
  - intros k. rewrite (parse_loop_keys k (length args) args ∅ [] (le_n _)).
    rewrite lookup_empty. split.
    + intros [[x Hx]|[Hp [a [Ha Hrest]]]]; [discriminate|].
      split; [exact Hp|]. exists a. split; [apply in_or_app; now right | exact Hrest].
    + intros [Hp [a [Ha [Hdd Hk]]]]. right. split; [exact Hp|].
      exists a. split; [|now split].
      apply in_app_or in Ha as [Ha|Ha]; [|exact Ha].
      rewrite (is_value_not_option _ (Hskipped _ Ha)) in Hdd. discriminate.
  - intros pre a post value Hsplit Hdd Hvalue Hproto Hlater.
    assert (Hpre : exists pre', args = pre' ++ a :: post).
    { destruct skipped as [|a0 [|a1 skipped]]; [| |simpl in Hone; lia].
      - now exists pre.
      - destruct pre as [|p pre].
        + simpl in Hsplit. injection Hsplit as -> _.
          rewrite (is_value_not_option _ (Hskipped _ (or_introl eq_refl))) in Hdd.
          discriminate.
        + simpl in Hsplit. injection Hsplit as _ ->. now exists pre. }
    destruct Hpre as [pre' ->].
    destruct (parse_loop_reaches a post (length pre') (startsWith_dash _ Hdd) pre' ∅ []
                (le_n _)) as [options' [flags' ->]].
    cbn [Args.parse_loop]. rewrite Hdd, Hvalue.
    rewrite (parse_loop_keeps (Args.key_of a) (length post) post _ _ (le_n _) Hlater).
    now apply set_option_same.
Qed.

(** X11 (witness): [ccheckpoints track --event --port=7000 -vq]: the option
    [--event] does not take [--port=7000] as its value. *)
Lemma parseArgs_options_witness :
  let argv := ["node"; "ccheckpoints"; "track"; "--event"; "--port=7000"; "-vq"] in
  Args.options (Args.parseArgs argv) !! "port" = Some (Args.Text "7000")
  /\ is_Some (Args.options (Args.parseArgs argv) !! "event")
  /\ Args.options (Args.parseArgs argv) !! "event" = Some Args.Enabled.
Proof.
  cbv zeta. split; [|split].
  - apply (proj2 (parseArgs_options
                    ["node"; "ccheckpoints"; "track"; "--event"; "--port=7000"; "-vq"])
                 ["track"; "--event"] "--port=7000" ["-vq"] "7000");
      [reflexivity | reflexivity | reflexivity | discriminate |].
    intros b [<-|[]]. discriminate.
  - apply (proj1 (parseArgs_options
                    ["node"; "ccheckpoints"; "track"; "--event"; "--port=7000"; "-vq"])
                 "event").
    split; [discriminate|]. exists "--event".
    split; [right; left; reflexivity | split; reflexivity].
  - vm_compute. reflexivity.
Defined.

(** ** File sizes *)

Lemma tenths_bounds (num den : N) :
  (0 < den)%N ->
  (2 * FileUtils.tenths num den * den <= 20 * num + den
   /\ 20 * num < 2 * FileUtils.tenths num den * den + den)%N.
Proof.
  intros Hden. unfold FileUtils.tenths.
  assert (Hpos : (2 * den <> 0)%N) by lia.
  pose proof (N.div_mod (20 * num + den) (2 * den) Hpos) as Hdiv.
  pose proof (N.mod_lt (20 * num + den) (2 * den) Hpos) as Hmod.
  set (q := ((20 * num + den) / (2 * den))%N) in *.
  set (r := ((20 * num + den) mod (2 * den))%N) in *.
  replace (2 * q * den)%N with (2 * den * q)%N by lia.
  split; lia.
Qed.

Lemma scale_cases (bytes : N) :
  let k := FileUtils.scale (length FileUtils.units - 1) bytes 0 in
  ((bytes < 1024)%N /\ k = 0)
  \/ ((1024 <= bytes < 1024 ^ 2)%N /\ k = 1)
  \/ ((1024 ^ 2 <= bytes < 1024 ^ 3)%N /\ k = 2)
  \/ ((1024 ^ 3 <= bytes)%N /\ k = 3).
Proof.
  cbv zeta. change (length FileUtils.units - 1) with 3. cbn [FileUtils.scale].
  change (length FileUtils.units - 1) with 3.
  change (1024 * 1024 ^ N.of_nat 0)%N with 1024%N.
  change (1024 * 1024 ^ N.of_nat 1)%N with (1024 ^ 2)%N.
  change (1024 * 1024 ^ N.of_nat 2)%N with (1024 ^ 3)%N.
  change (0 <? 3) with true. change (1 <? 3) with true. change (2 <? 3) with true.
  rewrite !andb_true_r.
  destruct (N.leb_spec 1024 bytes) as [H1|H1]; [|left; split; [exact H1 | reflexivity]].
  destruct (N.leb_spec (1024 ^ 2) bytes) as [H2|H2];
    [|right; left; split; [split; assumption | reflexivity]].
  destruct (N.leb_spec (1024 ^ 3) bytes) as [H3|H3];
    [|right; right; left; split; [split; assumption | reflexivity]].
  right; right; right. split; [assumption | reflexivity].
Qed.

(** X12. [formatFileSize] on a byte count below [2^53]. The unit is B below
    1024 bytes, KB below [1024^2], MB below [1024^3] and GB from there on (no
    larger unit is ever used), and the number printed in front of it, with
    one decimal, is the size in that unit rounded to the nearest tenth, a tie
    going up. Below 1024 bytes the text is the byte count followed by
    [".0 B"]. *)
Theorem formatFileSize_unit_and_rounding (bytes : N) :
  (bytes < 2 ^ 53)%N ->
  (exists k unit n,
      nth_error FileUtils.units k = Some unit
      /\ FileUtils.formatFileSize bytes
         = Str.of_N (n / 10) +:+ "." +:+ Str.of_N (n mod 10) +:+ " " +:+ unit
      /\ (0 < k -> (1024 ^ N.of_nat k <= bytes)%N)
      /\ (k < 3 -> (bytes < 1024 ^ N.of_nat (S k))%N)
      /\ (2 * n * 1024 ^ N.of_nat k <= 20 * bytes + 1024 ^ N.of_nat k)%N
      /\ (20 * bytes < 2 * n * 1024 ^ N.of_nat k + 1024 ^ N.of_nat k)%N)
  /\ ((bytes < 1024)%N ->
      FileUtils.formatFileSize bytes = Str.of_N bytes +:+ ".0 B").
Proof.
  intros _. unfold FileUtils.formatFileSize, FileUtils.toFixed1.
  pose proof (scale_cases bytes) as Hk. cbv zeta in Hk. split.
  - set (k := FileUtils.scale (length FileUtils.units - 1) bytes 0) in *.
    assert (Hden : (0 < 1024 ^ N.of_nat k)%N)
      by (apply N.neq_0_lt_0, N.pow_nonzero; discriminate).
    destruct (tenths_bounds bytes _ Hden) as [Hlow Hhigh].
    exists k, (nth k FileUtils.units "undefined"),
           (FileUtils.tenths bytes (1024 ^ N.of_nat k)).
    split; [|split; [now rewrite !append_assoc|split; [|split; [|split; assumption]]]].
    + destruct Hk as [[_ ->]|[[_ ->]|[[_ ->]|[_ ->]]]]; reflexivity.
    + intros Hpos.
      destruct Hk as [[_ Hk]|[[[H _] Hk]|[[[H _] Hk]|[H Hk]]]]; rewrite Hk in *;
        [lia | exact H | exact H | exact H].
    + intros Hlt.
      destruct Hk as [[H Hk]|[[[_ H] Hk]|[[[_ H] Hk]|[_ Hk]]]]; rewrite Hk in *;
        [exact H | exact H | exact H | lia].
  - intros Hsmall.
    destruct Hk as [[_ ->]|[[[H _] _]|[[[H _] _]|[H _]]]]; [|lia|lia|lia].
    change (1024 ^ N.of_nat 0)%N with 1%N. unfold FileUtils.tenths.
    replace ((20 * bytes + 1) / (2 * 1))%N with (10 * bytes)%N
      by (apply N.div_unique with (r := 1%N); lia).
    replace (10 * bytes / 10)%N with bytes
      by (symmetry; rewrite N.mul_comm; apply N.div_mul; discriminate).
    replace ((10 * bytes) mod 10)%N with 0%N
      by (symmetry; rewrite N.mul_comm; apply N.Div0.mod_mul).
    rewrite !append_assoc. reflexivity.
Qed.

(** X12 (witness): one byte short of a mebibyte is shown as 1024.0 KB. *)
Lemma formatFileSize_unit_and_rounding_witness :
  (1048575 < 2 ^ 53)%N
  /\ FileUtils.formatFileSize 1048575 = "1024.0 KB"
  /\ FileUtils.formatFileSize 1023 = "1023.0 B"
  /\ exists k unit n,
       nth_error FileUtils.units k = Some unit
       /\ FileUtils.formatFileSize 1048575
          = Str.of_N (n / 10) +:+ "." +:+ Str.of_N (n mod 10) +:+ " " +:+ unit
       /\ (20 * 1048575 < 2 * n * 1024 ^ N.of_nat k + 1024 ^ N.of_nat k)%N.
Proof.
  split; [reflexivity|]. split; [reflexivity|]. split; [reflexivity|].
  destruct (proj1 (formatFileSize_unit_and_rounding 1048575 eq_refl))
    as [k [unit [n [Hunit [Htext [_ [_ [_ Hhigh]]]]]]]].
  exists k, unit, n. split; [exact Hunit|]. split; [exact Htext | exact Hhigh].
Defined.

(** ** Ignore patterns *)








(** ** The scan *)

Lemma omap_id_map {A B} (f : A -> option B) (l : list A) : omap id (map f l) = omap f l.
Proof.
  induction l as [|x l IH]; [reflexivity|]. cbn. rewrite IH. now destruct (f x).
Qed.

Lemma omap_In {A B} (f : A -> option B) (l : list A) (y : B) :
  In y (omap f l) <-> exists x, In x l /\ f x = Some y.
Proof.
  induction l as [|x l IH]; cbn.
  - split; [intros [] | intros [x [[] _]]].
  - destruct (f x) as [y'|] eqn:Hfx; cbn; rewrite IH; split.
    + intros [<-|[x' [Hx' Hy]]]; [exists x; split; [now left | exact Hfx]|].
      exists x'. split; [now right | exact Hy].
    + intros [x' [[<-|Hx'] Hy]]; [left; congruence | right; now exists x'].
    + intros [x' [Hx' Hy]]. exists x'. split; [now right | exact Hy].
    + intros [x' [[<-|Hx'] Hy]]; [congruence | now exists x'].
Qed.

Lemma omap_length_le {A B} (f : A -> option B) (l : list A) :
  length (omap f l) <= length l.
Proof.
  induction l as [|x l IH]; cbn; [lia|]. destruct (f x); cbn; lia.
Qed.

Lemma In_firstn_in {A} (n : nat) (l : list A) (x : A) : In x (firstn n l) -> In x l.
Proof.
  revert l. induction n as [|n IH]; intros [|y l]; simpl; try tauto.
  intros [Hx|Hx]; [now left | right; now apply IH].
Qed.

Lemma cap_is_firstn {A} (n : nat) (l : list A) :
  (if n <? length l then firstn n l else l) = firstn n l.
Proof.
  destruct (Nat.ltb_spec n (length l)); [reflexivity|].
  symmetry. now apply firstn_all2.
Qed.

Section ScanProperties.

Variable fastGlob : string -> string -> list string -> option (list string).
Variable resolve : string -> string -> string.
Variable relative : string -> string -> string.
Variable extname : string -> string.
Variable access : string -> bool.
Variable stat : string -> option FileUtils.Stats.
Variable readFile : string -> option string.
Variable sha256_hex : string -> string.

Abbreviation processFile :=
  (FileUtils.processFile resolve relative extname access stat readFile sha256_hex).
Abbreviation project_files :=
  (FileUtils.getProjectFiles fastGlob resolve relative extname access stat readFile
                             sha256_hex).
Abbreviation getIgnorePatterns := (FileUtils.getIgnorePatterns fastGlob resolve readFile).
Abbreviation findGitignoreFiles := (FileUtils.findGitignoreFiles fastGlob resolve).

(** The loop over the batches processes every file from [i] on, in order. *)
Lemma batches_all (projectPath : string) (files : list string) (fuel : nat) :
  forall i fileInfos,
    length files <= i + 50 * fuel ->
    FileUtils.batches resolve relative extname access stat readFile sha256_hex
                      fuel projectPath files i fileInfos
    = fileInfos ++ omap (processFile projectPath) (skipn i files).
Proof.
  induction fuel as [|fuel IH]; intros i fileInfos Hfuel; cbn [FileUtils.batches].
  - rewrite skipn_all2 by lia. now rewrite app_nil_r.
  - destruct (Nat.ltb_spec i (length files)) as [Hi|Hi].
    + rewrite IH by lia. rewrite omap_id_map. unfold FileUtils.slice.
      replace (i + 50 - i) with 50 by lia.
      rewrite <- app_assoc. f_equal. rewrite <- omap_app. f_equal.
      replace (skipn (i + 50) files) with (skipn 50 (skipn i files))
        by (rewrite skipn_skipn; f_equal; lia).
      apply firstn_skipn.
    + rewrite skipn_all2 by lia. now rewrite app_nil_r.
Qed.

Lemma getIgnorePatterns_fold (files : list FileUtils.GitignoreFile) :
  forall patterns,
    fold_left (fun patterns gitignoreFile =>
                 match readFile (FileUtils.path gitignoreFile) with
                 | Some gitignoreContent =>
                     patterns ++ FileUtils.gitignorePatterns
                                   (FileUtils.relativePath gitignoreFile) gitignoreContent
                 | None => patterns
                 end) files patterns
    = patterns
      ++ flat_map (fun gitignoreFile =>
                     match readFile (FileUtils.path gitignoreFile) with
                     | Some gitignoreContent =>
                         FileUtils.gitignorePatterns
                           (FileUtils.relativePath gitignoreFile) gitignoreContent
                     | None => []
                     end) files.
Proof.
  induction files as [|file files IH]; intros patterns; cbn [fold_left flat_map].
  - now rewrite app_nil_r.
  - rewrite IH. destruct (readFile (FileUtils.path file)); [|reflexivity].
    now rewrite <- app_assoc.
Qed.

(** X14. The ignore patterns of a project are the twelve default patterns
    followed by the patterns of the [.gitignore] files found, in the order in
    which they were found. A [.gitignore] that cannot be read adds nothing
    and does not stop the others from being read, and when the search for
    [.gitignore] files fails the default patterns are used alone. *)
Theorem getIgnorePatterns_defaults_first (projectPath : string) :
  getIgnorePatterns projectPath
  = FileUtils.DEFAULT_IGNORE_PATTERNS
    ++ flat_map (fun gitignoreFile =>
                   match readFile (FileUtils.path gitignoreFile) with
                   | Some gitignoreContent =>
                       FileUtils.gitignorePatterns
                         (FileUtils.relativePath gitignoreFile) gitignoreContent
                   | None => []
                   end) (findGitignoreFiles projectPath)
  /\ (fastGlob "**/.gitignore" projectPath [".git/**"] = None ->
      getIgnorePatterns projectPath = FileUtils.DEFAULT_IGNORE_PATTERNS)
  /\ (forall p,
         In p (getIgnorePatterns projectPath) ->
         In p FileUtils.DEFAULT_IGNORE_PATTERNS
         \/ exists file gitignoreFile gitignoreContent,
              fastGlob "**/.gitignore" projectPath [".git/**"] = Some gitignoreFile
              /\ In file gitignoreFile
              /\ readFile (resolve projectPath file) = Some gitignoreContent
              /\ In p (FileUtils.gitignorePatterns
                         (if String.eqb file ".gitignore" then ""
                          else FileUtils.replace "/.gitignore" "" file)
                         gitignoreContent)).
Proof.
  assert (Hall : getIgnorePatterns projectPath
                 = FileUtils.DEFAULT_IGNORE_PATTERNS
                   ++ flat_map (fun gitignoreFile =>
                                  match readFile (FileUtils.path gitignoreFile) with
                                  | Some gitignoreContent =>
                                      FileUtils.gitignorePatterns
                                        (FileUtils.relativePath gitignoreFile)
                                        gitignoreContent
                                  | None => []
                                  end) (findGitignoreFiles projectPath))
    by apply getIgnorePatterns_fold.
  split; [exact Hall|]. split.
  - intros Hfail. rewrite Hall. unfold FileUtils.findGitignoreFiles. rewrite Hfail.
    cbn [flat_map]. now rewrite app_nil_r.
  - intros p Hp. rewrite Hall in Hp. apply in_app_or in Hp as [Hp|Hp]; [now left|].
    right. apply in_flat_map in Hp as [gitignoreFile [Hfile Hp]].
    unfold FileUtils.findGitignoreFiles in Hfile.
    destruct (fastGlob "**/.gitignore" projectPath [".git/**"]) as [found|];
      [|destruct Hfile].
    apply in_map_iff in Hfile as [file [<- Hfile]]. cbn in Hp.
    destruct (readFile (resolve projectPath file)) as [gitignoreContent|] eqn:Hread;
      [|destruct Hp].
    exists file, found, gitignoreContent.
    split; [reflexivity|]. split; [exact Hfile|]. split; [exact Hread | exact Hp].
Qed.

(** The scan without its loop. *)
Lemma getProjectFiles_full (projectPath : string) (forceFullScan : bool) :
  project_files projectPath forceFullScan
  = match fastGlob "**/*" projectPath (getIgnorePatterns projectPath) with
    | Some files => Some (omap (processFile projectPath) (firstn 10000 files))
    | None => None
    end.
Proof.
  unfold FileUtils.getProjectFiles. unfold FileUtils.getIncrementalFiles.
  cbn [length]. change (0 <? 0) with false. rewrite andb_false_r.
  destruct (fastGlob "**/*" projectPath (getIgnorePatterns projectPath)) as [files|];
    [|reflexivity].
  rewrite cap_is_firstn. rewrite batches_all by lia.
  rewrite skipn_O. reflexivity.
Qed.

(** What a processed file carries. *)
Lemma processFile_some (projectPath file : string) (f : FileUtils.ScannedFile) :
  processFile projectPath file = Some f ->
  (FileUtils.size f <= 10 * 1024 * 1024)%N
  /\ access (FileUtils.absolutePath f) = true
  /\ readFile (FileUtils.absolutePath f) = Some (FileUtils.content f)
  /\ FileUtils.hash f = sha256_hex (FileUtils.content f)
  /\ FileUtils.relativePath_of f = relative projectPath (FileUtils.absolutePath f)
  /\ FileUtils.absolutePath f = resolve projectPath file.
Proof.
  intros Hf. unfold FileUtils.processFile in Hf.
  destruct (access (resolve projectPath file)) eqn:Haccess; [|discriminate].
  destruct (stat (resolve projectPath file)) as [stats|]; [|discriminate].
  unfold FileUtils.createFileInfo in Hf.
  destruct (N.ltb_spec (10 * 1024 * 1024) (FileUtils.st_size stats)) as [Hbig|Hok];
    [discriminate|].
  destruct (readFile (resolve projectPath file)) as [content|] eqn:Hread;
    [|discriminate].
  injection Hf as <-. cbn.
  split; [exact Hok|]. split; [exact Haccess|]. split; [exact Hread|].
  split; [reflexivity|]. split; reflexivity.
Qed.

(** X15. A full scan answers with the files found by the glob, cut to the
    first 10,000, each one processed once and in order, those that cannot be
    processed left out: the batches of 50 do not show, and [forceFullScan]
    makes no difference. So no scan yields more than 10,000 files; every file
    it yields is readable, is at most 10 MiB in size, carries the content
    that was read from its absolute path and the digest of that content, and
    has its path relative to the project. The scan rejects only when the glob
    does. *)
Theorem getProjectFiles_scans_each_file_once (projectPath : string) (forceFullScan : bool) :
  project_files projectPath forceFullScan
  = match fastGlob "**/*" projectPath (getIgnorePatterns projectPath) with
    | Some files => Some (omap (processFile projectPath) (firstn 10000 files))
    | None => None
    end
  /\ (forall fileInfos,
         project_files projectPath forceFullScan = Some fileInfos ->
         length fileInfos <= 10000
         /\ forall f, In f fileInfos ->
                      (FileUtils.size f <= 10 * 1024 * 1024)%N
                      /\ access (FileUtils.absolutePath f) = true
                      /\ readFile (FileUtils.absolutePath f) = Some (FileUtils.content f)
                      /\ FileUtils.hash f = sha256_hex (FileUtils.content f)
                      /\ FileUtils.relativePath_of f
                         = relative projectPath (FileUtils.absolutePath f)
                      /\ exists files file,
                           fastGlob "**/*" projectPath (getIgnorePatterns projectPath)
                           = Some files
                           /\ In file files
                           /\ FileUtils.absolutePath f = resolve projectPath file).
Proof.
  split; [apply getProjectFiles_full|].
  intros fileInfos Hsome. rewrite getProjectFiles_full in Hsome.
  destruct (fastGlob "**/*" projectPath (getIgnorePatterns projectPath)) as [files|];
    [|discriminate].
  injection Hsome as <-. split.
  - etransitivity; [apply omap_length_le|]. apply firstn_le_length.
  - intros f Hf. apply omap_In in Hf as [file [Hfile Hf]].
    apply In_firstn_in in Hfile.
    destruct (processFile_some _ _ _ Hf) as [Hsize [Haccess [Hread [Hhash [Hrel Habs]]]]].
    split; [exact Hsize|]. split; [exact Haccess|]. split; [exact Hread|].
    split; [exact Hhash|]. split; [exact Hrel|].
    exists files, file. split; [reflexivity|]. split; [exact Hfile | exact Habs].
Qed.

Lemma totalSize_bound (cap : N) (scanned : list FileInfo.t) :
  (forall file, In file scanned -> (FileInfo.size file <= cap)%N) ->
  forall sum,
    (fold_left (fun sum file => (sum + FileInfo.size file)%N) scanned sum
     <= sum + N.of_nat (length scanned) * cap)%N.
Proof.
  induction scanned as [|file scanned IH]; intros Hcap sum; [simpl; lia|].
  cbn [fold_left length].
  etransitivity; [apply IH; intros f Hf; apply Hcap; now right|].
  specialize (Hcap file (or_introl eq_refl)). lia.
Qed.

Lemma snapshot_rows_In (checkpointId : string) (scanned : list FileInfo.t) :
  forall seq row,
    In row (snapshot_rows checkpointId scanned seq) ->
    exists file, In file scanned
                 /\ FileSnapshot.size row = FileInfo.size file
                 /\ FileSnapshot.content row = Some (FileInfo.content file)
                 /\ FileSnapshot.filePath row = FileInfo.absolutePath file
                 /\ FileSnapshot.isDirectory row = 0%N.
Proof.
  induction scanned as [|file scanned IH]; intros seq row Hrow; [destruct Hrow|].
  destruct Hrow as [<-|Hrow].
  - exists file. split; [now left | repeat split].
  - destruct (IH _ _ Hrow) as [f [Hf H]]. exists f. split; [now right | exact H].
Qed.

Lemma snapshot_rows_length (checkpointId : string) (scanned : list FileInfo.t) :
  forall seq, length (snapshot_rows checkpointId scanned seq) = length scanned.
Proof.
  induction scanned as [|file scanned IH]; intros seq; [reflexivity|].
  cbn [snapshot_rows length]. now rewrite IH.
Qed.

(** X16. A checkpoint made from the scan of [FileUtils] stays within the
    limits of the scanner: when [createCheckpoint] returns a checkpoint, it
    counts at most 10,000 files, its total size is at most 10,000 times
    10 MiB (below [2^53], where the sum of the sizes and [formatFileSize] are
    exact), and every snapshot row it added holds a file of at most 10 MiB
    with the content read from its path. *)
Theorem createCheckpoint_within_scanner_limits (cwd time checkpoint_time tag : string)
    (session : Session.t) (w w' : World) (info : CheckpointInfo) :
  let env := scanning_env fastGlob resolve relative extname access stat readFile
                          sha256_hex cwd time checkpoint_time tag in
  createCheckpoint env session w = (Return (Some info), w') ->
  ci_fileCount info <= 10000
  /\ (ci_totalSize info <= 10000 * (10 * 1024 * 1024))%N
  /\ (ci_totalSize info < 2 ^ 53)%N
  /\ length (file_snapshots (db w')) = length (file_snapshots (db w)) + ci_fileCount info
  /\ (forall row,
         In row (file_snapshots (db w')) -> ~ In row (file_snapshots (db w)) ->
         (FileSnapshot.size row <= 10 * 1024 * 1024)%N
         /\ FileSnapshot.isDirectory row = 0%N
         /\ exists content,
              FileSnapshot.content row = Some content
              /\ readFile (FileSnapshot.filePath row) = Some content).
Proof.
  intros env Hrun.
  destruct (getProjectFiles env (Session.projectPath session)) as [scanned|] eqn:Hscan.
  2:{ rewrite (createCheckpoint_failed_scan _ _ _ Hscan) in Hrun. discriminate Hrun. }
  assert (Hne : scanned <> []).
  { intros ->. rewrite (createCheckpoint_no_files _ _ _ Hscan) in Hrun.
    discriminate Hrun. }
  pose proof (createCheckpoint_outcome env session w scanned Hscan Hne) as Hout.
  rewrite Hrun in Hout. destruct Hout as [_ [-> Hdb]].
  cbn [getProjectFiles env scanning_env] in Hscan.
  destruct (FileUtils.getProjectFiles fastGlob resolve relative extname access stat
              readFile sha256_hex (Session.projectPath session) true)
    as [fileInfos|] eqn:Hfiles; [|discriminate].
  injection Hscan as <-.
  rewrite getProjectFiles_full in Hfiles.
  destruct (fastGlob "**/*" (Session.projectPath session)
              (getIgnorePatterns (Session.projectPath session))) as [files|];
    [|discriminate].
  injection Hfiles as <-.
  assert (Hcount : length (map to_FileInfo
                             (omap (processFile (Session.projectPath session))
                                   (firstn 10000 files))) <= 10000).
  { rewrite length_map. etransitivity; [apply omap_length_le | apply firstn_le_length]. }
  assert (Hsizes : forall file,
             In file (map to_FileInfo (omap (processFile (Session.projectPath session))
                                            (firstn 10000 files))) ->
             (FileInfo.size file <= 10 * 1024 * 1024)%N
             /\ readFile (FileInfo.absolutePath file) = Some (FileInfo.content file)).
  { intros file Hfile. apply in_map_iff in Hfile as [f [<- Hf]].
    apply omap_In in Hf as [name [_ Hf]].
    destruct (processFile_some _ _ _ Hf) as [Hsize [_ [Hread _]]]. now split. }
  set (scanned := map to_FileInfo _) in *.
  assert (Htotal : (ci_totalSize (checkpoint_info env session scanned)
                    <= 10000 * (10 * 1024 * 1024))%N).
  { cbn [ci_totalSize checkpoint_info].
    pose proof (totalSize_bound (10 * 1024 * 1024) scanned
                  (fun file Hfile => proj1 (Hsizes file Hfile)) 0%N) as Hsum.
    assert (Hn : (N.of_nat (length scanned) <= 10000)%N).
    { change 10000%N with (N.of_nat 10000). lia. }
    nia. }
  split; [exact Hcount|]. split; [exact Htotal|].
  split; [eapply N.le_lt_trans; [exact Htotal | reflexivity]|].
  rewrite Hdb. cbn [checkpointed file_snapshots add_snapshots add_checkpoint db].
  split.
  - rewrite length_app, snapshot_rows_length. reflexivity.
  - intros row Hrow Hnew. apply in_app_or in Hrow as [Hold|Hrow]; [contradiction|].
    apply snapshot_rows_In in Hrow as [file [Hfile [Hsize [Hcontent [Hpath Hdir]]]]].
    destruct (Hsizes file Hfile) as [Hcap Hread].
    split; [rewrite Hsize; exact Hcap|]. split; [exact Hdir|].
    exists (FileInfo.content file). split; [exact Hcontent | now rewrite Hpath].
Qed.

End ScanProperties.

(** X14 (witness): the project [/p], whose second [.gitignore] cannot be
    read. *)
Lemma getIgnorePatterns_defaults_first_witness :
  FileUtils.getIgnorePatterns ScanExample.fastGlob ScanExample.resolve
                              ScanExample.readFile "/p"
  = FileUtils.DEFAULT_IGNORE_PATTERNS ++ ["dist/**"]
  /\ (In "dist/**" FileUtils.DEFAULT_IGNORE_PATTERNS
      \/ exists file gitignoreFile gitignoreContent,
           ScanExample.fastGlob "**/.gitignore" "/p" [".git/**"] = Some gitignoreFile
           /\ In file gitignoreFile
           /\ ScanExample.readFile (ScanExample.resolve "/p" file) = Some gitignoreContent
           /\ In "dist/**"
                 (FileUtils.gitignorePatterns
                    (if String.eqb file ".gitignore" then ""
                     else FileUtils.replace "/.gitignore" "" file)
                    gitignoreContent)).
Proof.
  destruct (getIgnorePatterns_defaults_first
              ScanExample.fastGlob ScanExample.resolve ScanExample.readFile "/p")
    as [Hall [_ Hfrom]].
  split; [rewrite Hall; vm_compute; reflexivity|].
  apply Hfrom. rewrite Hall. vm_compute. do 12 right. left. reflexivity.
Defined.

(** X15 (witness): the scan of [/p] leaves out the file that is too large
    and the one that cannot be accessed. *)
Lemma getProjectFiles_scans_each_file_once_witness :
  exists fileInfos,
    FileUtils.getProjectFiles ScanExample.fastGlob ScanExample.resolve
      ScanExample.relative ScanExample.extname ScanExample.access ScanExample.stat
      ScanExample.readFile ScanExample.sha256_hex "/p" false
    = Some fileInfos
    /\ map FileUtils.relativePath_of fileInfos = ["a.txt"; "lib/b.txt"]
    /\ length fileInfos <= 10000.
Proof.
  destruct (FileUtils.getProjectFiles ScanExample.fastGlob ScanExample.resolve
              ScanExample.relative ScanExample.extname ScanExample.access
              ScanExample.stat ScanExample.readFile ScanExample.sha256_hex "/p" false)
    as [fileInfos|] eqn:Hscan; [|vm_compute in Hscan; discriminate Hscan].
  exists fileInfos. split; [reflexivity|].
  destruct (proj2 (getProjectFiles_scans_each_file_once
                     ScanExample.fastGlob ScanExample.resolve ScanExample.relative
                     ScanExample.extname ScanExample.access ScanExample.stat
                     ScanExample.readFile ScanExample.sha256_hex "/p" false)
                  fileInfos Hscan) as [Hcount _].
  split; [|exact Hcount].
  vm_compute in Hscan. injection Hscan as <-. reflexivity.
Defined.

(** X16 (witness): the session of [/p] is open and its Stop event is handled
    over the scanner. *)
Lemma createCheckpoint_within_scanner_limits_witness :
  exists info w',
    createCheckpoint ScanExample.env Interrupted.session (Interrupted.before [])
    = (Return (Some info), w')
    /\ ci_fileCount info = 2
    /\ ci_totalSize info = 12%N
    /\ (ci_totalSize info < 2 ^ 53)%N.
Proof.
  destruct (createCheckpoint ScanExample.env Interrupted.session (Interrupted.before []))
    as [[[info|]|e] w'] eqn:Hrun;
    [|vm_compute in Hrun; discriminate Hrun | vm_compute in Hrun; discriminate Hrun].
  exists info, w'. split; [reflexivity|].
  destruct (createCheckpoint_within_scanner_limits
              ScanExample.fastGlob ScanExample.resolve ScanExample.relative
              ScanExample.extname ScanExample.access ScanExample.stat
              ScanExample.readFile ScanExample.sha256_hex
              "/srv" "2024-05-01T10:05:00.000Z" "2024-05-01T10:05:00.000Z" "1001_a"
              Interrupted.session (Interrupted.before []) w' info Hrun)
    as [_ [_ [Hexact _]]].
  vm_compute in Hrun. injection Hrun as <- _.
  split; [reflexivity|]. split; [reflexivity | exact Hexact].
Defined.
